(* ===== verification/_CoqProject ===== *)
-Q . S2P
Prelude.v
PyStr.v
Bits.v
Grid.v
Classifier.v
Walker.v
Codec.v
Embed.v
Extract.v
RoundTrip.v
ImageEngine.v
Histogram.v
App.v
Widgets.v
TextGui.v
ImageGui.v
Scenarios.v
