(* ===== verification/Prelude.v ===== *)
(** * Edge-driven LSB steganography: a verified model

    The repository hides a payload in the low bits of an RGB carrier
    image.  Two near-identical copies of the engine exist:
    [src/Embedd Text/text_steganography.py] hides a text message and
    [src/Embedd Image/image_steganography.py] hides a second image; each
    has a Tkinter front end ([*_gui.py]) and a [main] driver.  The
    carrier is cut into [block_width x block_height] blocks; a block
    whose red-channel gradient exceeds [threshold] is an edge block and
    carries [edge_bits] bits per channel, the others [non_edge_bits].
    The engine walks the blocks, the pixels of a block and the three
    channels in order, writing ([embed_bits]) or reading
    ([extract_bits]) the next chunk of the payload's bit string, and
    classifies each block on the array it is mutating in place.

    Files, in dependency order, and the code they model:
    - [Prelude]: Python's [range], slicing, [ValueError], a result monad
      [result] with [let*], [foldM] for [for] loops; generic lemmas and
      the [stego] hint databases.
    - [PyStr]: the string builtins of the front ends ([str.strip],
      [str.isdigit], [int], [str.split], [os.path.basename]).
    - [Bits]: [int(s, 2)] ([int_base2]), [f"{v:0{w}b}"] ([format_bin]),
      the masks of [embed_bits]/[extract_bits] ([lsb_write],
      [lsb_read]) on [Z] with [Z.land]/[Z.lor]/[Z.lnot].
    - [Grid]: the [np.array] of the image as nested lists ([px],
      [px_set] for [pixels[y, x, c]] and its assignment, which stores
      the value modulo 256 as NumPy 1.x casts into the [uint8] array
      ([u8]), [img_size]);
      [shape] and [wf_grid] (a [uint8] RGB array) with [Decision]
      instances.
    - [Classifier]: [EdgeDetectStego.__init__] ([stego],
      [default_stego]) and [is_edge_block] of both sources, with the
      [uint8] wrap-around ([u8]) of [gx], [gy] and [gx**2 + gy**2].
    - [Walker]: the loop nest as the list of visited channels
      ([visits]), each with the depth of its block.
    - [Codec]: the text and image payloads to bits and back.
    - [Embed], [Extract]: [embed_message] and [extract_message] of the
      text source, loop by loop with the state ([pixels], [bit_index],
      [message_bits]) passed explicitly, plus one step of an abstract
      engine ([embed_visit], [extract_visit]).
    - [RoundTrip]: the round trips of the text engine.
    - [ImageEngine]: [embed_image] and [extract_image] of the image
      source, their refinement of the abstract engine at a uniform depth,
      the image round trip, and the invariants of the array it returns.
    - [Histogram]: [plot_histograms] of both sources, as the two
      256-bin histograms it draws of the grayscale carrier and
      encrypted image.
    - [App]: the two [main] drivers ([main_text], [main_image]) as
      scripts over the world they change (image files, printed lines,
      figures), in a state-and-exception monad of their own ([let!]).
    - [Widgets]: the [RoundedButton] canvas both windows use: its size,
      the polygon of [rounded_rectangle], the label position and
      [on_click].
    - [TextGui]: [TextSteganographyGUI] of [text_steganography_gui.py]
      as a state machine: the window's state, one function per callback
      and worker thread, [step] for the Tk main loop with workers run at
      any later point, and the reachable states.
    - [ImageGui]: [ImageSteganographyGUI] of [image_steganography_gui.py]
      the same way; its workers read the chosen paths from [self] when
      they run, and the hidden image's size is typed as ["WxH"]
      ([parse_size]); its reachable states and the schedules of its
      workers ([eventually]).
    - [Scenarios]: fixtures, and each general theorem with hypotheses
      applied at a concrete run, its hypotheses evaluated by the kernel.

    What is proved.  Refinement: the text engine's loops are the abstract
    engine run over [visits], with each block classified on the
    ORIGINAL carrier, because embedding never writes a pixel that a later
    block's classifier reads ([Embed.embed_message_visits],
    [Extract.extract_message_visits]).  Tiling: the walk visits each of
    the [3 * width * height] channels once, in bounds
    ([Walker]).  Round trips: [embed_bits]/[extract_bits], the codec,
    the abstract engine and the text engine (when the payload fills a
    prefix of the walk exactly, the depths are at most the 8 bits a
    [uint8] channel stores, and the classification is stable), and
    as a corollary [main] of the text source prints its own message
    back on every carrier that holds it
    ([App.main_text_prints_message]); the image engines refine the
    same abstract engine when every block has the same depth, and
    [main] of the image source saves every hidden image that fits as
    ['extracted_image.png'] ([App.main_image_saves_hidden]); a missing
    input file stops [main] with [FileNotFoundError] after the lines
    already printed.  Invariants and errors: the
    array stays a [uint8] array, the text engine never raises on a
    well-shaped carrier, and a zero block height raises.  The classifier
    never detects an edge at a threshold of 16 or more ([uint8]
    overflow).  Departures from the intent, as general theorems: a
    short final chunk is read back behind stale carrier bits
    ([Extract.extract_bits_short_chunk]); the image engine's pixel step
    raises [ValueError] when the payload ends within its first two
    channels ([ImageEngine.embed_pixel_img_raises]); asking for more
    characters than the carrier holds raises [ValueError]
    ([Extract.extract_message_overread]); a code point of 256 or more
    is encoded on more than 8 bits.  The text window: its encode/decode
    round trip, an invariant of all its reachable states (files stay
    [uint8] arrays, workers get stripped, non-empty messages), and its
    departures (a cancelled dialog keeps the old file; a length with a
    superscript digit leaves the decode tab "in progress" for good,
    [TextGui.TextSteganographyGUI.superscript_length_stuck]).  The image window: its
    encode/decode round trip through the saved file
    ([ImageGui.ImageSteganographyGUI.gui_image_roundtrip]), exactly when
    DECODE starts a worker, and that the decode worker decodes the file
    chosen last, even one chosen after DECODE was clicked, where the
    text window's worker keeps the file chosen at the click.  In every
    state the image window reaches, an "in progress" label is backed by
    a pending worker, and every order of the pending workers ends with
    none pending and no label "in progress" (liveness,
    [ImageGui.ImageSteganographyGUI.image_workers_finish]).  Distortion:
    both engines change each channel by less than [2^k], [k] the larger
    depth, and [embed_image] returns a [uint8] array of the carrier's
    shape whatever the classification; so the encrypted image [main]
    plots is within [2^k] grey levels of the carrier at every pixel,
    and each histogram counts every pixel once ([Histogram]).

    Modelling choices.  A character is its code point ([Z]); a pixel
    value is a [Z] kept in [0, 255] by [wf_grid] and by the store
    [px_set], which wraps modulo 256 as NumPy 1.x does (the stricter
    integer conversions of later NumPy versions are not modelled).  A
    depth of more
    than 8 bits therefore loses payload bits in the store, so the round
    trips assume depths of at most 8.  [np.sqrt(s) >
    threshold] on a [uint8] sample [s] is the integer test [sqrt_gt],
    equal to the real comparison ([sqrt_gt_spec]); the [float16] result
    of [np.sqrt] on [uint8] is exact enough for the samples 0..255
    (consecutive squares are at least 1/16 apart in the root), and that
    step is not modelled further.  No fuel is used: every loop of the
    source is a [for] over a finite [range], modelled by [foldM] or
    [fold_left] over that list, so every definition is total and
    executable.  The [PIL] loading, saving and [Image.fromarray] are the
    identity on the array (PNG is lossless).  [Image.convert("L")] is
    Pillow's fixed-point luma [(19595 r + 38470 g + 7471 b + 2^15) >>
    16]; NumPy's equal-width binning of [range=(0, 255)] is computed
    with integers, which the float computation agrees with on bytes.

    Strings typed into the windows are Latin-1 ([PyStr]).  What NumPy
    and Pillow do with a typed hidden size that has a side of 0 or less
    depends on their versions: it is the section parameter
    [degenerate_size] of [ImageGui], and no theorem depends on it.  A worker
    thread runs atomically once scheduled; Tk's widget updates from a
    worker are taken as immediate.

    Not modelled: the widget layout and styling of both windows
    ([style_tabs], [create_widgets] and the [pack] calls of
    [create_encode_tab]/[create_decode_tab], which compute nothing the
    callbacks read; the initial label texts are in [initial_gui]), the
    Tk drawing calls of [RoundedButton], the drawing of the
    histogram figures (their counts are modelled), and the
    [os.makedirs] of the windows' [assets] folder.  NumPy's scalar type
    promotion in [current_value & ~mask] is computed exactly on [Z]; the
    result is stored back into the [uint8] array by [px_set]. *)

From Stdlib Require Import ZArith Lia.
From stdpp Require Import base list.

Declare Scope stego_scope.
Delimit Scope stego_scope with stego.
Open Scope stego_scope.

(** ** Python exceptions and the result monad *)

(** The only exception the modelled engine can raise. [int('', 2)],
    [range(0, n, 0)] and the other failures of the source all raise
    [ValueError]. *)
Inductive py_error : Type :=
  | ValueError.

(** A computation of the source that either returns or raises. *)
Inductive result (A : Type) : Type :=
  | Ok (a : A)
  | Raise (e : py_error).
Arguments Ok {A} a.
Arguments Raise {A} e.

Definition rbind {A B : Type} (m : result A) (k : A -> result B) : result B :=
  match m with
  | Ok a => k a
  | Raise e => Raise e
  end.

Notation "'let*' x ':=' m 'in' k" := (rbind m (fun x => k))
  (at level 100, x name, m at level 99, k at level 200) : stego_scope.

(** A Python [for] loop whose body may raise: the state [a] is threaded
    through the body [f] for every element of [l], in order. *)
Fixpoint foldM {A B : Type} (f : A -> B -> result A) (l : list B) (a : A)
    : result A :=
  match l with
  | [] => Ok a
  | b :: l' => rbind (f a b) (foldM f l')
  end.

(** ** Python ranges and slices *)

(** [range(n)]. *)
Definition range (n : nat) : list nat := seq 0 n.

(** The values of [range(0, stop, step)] for a positive [step]. *)
Definition range_by (stop step : nat) : list nat :=
  map (fun k => k * step) (seq 0 ((stop + step - 1) / step)).

(** [range(0, stop, step)]: Python raises [ValueError] on a zero step. *)
Definition range_step (stop step : nat) : result (list nat) :=
  if step =? 0 then Raise ValueError else Ok (range_by stop step).

(** [l[i:j]] for non-negative [i <= j]; Python clips at the end. *)
Definition slice {A : Type} (i j : nat) (l : list A) : list A :=
  take (j - i) (drop i l).

(** ** Automation *)

Create HintDb stego discriminated.
Create Rewrite HintDb stego_rw.

(** Turn boolean comparisons on [nat] and [Z] into propositions. *)
Ltac bool_prop :=
  repeat match goal with
  | H : (_ <? _)%nat = true |- _ => apply Nat.ltb_lt in H
  | H : (_ <? _)%nat = false |- _ => apply Nat.ltb_ge in H
  | H : (_ =? _)%nat = true |- _ => apply Nat.eqb_eq in H
  | H : (_ =? _)%nat = false |- _ => apply Nat.eqb_neq in H
  | H : (_ <=? _)%nat = true |- _ => apply Nat.leb_le in H
  | H : (_ <=? _)%nat = false |- _ => apply Nat.leb_gt in H
  | H : (_ <? _)%Z = true |- _ => apply Z.ltb_lt in H
  | H : (_ <? _)%Z = false |- _ => apply Z.ltb_ge in H
  | H : (_ && _) = true |- _ => apply andb_prop in H as [? ?]
  | H : (_ || _) = false |- _ => apply orb_false_elim in H as [? ?]
  end.

(** Split a successful bind in a hypothesis. *)
Ltac inv_bind :=
  repeat match goal with
  | H : rbind ?m _ = Ok _ |- _ =>
      let a := fresh "a" in let Ha := fresh "Hm" in
      destruct m as [a|] eqn:Ha; [simpl in H | discriminate H]
  end.

(** ** Generic lemmas on the monad and loops *)

Lemma rbind_ok {A B} (a : A) (k : A -> result B) : rbind (Ok a) k = k a.
Proof. reflexivity. Qed.

Lemma rbind_ok_inv {A B} (m : result A) (k : A -> result B) b :
  rbind m k = Ok b -> exists a, m = Ok a /\ k a = Ok b.
Proof. destruct m; simpl; eauto; discriminate. Qed.

Lemma rbind_assoc {A B C} (m : result A) (k : A -> result B) (h : B -> result C) :
  rbind (rbind m k) h = rbind m (fun a => rbind (k a) h).
Proof. by destruct m. Qed.

Lemma rbind_ok_r {A} (m : result A) : rbind m Ok = m.
Proof. by destruct m. Qed.

#[export] Hint Rewrite @rbind_ok @rbind_assoc @rbind_ok_r : stego_rw.

Lemma foldM_app {A B} (f : A -> B -> result A) l1 l2 a :
  foldM f (l1 ++ l2) a = rbind (foldM f l1 a) (foldM f l2).
Proof.
  revert a; induction l1 as [|b l1 IH]; intros a; simpl; [done|].
  rewrite rbind_assoc. destruct (f a b); simpl; auto.
Qed.

(** A loop over a flattened list is the nested loop. *)
Lemma foldM_bind {A B C} (f : A -> C -> result A) (g : B -> list C) l a :
  foldM f (l ≫= g) a = foldM (fun a b => foldM f (g b) a) l a.
Proof.
  revert a; induction l as [|b l IH]; intros a; simpl; [done|].
  rewrite foldM_app. destruct (foldM f (g b) a); simpl; auto.
Qed.

Lemma foldM_ext {A B} (f g : A -> B -> result A) l a :
  (forall a b, b ∈ l -> f a b = g a b) -> foldM f l a = foldM g l a.
Proof.
  revert a; induction l as [|b l IH]; intros a Hfg; simpl; [done|].
  rewrite Hfg by (left). destruct (g a b); simpl; [|done].
  apply IH. intros. apply Hfg. by right.
Qed.

(** An invariant of the loop body is an invariant of the loop. *)
Lemma foldM_invariant {A B} (P : A -> Prop) (f : A -> B -> result A) l a a' :
  (forall a b a', b ∈ l -> P a -> f a b = Ok a' -> P a') ->
  P a -> foldM f l a = Ok a' -> P a'.
Proof.
  revert a; induction l as [|b l IH]; intros a Hstep Ha Hrun; simpl in Hrun.
  - by injection Hrun as <-.
  - apply rbind_ok_inv in Hrun as (a1 & H1 & H2).
    eapply IH; [| |exact H2].
    + intros. eapply Hstep; [by right|..]; eauto.
    + eapply Hstep; [by left|..]; eauto.
Qed.

(** A loop whose body leaves the state alone leaves it alone. *)
(** Two loops agree while an invariant of the second holds: the
    simulation of one loop body by another, lifted to the loop. *)
Lemma foldM_sim {A B} (P : A -> Prop) (f g : A -> B -> result A) l a :
  (forall a b, b ∈ l -> P a -> f a b = g a b /\ forall a', g a b = Ok a' -> P a') ->
  P a -> foldM f l a = foldM g l a /\ forall a', foldM g l a = Ok a' -> P a'.
Proof.
  revert a. induction l as [|b l IH]; intros a Hsim Ha; simpl.
  - split; [done|]. by intros a' [= <-].
  - destruct (Hsim a b) as [-> Hinv]; [by left|done|].
    destruct (g a b) as [a1|e] eqn:E; simpl; [|done].
    apply IH; [|by apply Hinv]. intros. apply Hsim; [by right|done].
Qed.

Lemma foldM_skip {A B} (f : A -> B -> result A) l a :
  (forall b, b ∈ l -> f a b = Ok a) -> foldM f l a = Ok a.
Proof.
  induction l as [|b l IH]; intros Hskip; simpl; [done|].
  rewrite Hskip by left. simpl. apply IH. intros. apply Hskip. by right.
Qed.

Lemma length_slice {A} i j (l : list A) :
  length (slice i j l) = Nat.min (j - i) (length l - i).
Proof. unfold slice. by rewrite length_take, length_drop. Qed.

Lemma elem_of_range n k : k ∈ range n <-> k < n.
Proof. unfold range. rewrite list_elem_of_In, in_seq. lia. Qed.

Lemma range_step_ok stop step :
  step <> 0 -> range_step stop step = Ok (range_by stop step).
Proof. intros H. unfold range_step. by destruct (Nat.eqb_spec step 0). Qed.

Lemma range_step_zero stop : range_step stop 0 = Raise ValueError.
Proof. reflexivity. Qed.

(** Every value of [range(0, stop, step)] is a multiple of [step] below [stop]. *)
Lemma elem_of_range_by stop step x :
  step <> 0 -> x ∈ range_by stop step <-> exists k, x = k * step /\ x < stop.
Proof.
  intros Hs. unfold range_by. rewrite list_elem_of_In, in_map_iff. split.
  - intros (k & <- & Hk). apply in_seq in Hk. exists k. split; [done|].
    assert (k < (stop + step - 1) / step) as Hk' by lia.
    apply Nat.lt_le_pred in Hk'.
    pose proof (Nat.div_mod (stop + step - 1) step Hs).
    pose proof (Nat.mod_upper_bound (stop + step - 1) step Hs). nia.
  - intros (k & -> & Hk). exists k. split; [done|]. apply in_seq. split; [lia|].
    simpl. enough (S k <= (stop + step - 1) / step) by lia.
    apply Nat.div_le_lower_bound; [done|]. lia.
Qed.

Lemma NoDup_range n : NoDup (range n).
Proof. apply NoDup_ListNoDup, seq_NoDup. Qed.

Lemma NoDup_range_by stop step : step <> 0 -> NoDup (range_by stop step).
Proof.
  intros Hs. unfold range_by. apply NoDup_fmap_2_strong; [|apply NoDup_ListNoDup, seq_NoDup].
  intros a b _ _ Hab. apply (Nat.mul_cancel_r _ _ step); done.
Qed.

Lemma existsb_ext_in {A} (f g : A -> bool) l :
  (forall x, x ∈ l -> f x = g x) -> existsb f l = existsb g l.
Proof.
  induction l as [|x l IH]; intros Hfg; simpl; [done|].
  rewrite Hfg by left. f_equal. apply IH. intros. apply Hfg. by right.
Qed.

Lemma existsb_false {A} (f : A -> bool) l :
  (forall x, x ∈ l -> f x = false) -> existsb f l = false.
Proof.
  induction l as [|x l IH]; intros Hf; simpl; [done|].
  rewrite Hf by left. apply IH. intros. apply Hf. by right.
Qed.

(** A list comprehension whose element expression may raise. *)
Fixpoint mapM {A B : Type} (f : A -> result B) (l : list A) : result (list B) :=
  match l with
  | [] => Ok []
  | a :: l' => let* b := f a in let* bs := mapM f l' in Ok (b :: bs)
  end.

Lemma mapM_ok {A B} (f : A -> result B) (g : A -> B) l :
  (forall a, a ∈ l -> f a = Ok (g a)) -> mapM f l = Ok (map g l).
Proof.
  induction l as [|a l IH]; intros Hf; simpl; [done|].
  rewrite Hf by left. simpl. rewrite IH; [done|]. intros. apply Hf. by right.
Qed.

Lemma range_by_mul k step :
  step <> 0 -> range_by (k * step) step = map (fun j => j * step) (seq 0 k).
Proof.
  intros Hs. unfold range_by. f_equal. f_equal.
  replace (k * step + step - 1) with ((step - 1) + k * step) by lia.
  rewrite Nat.div_add by done. rewrite Nat.div_small; lia.
Qed.

Lemma foldM_fmap {A B C} (f : A -> C -> result A) (g : B -> C) l a :
  foldM f (g <$> l) a = foldM (fun a b => f a (g b)) l a.
Proof.
  revert a; induction l as [|b l IH]; intros a; simpl; [done|].
  destruct (f a (g b)); simpl; [apply IH|done].
Qed.

Lemma list_bind_assoc {A B C} (l : list A) (f : A -> list B) (g : B -> list C) :
  (l ≫= f) ≫= g = l ≫= (fun a => f a ≫= g).
Proof. induction l as [|a l IH]; csimpl; [done|]. by rewrite bind_app, IH. Qed.

Lemma list_fmap_bind_l {A B C} (l : list A) (f : A -> B) (g : B -> list C) :
  (f <$> l) ≫= g = l ≫= (fun a => g (f a)).
Proof. induction l as [|a l IH]; csimpl; [done|]. by rewrite IH. Qed.

Lemma list_bind_ext {A B} (f g : A -> list B) (l : list A) :
  (forall a, a ∈ l -> f a = g a) -> l ≫= f = l ≫= g.
Proof.
  induction l as [|a l IH]; intros Hfg; csimpl; [done|].
  rewrite Hfg by left. f_equal. apply IH. intros. apply Hfg. by right.
Qed.

Lemma fold_left_bind {A B C} (f : A -> C -> A) (g : B -> list C) l a :
  fold_left f (l ≫= g) a = fold_left (fun a b => fold_left f (g b) a) l a.
Proof.
  revert a; induction l as [|b l IH]; intros a; csimpl; [done|].
  by rewrite fold_left_app, IH.
Qed.

Lemma fold_left_fmap {A B C} (f : A -> C -> A) (g : B -> C) l a :
  fold_left f (g <$> l) a = fold_left (fun a b => f a (g b)) l a.
Proof. revert a; induction l as [|b l IH]; intros a; csimpl; [done|]. apply IH. Qed.

Lemma fold_left_ext_in {A B} (f g : A -> B -> A) l a :
  (forall a b, b ∈ l -> f a b = g a b) -> fold_left f l a = fold_left g l a.
Proof.
  revert a; induction l as [|b l IH]; intros a Hfg; simpl; [done|].
  rewrite Hfg by left. apply IH. intros. apply Hfg. by right.
Qed.

(** [foldM_sim] for pure loops. *)
Lemma fold_left_sim {A B} (P : A -> Prop) (f g : A -> B -> A) l a :
  (forall a b, b ∈ l -> P a -> f a b = g a b /\ P (g a b)) ->
  P a -> fold_left f l a = fold_left g l a /\ P (fold_left g l a).
Proof.
  revert a. induction l as [|b l IH]; intros a Hsim Ha; simpl; [done|].
  destruct (Hsim a b) as [-> Hinv]; [by left|done|].
  apply IH; [|done]. intros. apply Hsim; [by right|done].
Qed.

Lemma fold_left_skip {A B} (f : A -> B -> A) l a :
  (forall b, b ∈ l -> f a b = a) -> fold_left f l a = a.
Proof.
  induction l as [|b l IH]; intros Hskip; simpl; [done|].
  rewrite Hskip by left. apply IH. intros. apply Hskip. by right.
Qed.

(** Adjacent slices concatenate. *)
Lemma slice_app {A} i j k (l : list A) :
  i <= j <= k -> slice i j l ++ slice j k l = slice i k l.
Proof.
  intros Hijk. unfold slice.
  replace (k - i) with ((j - i) + (k - j)) by lia.
  rewrite <- take_take_drop, drop_drop. by replace (i + (j - i)) with j by lia.
Qed.

Lemma length_slice_full {A} i n (l : list A) :
  i + n <= length l -> length (slice i (i + n) l) = n.
Proof. intros H. rewrite length_slice. lia. Qed.

(** A loop whose body cannot raise is a [fold_left]. *)
Lemma foldM_pure {A B} (f : A -> B -> A) l a :
  foldM (fun a b => Ok (f a b)) l a = Ok (fold_left f l a).
Proof. revert a; induction l as [|b l IH]; intros a; simpl; [done|]. apply IH. Qed.

Lemma length_bind_const {A B} (f : A -> list B) (l : list A) c :
  (forall a, a ∈ l -> length (f a) = c) -> length (l ≫= f) = c * length l.
Proof.
  induction l as [|a l IH]; intros Hf; csimpl; [lia|].
  rewrite length_app, Hf by left. rewrite IH; [lia|]. intros. apply Hf. by right.
Qed.

(** ** Uniform blocks of a flattened list *)

Lemma map_nth_range {A} (l : list A) d : map (fun i => nth i l d) (range (length l)) = l.
Proof.
  unfold range. induction l as [|a l IH]; [done|]. cbn [length seq map nth].
  f_equal. rewrite <- seq_shift, map_map. exact IH.
Qed.

Lemma nth_concat_uniform {A} (xs : list (list A)) k r c d :
  Forall (fun x => length x = k) xs -> c < k -> r < length xs ->
  nth (r * k + c) (concat xs) d = nth c (nth r xs []) d.
Proof.
  intros Hk Hc. revert r. induction Hk as [|x xs Hx Hxs IH]; intros r Hr; simpl in *; [lia|].
  destruct r as [|r].
  - rewrite app_nth1 by lia. done.
  - rewrite app_nth2 by nia. replace (S r * k + c - length x) with (r * k + c) by nia. apply IH. lia.
Qed.

Lemma slice_concat_uniform {A} (xs : list (list A)) k i :
  Forall (fun x => length x = k) xs -> i < length xs ->
  slice (i * k) (i * k + k) (concat xs) = nth i xs [].
Proof.
  intros Hk. revert i. induction Hk as [|x xs Hx Hxs IH]; intros i Hi; simpl in *; [lia|].
  unfold slice in *. replace (i * k + k - i * k) with k by lia.
  destruct i as [|i].
  - rewrite Nat.mul_0_l, drop_0, take_app_length'; [done|lia].
  - rewrite drop_app_ge by nia. replace (S i * k - length x) with (i * k) by nia.
    specialize (IH i ltac:(lia)). by replace (i * k + k - i * k) with k in IH by lia.
Qed.

Lemma length_concat_uniform {A} (xs : list (list A)) k :
  Forall (fun x => length x = k) xs -> length (concat xs) = length xs * k.
Proof. induction 1 as [|x xs Hx _ IH]; simpl; [done|]. rewrite length_app, IH. lia. Qed.

Lemma Forall_concat_2 {A} (P : A -> Prop) (xs : list (list A)) :
  Forall (Forall P) xs -> Forall P (concat xs).
Proof. induction 1; simpl; [done|]. by apply Forall_app. Qed.

Lemma Forall2_concat_2 {A B} (P : A -> B -> Prop) (xs : list (list A)) (ys : list (list B)) :
  Forall2 (Forall2 P) xs ys -> Forall2 P (concat xs) (concat ys).
Proof. induction 1; simpl; [done|]. by apply Forall2_app. Qed.

