(* ===== verification/PyStr.v ===== *)
(** * The Python string builtins the front ends call

    The Tkinter front ends read the text of an [Entry] and pass it
    through [str.strip], [str.isdigit], [str.split('x')] and [int]; they
    show [os.path.basename] of the chosen file.  A Python string is its
    list of code points ([list Z]); these definitions are exact for
    Latin-1 text (code points 0..255), where the white space of
    [str.strip] is [\t \n \x0b \x0c \r \x1c-\x1f], the space, [\x85] and
    [\xa0], the characters with [str.isdigit] are the ASCII digits and the
    superscripts [¹ ² ³], and the only decimal digits [int] accepts are
    the ASCII ones.  A code point above 255 is treated as an ordinary
    character (Unicode's other digits and spaces are not modelled).
    Paths are [string]s (stdpp's [strings]). *)

From Stdlib Require Import ZArith Lia Ascii.
From stdpp Require Import base list strings.
From S2P Require Import Prelude.

Open Scope stego_scope.
Local Open Scope Z_scope.

(** ** Literals *)

(** A Python [str] literal of ASCII text, as its code points. *)
Fixpoint pystr (s : string) : list Z :=
  match s with
  | EmptyString => []
  | String a s' => Z.of_nat (nat_of_ascii a) :: pystr s'
  end.

(** ** Character classes *)

(** [c.isspace()] on Latin-1. *)
Definition py_isspace (c : Z) : bool :=
  ((9 <=? c) && (c <=? 13)) || ((28 <=? c) && (c <=? 32)) || (c =? 133) || (c =? 160).

(** A decimal digit [int] accepts. *)
Definition is_ascii_digit (c : Z) : bool := (48 <=? c) && (c <=? 57).

(** [c.isdigit()] on Latin-1: the ASCII digits and [¹ ² ³]. *)
Definition py_isdigit_char (c : Z) : bool :=
  is_ascii_digit c || (c =? 178) || (c =? 179) || (c =? 185).

(** ** [str] methods *)

(** [s.lstrip()]. *)
Fixpoint py_lstrip (s : list Z) : list Z :=
  match s with
  | c :: s' => if py_isspace c then py_lstrip s' else s
  | [] => []
  end.

(** [s.strip()]: [lstrip], then the same from the right. *)
Definition py_strip (s : list Z) : list Z := reverse (py_lstrip (reverse (py_lstrip s))).

(** [s.isdigit()]: non-empty and every character a digit. *)
Definition py_isdigit (s : list Z) : bool :=
  bool_decide (s <> []) && forallb py_isdigit_char s.

(** [s.split(sep)], one separator character. *)
Fixpoint py_split (sep : Z) (s : list Z) : list (list Z) :=
  match s with
  | [] => [[]]
  | c :: s' =>
      if c =? sep then [] :: py_split sep s'
      else match py_split sep s' with
           | [] => [[c]]
           | w :: ws => (c :: w) :: ws
           end
  end.

(** ** [int(s)] in base 10 *)

(** The value of a string of ASCII digits (underscores skipped). *)
Definition digits_value (s : list Z) : Z :=
  fold_left (fun acc c => if c =? 95 then acc else 10 * acc + (c - 48)) s 0.

(** The digit groups of a literal: digits, with single underscores
    between two digits; [after_digit] says whether the previous
    character was a digit. *)
Fixpoint digit_groups (after_digit : bool) (s : list Z) : bool :=
  match s with
  | [] => after_digit
  | c :: s' =>
      if is_ascii_digit c then digit_groups true s'
      else if c =? 95 then after_digit && digit_groups false s'
      else false
  end.

(** [int(s)]: surrounding white space, an optional sign, then the digit
    groups; anything else raises [ValueError]. *)
Definition py_int (s : list Z) : result Z :=
  let t := py_strip s in
  let '(sign, body) :=
    match t with
    | 43 :: r => (1, r)
    | 45 :: r => (-1, r)
    | _ => (1, t)
    end in
  if digit_groups false body then Ok (sign * digits_value body) else Raise ValueError.

(** ** [os.path.basename] *)

(** The part of a POSIX path after its last ["/"]. *)
Fixpoint basename_from (cur : string) (p : string) : string :=
  match p with
  | EmptyString => cur
  | String c p' => if decide (c = "/"%char) then basename_from "" p' else basename_from (cur +:+ String c "") p'
  end.

Definition basename (p : string) : string := basename_from "" p.

(** ** [strip] *)

Lemma py_lstrip_suffix s : exists pre, s = pre ++ py_lstrip s.
Proof.
  induction s as [|c s IH]; [by exists []|]. simpl. destruct (py_isspace c).
  - destruct IH as [pre Hpre]. exists (c :: pre). by rewrite <- app_comm_cons, <- Hpre.
  - by exists [].
Qed.

Lemma py_lstrip_head s c r : py_lstrip s = c :: r -> py_isspace c = false.
Proof.
  induction s as [|c' s IH]; [done|]. simpl. destruct (py_isspace c') eqn:E; [done|].
  by intros [= <- _].
Qed.

Lemma py_lstrip_fix s :
  (forall c r, s = c :: r -> py_isspace c = false) -> py_lstrip s = s.
Proof. destruct s as [|c r]; [done|]. intros H. simpl. by rewrite (H c r). Qed.

(** [strip] is idempotent: a stripped text has no white space at either end. *)
Lemma py_strip_idemp s : py_strip (py_strip s) = py_strip s.
Proof.
  unfold py_strip. set (t := py_lstrip s). set (u := py_lstrip (reverse t)).
  assert (py_lstrip (reverse u) = reverse u) as ->.
  { apply py_lstrip_fix. intros c r Hu.
    destruct t as [|c0 t'] eqn:Ht; [by subst u|].
    destruct (py_lstrip_suffix (reverse (c0 :: t'))) as [pre Hpre]. fold u in Hpre.
    apply (f_equal reverse) in Hu. rewrite reverse_involutive in Hu.
    rewrite Hu, reverse_cons, reverse_cons, app_assoc in Hpre.
    apply app_inj_tail in Hpre as [_ ->]. by eapply py_lstrip_head. }
  rewrite reverse_involutive. f_equal. apply py_lstrip_fix. intros c r Hu.
  by eapply py_lstrip_head.
Qed.

(** ** [str.isdigit] against [int] *)

(** Digit groups reject a character that is neither an ASCII digit nor
    an underscore. *)
Lemma digit_groups_reject b s :
  existsb (fun c => negb (is_ascii_digit c) && negb (c =? 95)) s = true -> digit_groups b s = false.
Proof.
  revert b. induction s as [|c s IH]; intros b; [done|]. simpl.
  destruct (is_ascii_digit c) eqn:Ed; simpl; [by apply IH|].
  destruct (c =? 95) eqn:Eu; simpl; [|done]. intros H. rewrite IH; [|done]. apply andb_false_r.
Qed.

(** A text that [str.isdigit] accepts but that holds a digit other than
    an ASCII one (a superscript) makes [int] raise [ValueError]. *)
Lemma py_int_isdigit_not_ascii s :
  py_isdigit (py_strip s) = true ->
  existsb (fun c => negb (is_ascii_digit c)) (py_strip s) = true ->
  py_int s = Raise ValueError.
Proof.
  unfold py_isdigit, py_int. intros [_ Hall]%andb_prop Hex.
  assert (existsb (fun c => negb (is_ascii_digit c) && negb (c =? 95)) (py_strip s) = true) as Hrej.
  { apply existsb_exists in Hex as (c & Hc & Hn). apply existsb_exists. exists c. split; [done|].
    rewrite forallb_forall in Hall. specialize (Hall c Hc). unfold py_isdigit_char in Hall.
    rewrite Hn. simpl. apply negb_true_iff, Z.eqb_neq. intros ->. done. }
  destruct (py_strip s) as [|c r] eqn:E; [done|].
  assert (c <> 43 /\ c <> 45) as [H43 H45].
  { simpl in Hall. apply andb_prop in Hall as [Hc _]. unfold py_isdigit_char, is_ascii_digit in Hc.
    split; intros ->; done. }
  destruct (Z.eq_dec c 43) as [->|_]; [done|]. destruct (Z.eq_dec c 45) as [->|_]; [done|].
  replace (match c :: r with 43 :: r0 => (1, r0) | 45 :: r0 => (-1, r0) | _ => (1, c :: r) end)
    with (1, c :: r).
  - by rewrite digit_groups_reject.
  - destruct c as [|[p|p|]|p]; try done; destruct p; try done; destruct p; try done;
      destruct p; try done; destruct p; try done; destruct p; try done.
Qed.
