(* ===== verification/Bits.v ===== *)
(** * Bit strings: Python's binary formatting and [int(s, 2)]

    The source represents every bit sequence as a Python string of
    ['0']/['1'] characters.  Here such a string is a [list bool], most
    significant bit first.  This file models the three primitives the
    engines build on:
    - [f"{v:b}"] and [f"{v:0{w}b}"]: [bin_digits] and [format_bin];
    - [int(s, 2)]: [int_base2], which raises [ValueError] on the empty
      string, as Python does;
    - the value-level low-bit write of [embed_bits]: [lsb_write].
    Their round trips ([int_base2_format_bin], [format_bin_bits_val])
    and the low-bit laws of [lsb_write] are proved here. *)

From Stdlib Require Import ZArith Lia.
From stdpp Require Import base list.
From S2P Require Import Prelude.

Open Scope stego_scope.

(** ** Definitions *)

(** The digits of [f"{p:b}"] for a positive [p]: no leading zero. *)
Fixpoint pos_bits (p : positive) : list bool :=
  match p with
  | xH => [true]
  | xO q => pos_bits q ++ [false]
  | xI q => pos_bits q ++ [true]
  end.

(** [f"{v:b}"]: [0] prints as ["0"].  Every value the source formats is
    non-negative (a code point, a [uint8] channel or a masked channel),
    so the sign branch of Python's formatting is never taken; the
    negative case reuses the magnitude's digits. *)
Definition bin_digits (v : Z) : list bool :=
  match v with
  | Z0 => [false]
  | Zpos p => pos_bits p
  | Zneg p => pos_bits p
  end.

(** [f"{v:0{w}b}"]: the binary digits left-padded with zeros to at
    least [w] characters (never truncated). *)
Definition format_bin (w : nat) (v : Z) : list bool :=
  let s := bin_digits v in
  replicate (w - length s) false ++ s.

(** The value of a bit string read as a base-2 numeral, left to right. *)
Definition bits_val (s : list bool) : Z :=
  fold_left (fun acc b => 2 * acc + Z.b2z b)%Z s 0%Z.

(** [int(s, 2)] on a string of ['0']/['1']: the empty string raises. *)
Definition int_base2 (s : list bool) : result Z :=
  match s with
  | [] => Raise ValueError
  | _ :: _ => Ok (bits_val s)
  end.

(** [(1 << n) - 1]. *)
Definition low_mask (n : nat) : Z := (Z.shiftl 1 (Z.of_nat n) - 1)%Z.

(** [(current_value & ~mask) | bits_value] with [mask = (1 << len(bits)) - 1]:
    the body of [embed_bits] on one channel value. *)
Definition lsb_write (current_value : Z) (bits_value : Z) (len : nat) : Z :=
  Z.lor (Z.land current_value (Z.lnot (low_mask len))) bits_value.

(** [value & ((1 << num_bits) - 1)]: the read of [extract_bits]. *)
Definition lsb_read (value : Z) (num_bits : nat) : Z :=
  Z.land value (low_mask num_bits).

(** ** Lemmas on [bits_val] *)

Lemma bits_val_acc s acc :
  fold_left (fun acc b => 2 * acc + Z.b2z b)%Z s acc =
  (acc * 2 ^ Z.of_nat (length s) + bits_val s)%Z.
Proof.
  unfold bits_val. revert acc.
  induction s as [|b s IH]; intros acc; simpl; [lia|].
  rewrite (IH (2 * acc + Z.b2z b)%Z), (IH (2 * 0 + Z.b2z b)%Z).
  rewrite Nat2Z.inj_succ, Z.pow_succ_r by lia. lia.
Qed.

Lemma bits_val_nil : bits_val [] = 0%Z.
Proof. reflexivity. Qed.

Lemma bits_val_cons b s :
  bits_val (b :: s) = (Z.b2z b * 2 ^ Z.of_nat (length s) + bits_val s)%Z.
Proof. unfold bits_val at 1. simpl. rewrite bits_val_acc. lia. Qed.

Lemma bits_val_app s t :
  bits_val (s ++ t) = (bits_val s * 2 ^ Z.of_nat (length t) + bits_val t)%Z.
Proof. unfold bits_val at 1. rewrite fold_left_app. apply bits_val_acc. Qed.

Lemma bits_val_range s : (0 <= bits_val s < 2 ^ Z.of_nat (length s))%Z.
Proof.
  induction s as [|b s IH]; [rewrite bits_val_nil; simpl; lia|].
  rewrite bits_val_cons. simpl length. rewrite Nat2Z.inj_succ, Z.pow_succ_r by lia.
  destruct b; simpl Z.b2z; lia.
Qed.

Lemma bits_val_replicate_false k s : bits_val (replicate k false ++ s) = bits_val s.
Proof.
  induction k as [|k IH]; [done|]. simpl. rewrite bits_val_cons, IH. simpl. lia.
Qed.

(** Two strings of the same length with the same value are equal. *)
Lemma bits_val_inj s t :
  length s = length t -> bits_val s = bits_val t -> s = t.
Proof.
  revert t. induction s as [|b s IH]; intros [|c t] Hl Hv; try done.
  simpl in Hl. injection Hl as Hl. rewrite !bits_val_cons in Hv. rewrite Hl in Hv.
  pose proof (bits_val_range s). pose proof (bits_val_range t). rewrite Hl in *.
  assert (b = c) as <-.
  { destruct b, c; simpl in Hv; try done; lia. }
  f_equal. apply IH; [done|]. lia.
Qed.

#[export] Hint Resolve bits_val_range : stego.

(** ** Lemmas on [bin_digits] and [format_bin] *)

Lemma pos_bits_val p : bits_val (pos_bits p) = Zpos p.
Proof.
  induction p as [p IH|p IH|]; simpl pos_bits; [| |done];
    rewrite bits_val_app, IH; simpl length.
  - change (bits_val [true]) with 1%Z. rewrite Pos2Z.inj_xI. lia.
  - change (bits_val [false]) with 0%Z. rewrite Pos2Z.inj_xO. lia.
Qed.

(** The digits of a positive number start with a one. *)
Lemma pos_bits_head p : exists r, pos_bits p = true :: r.
Proof.
  induction p as [p [r IH]|p [r IH]|]; simpl; [| |by eexists].
  all: rewrite IH; by eexists.
Qed.

Lemma bin_digits_val v : (0 <= v)%Z -> bits_val (bin_digits v) = v.
Proof. destruct v; simpl; try lia; intros _; [done|apply pos_bits_val]. Qed.

(** A value below [2^w] has at most [w] binary digits. *)
Lemma length_bin_digits v w :
  (0 <= v < 2 ^ Z.of_nat w)%Z -> w <> 0 -> length (bin_digits v) <= w.
Proof.
  destruct v as [|p|p]; simpl; [lia| |lia]. intros [_ Hp] Hw.
  destruct (pos_bits_head p) as [r Hr].
  pose proof (pos_bits_val p) as Hv. rewrite Hr, bits_val_cons in Hv. rewrite Hr.
  pose proof (bits_val_range r). simpl in Hv |- *.
  assert (2 ^ Z.of_nat (length r) < 2 ^ Z.of_nat w)%Z by lia.
  apply Z.pow_lt_mono_r_iff in H0; lia.
Qed.

Lemma format_bin_val w v : (0 <= v)%Z -> bits_val (format_bin w v) = v.
Proof. intros Hv. unfold format_bin. by rewrite bits_val_replicate_false, bin_digits_val. Qed.

Lemma length_format_bin w v :
  (0 <= v < 2 ^ Z.of_nat w)%Z -> w <> 0 -> length (format_bin w v) = w.
Proof.
  intros Hv Hw. unfold format_bin. rewrite length_app, length_replicate.
  pose proof (length_bin_digits v w Hv Hw). lia.
Qed.

(** [f"{int(s, 2):0{len(s)}b}"] gives back [s]. *)
Lemma format_bin_bits_val s : s <> [] -> format_bin (length s) (bits_val s) = s.
Proof.
  intros Hs. pose proof (bits_val_range s) as Hr.
  apply bits_val_inj.
  - apply length_format_bin; [done|]. destruct s; simpl; [done|lia].
  - apply format_bin_val. lia.
Qed.

(** [f"{v:0{a + len(s)}b}"] of a value whose low [len(s)] bits spell
    [s] is the [a]-digit numeral of the high part followed by [s]. *)
Lemma format_bin_app a s hi :
  a <> 0 -> (0 <= hi < 2 ^ Z.of_nat a)%Z ->
  format_bin (a + length s) (hi * 2 ^ Z.of_nat (length s) + bits_val s) = format_bin a hi ++ s.
Proof.
  intros Ha Hhi. pose proof (bits_val_range s) as Hs.
  assert (0 < 2 ^ Z.of_nat (length s))%Z by lia.
  apply bits_val_inj.
  - rewrite length_app, (length_format_bin a) by done. apply length_format_bin; [|lia].
    rewrite Nat2Z.inj_add, Z.pow_add_r by lia. nia.
  - rewrite bits_val_app, !format_bin_val by nia. done.
Qed.

(** [int(f"{v:0{w}b}", 2)] gives back [v]. *)
Lemma int_base2_format_bin w v : (0 <= v)%Z -> int_base2 (format_bin w v) = Ok v.
Proof.
  intros Hv. unfold int_base2.
  destruct (format_bin w v) as [|b s] eqn:E.
  - exfalso. unfold format_bin in E. apply app_eq_nil in E as [_ E].
    destruct v as [|p|p]; simpl in E; try done. destruct p; simpl in E.
    all: try (apply app_eq_nil in E as [_ E]; discriminate). discriminate.
  - rewrite <- E. by rewrite format_bin_val.
Qed.

(** ** Lemmas on the low-bit write and read *)

Lemma low_mask_ones n : low_mask n = Z.ones (Z.of_nat n).
Proof. unfold low_mask. rewrite Z.shiftl_1_l, Z.ones_equiv. lia. Qed.

(** Reading back the low [len] bits after writing a [len]-bit value gives
    that value. *)
Lemma lsb_read_write cur v len :
  (0 <= v < 2 ^ Z.of_nat len)%Z -> lsb_read (lsb_write cur v len) len = v.
Proof.
  intros Hv. unfold lsb_read, lsb_write. rewrite !low_mask_ones.
  rewrite Z.land_lor_distr_l, <- Z.land_assoc.
  rewrite (Z.land_comm (Z.lnot _)), Z.land_lnot_diag, Z.land_0_r, Z.lor_0_l.
  rewrite Z.land_ones by lia. apply Z.mod_small. done.
Qed.

(** The write leaves the bits above the low [len] alone. *)
Lemma lsb_write_high cur v len :
  (0 <= v < 2 ^ Z.of_nat len)%Z ->
  Z.shiftr (lsb_write cur v len) (Z.of_nat len) = Z.shiftr cur (Z.of_nat len).
Proof.
  intros Hv. unfold lsb_write. rewrite low_mask_ones.
  rewrite Z.shiftr_lor, Z.shiftr_land.
  rewrite (Z.shiftr_div_pow2 v) by lia. rewrite Z.div_small by done.
  rewrite Z.lor_0_r. apply Z.bits_inj'. intros i Hi.
  rewrite Z.land_spec, !Z.shiftr_spec, Z.lnot_spec by lia.
  rewrite Z.ones_spec_high by lia. by rewrite andb_true_r.
Qed.

(** A value whose bits from [n] up are clear is below [2^n]. *)
Lemma lt_pow2_of_testbit a n :
  (0 <= n)%Z -> (0 <= a)%Z ->
  (forall i, (n <= i)%Z -> Z.testbit a i = false) -> (a < 2 ^ n)%Z.
Proof.
  intros Hn Ha Hbits.
  assert (a = Z.land a (Z.ones n)) as ->.
  { apply Z.bits_inj'. intros i Hi. rewrite Z.land_spec.
    destruct (Z.lt_ge_cases i n).
    - rewrite Z.ones_spec_low by lia. by rewrite andb_true_r.
    - rewrite Hbits by lia. done. }
  rewrite Z.land_ones by lia. apply Z.mod_pos_bound. lia.
Qed.

Lemma testbit_high a n i : (0 <= a < 2 ^ n)%Z -> (0 <= n <= i)%Z -> Z.testbit a i = false.
Proof.
  intros Ha Hi. rewrite <- (Z.mod_small a (2 ^ n)) by lia.
  apply Z.mod_pow2_bits_high. lia.
Qed.

(** A write of at most 8 bits keeps an 8-bit channel value in [0, 255]. *)
Lemma lsb_write_range cur v len :
  (0 <= cur < 256)%Z -> (0 <= v < 2 ^ Z.of_nat len)%Z -> len <= 8 ->
  (0 <= lsb_write cur v len < 256)%Z.
Proof.
  intros Hc Hv Hl.
  assert (Hv8 : (0 <= v < 2 ^ 8)%Z).
  { split; [lia|]. eapply Z.lt_le_trans; [apply Hv|]. apply Z.pow_le_mono_r; lia. }
  unfold lsb_write.
  assert (0 <= Z.lor (Z.land cur (Z.lnot (low_mask len))) v)%Z.
  { apply Z.lor_nonneg. split; [|lia]. apply Z.land_nonneg. lia. }
  split; [done|]. change 256%Z with (2 ^ 8)%Z.
  apply lt_pow2_of_testbit; [lia|done|]. intros i Hi.
  rewrite Z.lor_spec, Z.land_spec.
  rewrite (testbit_high cur 8), (testbit_high v 8) by lia. done.
Qed.

#[export] Hint Resolve lsb_write_range : stego.

(** ** Distortion *)

(** A write of [len <= k] bits leaves the bits from [k] up alone. *)
Lemma lsb_write_high_ge cur v len k :
  (0 <= v < 2 ^ Z.of_nat len)%Z -> len <= k ->
  Z.shiftr (lsb_write cur v len) (Z.of_nat k) = Z.shiftr cur (Z.of_nat k).
Proof.
  intros Hv Hk. replace (Z.of_nat k) with (Z.of_nat len + Z.of_nat (k - len))%Z by lia.
  rewrite <- !Z.shiftr_shiftr by lia. by rewrite lsb_write_high.
Qed.

(** A write into a non-negative value gives a non-negative value. *)
Lemma lsb_write_nonneg cur v len :
  (0 <= cur)%Z -> (0 <= v)%Z -> (0 <= lsb_write cur v len)%Z.
Proof.
  intros Hc Hv. unfold lsb_write. apply Z.lor_nonneg. split; [|done].
  apply Z.land_nonneg. by left.
Qed.

(** Two non-negative values that agree from bit [k] up differ by less
    than [2^k]. *)
Lemma shiftr_eq_close a b k :
  (0 <= a)%Z -> (0 <= b)%Z -> (0 <= k)%Z ->
  Z.shiftr a k = Z.shiftr b k -> (Z.abs (a - b) < 2 ^ k)%Z.
Proof.
  intros Ha Hb Hk. rewrite !Z.shiftr_div_pow2 by done. intros Hq.
  pose proof (Z.pow_pos_nonneg 2 k ltac:(lia) Hk).
  pose proof (Z.div_mod a (2 ^ k) ltac:(lia)). pose proof (Z.div_mod b (2 ^ k) ltac:(lia)).
  pose proof (Z.mod_pos_bound a (2 ^ k) ltac:(lia)). pose proof (Z.mod_pos_bound b (2 ^ k) ltac:(lia)).
  rewrite Hq in *. lia.
Qed.

(** The low [n <= 8] bits survive a [uint8] store, which keeps the
    value modulo [2^8]. *)
Lemma lsb_read_mod256 v n : n <= 8 -> lsb_read (v mod 256) n = lsb_read v n.
Proof.
  intros Hn. unfold lsb_read. rewrite low_mask_ones, !Z.land_ones by lia.
  apply Z.mod_mod_divide. exists (2 ^ (8 - Z.of_nat n))%Z.
  rewrite <- Z.pow_add_r by lia. by replace (8 - Z.of_nat n + Z.of_nat n)%Z with 8%Z by lia.
Qed.

(** The read keeps [num_bits] bits. *)
Lemma lsb_read_range v n : (0 <= lsb_read v n < 2 ^ Z.of_nat n)%Z.
Proof. unfold lsb_read. rewrite low_mask_ones, Z.land_ones by lia. apply Z.mod_pos_bound. lia. Qed.

(** A window of [n >= len] bits read over a [len]-bit write: the bits
    [len .. n-1] of the old value, then the written value. *)
Lemma lsb_read_write_wide cur v len n :
  (0 <= v < 2 ^ Z.of_nat len)%Z -> len <= n ->
  lsb_read (lsb_write cur v len) n =
  (lsb_read (Z.shiftr cur (Z.of_nat len)) (n - len) * 2 ^ Z.of_nat len + v)%Z.
Proof.
  intros Hv Hn. rewrite <- Z.shiftl_mul_pow2 by lia.
  assert (forall i, (0 <= i)%Z -> Z.testbit (Z.shiftl (lsb_read (Z.shiftr cur (Z.of_nat len)) (n - len)) (Z.of_nat len)) i = ((Z.of_nat len <=? i)%Z && (i <? Z.of_nat n)%Z && Z.testbit cur i)%bool) as Hs.
  { intros i Hi. unfold lsb_read. rewrite low_mask_ones.
    destruct (Z.lt_ge_cases i (Z.of_nat len)).
    - rewrite Z.shiftl_spec_low, (proj2 (Z.leb_gt _ _)) by lia. done.
    - rewrite Z.shiftl_spec_high, Z.land_spec, Z.shiftr_spec by lia.
      replace (i - Z.of_nat len + Z.of_nat len)%Z with i by lia.
      rewrite (proj2 (Z.leb_le _ _)) by lia. simpl.
      destruct (Z.ltb_spec i (Z.of_nat n)).
      + rewrite Z.ones_spec_low by lia. apply andb_true_r.
      + rewrite Z.ones_spec_high by lia. apply andb_false_r. }
  rewrite Z.add_nocarry_lxor, Z.lxor_lor.
  2, 3: apply Z.bits_inj'; intros i Hi; rewrite Z.land_spec, Hs, Z.bits_0 by lia;
        destruct (Z.leb_spec (Z.of_nat len) i); [rewrite (testbit_high v (Z.of_nat len)) by lia|]; 
        simpl; rewrite ?andb_false_r; done.
  apply Z.bits_inj'. intros i Hi. unfold lsb_read, lsb_write. rewrite !low_mask_ones.
  rewrite Z.land_spec, !Z.lor_spec, Z.land_spec, Z.lnot_spec, Hs by lia.
  destruct (Z.lt_ge_cases i (Z.of_nat len)).
  - rewrite (Z.ones_spec_low (Z.of_nat len)), (Z.ones_spec_low (Z.of_nat n)) by lia.
    rewrite (proj2 (Z.leb_gt _ _)) by lia. simpl. rewrite andb_false_r. simpl. apply andb_true_r.
  - rewrite (Z.ones_spec_high (Z.of_nat len)), (testbit_high v (Z.of_nat len)) by lia.
    rewrite (proj2 (Z.leb_le _ _)) by lia. simpl. rewrite !orb_false_r, andb_true_r.
    destruct (Z.ltb_spec i (Z.of_nat n)).
    + rewrite Z.ones_spec_low by lia. simpl. apply andb_true_r.
    + rewrite Z.ones_spec_high by lia. simpl. apply andb_false_r.
Qed.

(** A value below [2^8] has no bits from [k >= 8] up. *)
Lemma shiftr_byte_high v k : (0 <= v < 256)%Z -> (8 <= k)%Z -> Z.shiftr v k = 0%Z.
Proof.
  intros Hv Hk. rewrite Z.shiftr_div_pow2 by lia. apply Z.div_small. split; [lia|].
  eapply Z.lt_le_trans; [apply Hv|]. change 256%Z with (2 ^ 8)%Z. apply Z.pow_le_mono_r; lia.
Qed.
