(* ===== verification/Grid.v ===== *)
(** * The carrier pixel array

    [pixels = np.array(img)] of an RGB image is a [uint8] array of shape
    [(height, width, 3)], indexed [pixels[y, x, channel]].  It is modelled
    as a list of rows of pixels of channel values, [grid], read by [px]
    and updated in place by [px_set] (stdpp's [alter] and list [insert]);
    a store into the [uint8] array keeps the value modulo 256 ([u8]),
    as NumPy 1.x casts an out-of-range integer.  [wf_grid] is the
    array's type invariant: a rectangular shape and every channel in
    [0, 255]; every store keeps it.  The engines only access in-bounds
    positions (proved in [Walker] and [Classifier]), so the default of
    an out-of-range read is never observed and the no-op of an
    out-of-range update never happens, where numpy would raise. *)

From Stdlib Require Import ZArith Lia.
From stdpp Require Import base list.
From S2P Require Import Prelude.

Open Scope stego_scope.

(** ** The array *)

Abbreviation pixel := (list Z).
Abbreviation grid := (list (list (list Z))).

(** [pixels[y, x, channel]]. *)
Definition px (pixels : grid) (y x channel : nat) : Z :=
  default 0%Z (pixels !! y ≫= fun row => row !! x ≫= fun p => p !! channel).

(** Wrap-around of [uint8] arithmetic and stores: [v mod 2^8]. *)
Definition u8 (z : Z) : Z := (z mod 256)%Z.

(** [pixels[y, x, channel] = v] into the [uint8] array: the value is
    stored modulo 256, as NumPy 1.x casts an out-of-range integer
    scalar; a write out of range changes nothing. *)
Definition px_set (pixels : grid) (y x channel : nat) (v : Z) : grid :=
  alter (alter (fun p => <[channel := u8 v]> p) x) y pixels.

(** [img.size], i.e. [(pixels.shape[1], pixels.shape[0])]. *)
Definition img_size (pixels : grid) : nat * nat :=
  (match pixels with [] => 0 | row :: _ => length row end, length pixels).

(** The shape invariant: [height] rows of [width] pixels of 3 channels. *)
Definition shape (width height : nat) (pixels : grid) : Prop :=
  length pixels = height /\
  Forall (fun row => length row = width /\ Forall (fun p => length p = 3) row) pixels.

(** The type invariant of a [uint8] RGB array. *)
Definition wf_grid (width height : nat) (pixels : grid) : Prop :=
  shape width height pixels /\
  Forall (Forall (Forall (fun v => 0 <= v < 256)%Z)) pixels.

#[export] Instance shape_dec width height pixels : Decision (shape width height pixels).
Proof. unfold shape. apply _. Defined.

#[export] Instance wf_grid_dec width height pixels : Decision (wf_grid width height pixels).
Proof. unfold wf_grid. apply _. Defined.

Lemma u8_range z : (0 <= u8 z < 256)%Z.
Proof. unfold u8. apply Z.mod_pos_bound. lia. Qed.

(** A byte is stored as it is. *)
Lemma u8_byte z : (0 <= z < 256)%Z -> u8 z = z.
Proof. unfold u8. apply Z.mod_small. Qed.

#[export] Hint Resolve u8_range : stego.

(** ** Reads *)

(** An in-bounds position has a row, a pixel and a channel. *)
Lemma shape_lookup width height pixels y x c :
  shape width height pixels -> y < height -> x < width -> c < 3 ->
  exists row p v, pixels !! y = Some row /\ row !! x = Some p /\ p !! c = Some v /\
    length row = width /\ length p = 3.
Proof.
  intros [Hh Hrows] Hy Hx Hc.
  destruct (lookup_lt_is_Some_2 pixels y) as [row Hrow]; [lia|].
  pose proof (Forall_lookup_1 _ _ _ _ Hrows Hrow) as [Hw Hps].
  destruct (lookup_lt_is_Some_2 row x) as [p Hp]; [lia|].
  pose proof (Forall_lookup_1 _ _ _ _ Hps Hp) as H3; simpl in H3.
  destruct (lookup_lt_is_Some_2 p c) as [v Hv]; [lia|].
  by exists row, p, v.
Qed.

Lemma px_lookup pixels y x c row p v :
  pixels !! y = Some row -> row !! x = Some p -> p !! c = Some v -> px pixels y x c = v.
Proof. intros Hr Hp Hv. unfold px. by rewrite Hr; simpl; rewrite Hp; simpl; rewrite Hv. Qed.

(** Every channel of a well-formed array is a byte, out-of-range reads
    included (they return the default [0]). *)
Lemma px_range width height pixels y x c :
  wf_grid width height pixels -> (0 <= px pixels y x c < 256)%Z.
Proof.
  intros [_ Hv]. unfold px.
  destruct (pixels !! y) as [row|] eqn:Hr; simpl; [|lia].
  destruct (row !! x) as [p|] eqn:Hp; simpl; [|lia].
  destruct (p !! c) as [v|] eqn:Hc; simpl; [|lia].
  pose proof (Forall_lookup_1 _ _ _ _ Hv Hr) as Hrow.
  pose proof (Forall_lookup_1 _ _ _ _ Hrow Hp) as Hpx.
  exact (Forall_lookup_1 _ _ _ _ Hpx Hc).
Qed.

(** ** Writes *)

Lemma px_set_eq width height pixels y x c v :
  shape width height pixels -> y < height -> x < width -> c < 3 ->
  px (px_set pixels y x c v) y x c = u8 v.
Proof.
  intros Hs Hy Hx Hc.
  destruct (shape_lookup _ _ _ _ _ _ Hs Hy Hx Hc) as (row & p & w & Hr & Hp & _ & _ & H3).
  unfold px, px_set. rewrite list_lookup_alter_eq, Hr. simpl.
  rewrite list_lookup_alter_eq, Hp. simpl.
  rewrite list_lookup_insert_eq by lia. done.
Qed.

Lemma px_set_ne pixels y x c v y' x' c' :
  (y', x', c') <> (y, x, c) ->
  px (px_set pixels y x c v) y' x' c' = px pixels y' x' c'.
Proof.
  intros Hne. unfold px, px_set.
  destruct (decide (y = y')) as [<-|Hy]; [|by rewrite list_lookup_alter_ne].
  rewrite list_lookup_alter_eq. destruct (pixels !! y) as [row|]; simpl; [|done].
  destruct (decide (x = x')) as [<-|Hx]; [|by rewrite list_lookup_alter_ne].
  rewrite list_lookup_alter_eq. destruct (row !! x) as [p|]; simpl; [|done].
  rewrite list_lookup_insert_ne; [done|]. congruence.
Qed.

(** Reading back a write: the written value where it landed, the old
    value everywhere else (a write out of range changes nothing). *)
Lemma px_set_cases pixels y x c v y' x' c' :
  px (px_set pixels y x c v) y' x' c' = px pixels y' x' c' \/
  ((y', x', c') = (y, x, c) /\ px (px_set pixels y x c v) y' x' c' = u8 v).
Proof.
  destruct (decide ((y', x', c') = (y, x, c))) as [[= -> -> ->]|Hne];
    [|left; by apply px_set_ne].
  unfold px, px_set. rewrite list_lookup_alter_eq.
  destruct (pixels !! y) as [row|]; simpl; [|by left].
  rewrite list_lookup_alter_eq. destruct (row !! x) as [p|]; simpl; [|by left].
  destruct (decide (c < length p)).
  - right. split; [done|]. by rewrite list_lookup_insert_eq.
  - left. by rewrite list_insert_ge by lia.
Qed.

Lemma px_set_shape width height pixels y x c v :
  shape width height pixels -> shape width height (px_set pixels y x c v).
Proof.
  intros [Hh Hrows]. unfold px_set. split; [by rewrite length_alter|].
  apply Forall_alter; [done|]. intros row Hrow [Hw Hps]. split.
  - by rewrite length_alter.
  - apply Forall_alter; [done|]. intros p Hp H3. by rewrite length_insert.
Qed.

(** A store keeps a well-formed array well-formed: it wraps. *)
Lemma px_set_wf width height pixels y x c v :
  wf_grid width height pixels -> wf_grid width height (px_set pixels y x c v).
Proof.
  intros [Hs Hv]. split; [by apply px_set_shape|].
  unfold px_set. apply Forall_alter; [done|]. intros row _ Hrow.
  apply Forall_alter; [done|]. intros p _ Hp.
  apply Forall_insert; [done|apply u8_range].
Qed.

(** Two arrays of the same shape related channel by channel are related
    row by row, pixel by pixel. *)
Lemma shape_Forall2 width height g1 g2 (R : Z -> Z -> Prop) :
  shape width height g1 -> shape width height g2 ->
  (forall y x c, y < height -> x < width -> c < 3 -> R (px g1 y x c) (px g2 y x c)) ->
  Forall2 (Forall2 (Forall2 R)) g1 g2.
Proof.
  intros [Hl1 Hr1] [Hl2 Hr2] HR.
  apply Forall2_same_length_lookup_2; [congruence|]. intros y r1 r2 Hy1 Hy2.
  pose proof (lookup_lt_Some _ _ _ Hy1) as Hy.
  destruct (Forall_lookup_1 _ _ _ _ Hr1 Hy1) as [Hw1 Hp1].
  destruct (Forall_lookup_1 _ _ _ _ Hr2 Hy2) as [Hw2 Hp2].
  apply Forall2_same_length_lookup_2; [congruence|]. intros x p1 p2 Hx1 Hx2.
  pose proof (lookup_lt_Some _ _ _ Hx1) as Hx.
  pose proof (Forall_lookup_1 _ _ _ _ Hp1 Hx1) as H31.
  pose proof (Forall_lookup_1 _ _ _ _ Hp2 Hx2) as H32.
  apply Forall2_same_length_lookup_2; [congruence|]. intros c a b Hc1 Hc2.
  pose proof (lookup_lt_Some _ _ _ Hc1) as Hc.
  rewrite <- (px_lookup g1 y x c r1 p1 a), <- (px_lookup g2 y x c r2 p2 b) by done.
  cbv beta in *. apply HR; lia.
Qed.

Lemma img_size_shape width height pixels :
  shape width height pixels -> height <> 0 -> img_size pixels = (width, height).
Proof.
  intros [Hh Hrows] Hne. destruct pixels as [|row rows]; simpl in *; [lia|].
  inversion Hrows as [|? ? [Hw _]]. by subst.
Qed.

#[export] Hint Resolve px_set_shape px_set_wf px_range : stego.

Lemma shape_img_size width height g1 g2 :
  shape width height g1 -> shape width height g2 -> img_size g1 = img_size g2.
Proof.
  intros Hs1 Hs2. destruct (decide (height = 0)) as [->|Hne].
  - destruct Hs1 as [H1 _], Hs2 as [H2 _].
    destruct g1; [|done]. by destruct g2.
  - by rewrite (img_size_shape _ _ _ Hs1 Hne), (img_size_shape _ _ _ Hs2 Hne).
Qed.
