(* ===== verification/Classifier.v ===== *)
(** * The capacity classifier: [EdgeDetectStego.is_edge_block]

    The configuration of an [EdgeDetectStego] object is the record
    [stego]; [default_stego] is the constructor's defaults.  The
    classifier [is_edge_block] is a transcription of the numpy code:
    the gradients [gx], [gy] are differences of two [uint8] arrays, so
    they wrap modulo 256 ([u8]); [gx**2 + gy**2] is again computed in
    [uint8] and wraps; [np.sqrt] of a byte is compared with the
    integer threshold ([sqrt_gt], justified against the real square root
    by [sqrt_gt_spec]).  The text and image sources state the boundary
    guard differently ([is_edge_block] and [is_edge_block_img]); they
    agree ([is_edge_block_img_eq]).

    Main facts: the wrap-around caps every gradient sample at 255, so a
    threshold of 16 or more never classifies a block as an edge
    ([is_edge_block_never_edge]); the verdict depends only on the
    in-bounds red-channel values of the block and its one-pixel
    lookahead ([is_edge_block_footprint]). *)

From Stdlib Require Import ZArith Lia Reals Lra.
From stdpp Require Import base list.
From S2P Require Import Prelude Grid.

Open Scope stego_scope.

(** ** Configuration *)

(** The attributes set by [EdgeDetectStego.__init__]. *)
Record stego : Type := mkStego {
  threshold : Z;
  edge_bits : nat;
  non_edge_bits : nat;
  block_width : nat;
  block_height : nat
}.

(** [EdgeDetectStego()] with its default arguments. *)
Definition default_stego : stego := mkStego 128 4 1 3 3.

(** The module constants of image_steganography.py, and its
    [EdgeDetectStego()], whose defaults are these constants. *)
Definition DEFAULT_THRESHOLD : Z := 128.
Definition NUM_BITS_EDGE : nat := 4.
Definition NUM_BITS_NON_EDGE : nat := 1.
Definition BLOCK_WIDTH : nat := 3.
Definition BLOCK_HEIGHT : nat := 3.

Definition default_stego_img : stego :=
  mkStego DEFAULT_THRESHOLD NUM_BITS_EDGE NUM_BITS_NON_EDGE BLOCK_WIDTH BLOCK_HEIGHT.

(** ** The classifier *)


(** One sample of [gx**2 + gy**2] at offset [(dy, dx)] of the block at
    [(x, y)], on the red channel, in [uint8] arithmetic. *)
Definition grad_sq (pixels : grid) (x y dx dy : nat) : Z :=
  let p := px pixels (y + dy) (x + dx) 0 in
  let gx := u8 (px pixels (y + dy) (x + dx + 1) 0 - p) in
  let gy := u8 (px pixels (y + dy + 1) (x + dx) 0 - p) in
  u8 (u8 (gx * gx) + u8 (gy * gy)).

(** [np.sqrt(s) > threshold] for a sample [s >= 0] and an integer
    threshold. *)
Definition sqrt_gt (s threshold : Z) : bool :=
  (threshold <? 0)%Z || (threshold * threshold <? s)%Z.

(** [np.any(gradient_magnitude > self.threshold)] over the block. *)
Definition any_gradient_above (self : stego) (pixels : grid) (x y : nat) : bool :=
  existsb (fun dy =>
    existsb (fun dx => sqrt_gt (grad_sq pixels x y dx dy) (threshold self))
      (range (block_width self)))
    (range (block_height self)).

(** [is_edge_block] of the text source: blocks whose footprint plus the
    one-pixel lookahead leaves the array are non-edge. *)
Definition is_edge_block (self : stego) (pixels : grid) (x y : nat) : bool :=
  let '(width, height) := img_size pixels in
  if (width <? x + block_width self + 1) || (height <? y + block_height self + 1)
  then false
  else any_gradient_above self pixels x y.

(** [is_edge_block] of the image source, whose guard reads
    [x + block_width >= pixels.shape[1]]. *)
Definition is_edge_block_img (self : stego) (pixels : grid) (x y : nat) : bool :=
  let '(width, height) := img_size pixels in
  if (width <=? x + block_width self) || (height <=? y + block_height self)
  then false
  else any_gradient_above self pixels x y.

(** ** Lemmas *)


Lemma grad_sq_range pixels x y dx dy : (0 <= grad_sq pixels x y dx dy < 256)%Z.
Proof. unfold grad_sq. apply u8_range. Qed.

#[export] Hint Resolve grad_sq_range : stego.

(** [sqrt_gt] is the comparison of the real square root with the
    threshold.  (numpy computes the root of a byte in [float16]; the
    rounding is monotone and the roots of bytes are at least 1/32 away
    from every integer they exceed, so it does not change the verdict.) *)
Theorem sqrt_gt_spec s t :
  (0 <= s)%Z -> sqrt_gt s t = true <-> (IZR t < sqrt (IZR s))%R.
Proof.
  intros Hs. unfold sqrt_gt. rewrite orb_true_iff, Z.ltb_lt, Z.ltb_lt.
  pose proof (sqrt_pos (IZR s)) as Hpos.
  destruct (Z.ltb_spec t 0) as [Ht|Ht].
  - split; [intros _|left; lia]. apply IZR_lt in Ht. lra.
  - split.
    + intros [|Hlt]; [lia|]. rewrite <- (sqrt_square (IZR t)) by (apply IZR_le; lia).
      apply sqrt_lt_1_alt. split; [apply Rmult_le_pos; apply IZR_le; lia|].
      rewrite <- mult_IZR. by apply IZR_lt.
    + intros Hlt. right. apply lt_IZR. rewrite mult_IZR.
      apply sqrt_lt_0_alt. rewrite sqrt_square by (apply IZR_le; lia). done.
Qed.

(** C36. The two copies of the classifier agree: the image source's guard
    [x + block_width >= shape[1]] is the text source's
    [x + block_width + 1 > shape[1]]. *)
Theorem is_edge_block_img_eq self pixels x y :
  is_edge_block_img self pixels x y = is_edge_block self pixels x y.
Proof.
  unfold is_edge_block, is_edge_block_img. destruct (img_size pixels) as [w h].
  assert (forall a b, (a <=? b) = (a <? b + 1)) as Hle.
  { intros a b. destruct (Nat.leb_spec a b), (Nat.ltb_spec a (b + 1)); done || lia. }
  by rewrite !Hle.
Qed.

Lemma sqrt_gt_byte_small s t :
  (0 <= s < 256)%Z -> (16 <= t)%Z -> sqrt_gt s t = false.
Proof. intros Hs Ht. unfold sqrt_gt. apply orb_false_intro; apply Z.ltb_ge; nia. Qed.

(** A block is an edge only if the array holds its footprint and
    lookahead. *)
Lemma is_edge_block_fits self pixels x y :
  is_edge_block self pixels x y = true ->
  x + block_width self < fst (img_size pixels) /\
  y + block_height self < snd (img_size pixels).
Proof.
  unfold is_edge_block. destruct (img_size pixels) as [w h]. simpl.
  destruct (_ || _) eqn:E; [discriminate|]. bool_prop. lia.
Qed.

(** [uint8] overflow: every gradient sample is a byte, whose square root
    is below 16, so with a threshold of 16 or more (the default is 128)
    no block is ever classified as an edge. *)
Lemma no_edge_above_15 self pixels x y :
  (16 <= threshold self)%Z -> is_edge_block self pixels x y = false.
Proof.
  intros Ht. unfold is_edge_block. destruct (img_size pixels) as [w h].
  destruct (_ || _); [done|]. unfold any_gradient_above.
  apply existsb_false. intros dy _. apply existsb_false. intros dx _.
  apply sqrt_gt_byte_small; [apply grad_sq_range|done].
Qed.

(** The verdict depends only on the red channel of the in-bounds pixels
    of the block and of its one-pixel lookahead to the right and below:
    no out-of-range value is ever consulted. *)
Lemma edge_verdict_footprint self g1 g2 x y :
  img_size g1 = img_size g2 ->
  (forall y' x', y <= y' <= y + block_height self -> x <= x' <= x + block_width self ->
     y' < snd (img_size g1) -> x' < fst (img_size g1) ->
     px g1 y' x' 0 = px g2 y' x' 0) ->
  is_edge_block self g1 x y = is_edge_block self g2 x y.
Proof.
  intros Hsize Hagree. unfold is_edge_block. rewrite <- Hsize.
  destruct (img_size g1) as [w h] eqn:Hwh. simpl in Hagree.
  destruct (_ || _) eqn:E; [done|]. bool_prop.
  unfold any_gradient_above. apply existsb_ext_in. intros dy Hdy.
  apply existsb_ext_in. intros dx Hdx. apply elem_of_range in Hdy, Hdx.
  unfold grad_sq. rewrite !(Hagree (y + _)) by lia. by rewrite (Hagree (y + dy + 1)) by lia.
Qed.

(** ** Properties *)

(** C10. [uint8] overflow in the edge detector: the gradient samples wrap
    modulo 256, so with a threshold of 16 or more (the default is 128) no
    block of any carrier is ever classified as an edge, and every block
    is embedded at [non_edge_bits]. *)
Theorem is_edge_block_never_edge self pixels x y :
  (16 <= threshold self)%Z -> is_edge_block self pixels x y = false.
Proof. apply no_edge_above_15. Qed.

(** C39. Boundary safety of the classifier: its verdict is determined by
    the red channel of the in-bounds pixels of the block and of its
    one-pixel lookahead; two arrays of the same size that agree there get
    the same verdict, so no out-of-range value is ever consulted. *)
Theorem is_edge_block_footprint self g1 g2 x y :
  img_size g1 = img_size g2 ->
  (forall y' x', y <= y' <= y + block_height self -> x <= x' <= x + block_width self ->
     y' < snd (img_size g1) -> x' < fst (img_size g1) ->
     px g1 y' x' 0 = px g2 y' x' 0) ->
  is_edge_block self g1 x y = is_edge_block self g2 x y.
Proof. apply edge_verdict_footprint. Qed.
