(* ===== verification/Walker.v ===== *)
(** * The block walker

    Both engines walk the carrier in the same order: blocks row by row
    ([for y in range(0, height, block_height)] then
    [for x in range(0, width, block_width)]), inside a block the
    in-bounds pixels row by row ([for dy], [for dx] and the bounds
    test), inside a pixel the channels R, G, B.  This file gives that
    order as a flat list of [visit]s, each a channel position with the
    bit depth of its block; the engines of [Embed] and [Extract] are
    proved to follow it.  The tiling facts proved here are that every
    visit is in bounds ([visit_in_bounds]) and that no channel is
    visited twice ([visits_NoDup]). *)

From Stdlib Require Import ZArith Lia.
From stdpp Require Import base list sets.
From S2P Require Import Prelude Grid Classifier.

Open Scope stego_scope.

(** A visited channel and the number of bits its block carries. *)
Record visit : Type := mkVisit {
  v_x : nat;
  v_y : nat;
  v_channel : nat;
  v_bits : nat
}.

Definition visit_pos (v : visit) : nat * nat * nat := (v_x v, v_y v, v_channel v).

(** [num_bits = self.edge_bits if self.is_edge_block(pixels, x, y) else self.non_edge_bits]. *)
Definition num_bits_of (self : stego) (pixels : grid) (x y : nat) : nat :=
  if is_edge_block self pixels x y then edge_bits self else non_edge_bits self.

(** The in-bounds pixels of the block at [(x, y)], in the order of the
    [dy]/[dx] loops. *)
Definition block_pixels (self : stego) (width height x y : nat) : list (nat * nat) :=
  range (block_height self) ≫= fun dy =>
  range (block_width self) ≫= fun dx =>
  if (x + dx <? width) && (y + dy <? height) then [(x + dx, y + dy)] else [].

(** The block origins, in the order of the [y]/[x] loops. *)
Definition block_origins (self : stego) (width height : nat) : list (nat * nat) :=
  range_by height (block_height self) ≫= fun y =>
  (fun x => (x, y)) <$> range_by width (block_width self).

(** The channels of a block, each carrying [num_bits] bits. *)
Definition block_visits (self : stego) (width height x y num_bits : nat) : list visit :=
  block_pixels self width height x y ≫= fun '(px, py) =>
  (fun c => mkVisit px py c num_bits) <$> range 3.

(** The whole walk, with the depth of each block given by [depth]. *)
Definition visits (self : stego) (width height : nat) (depth : nat -> nat -> nat)
    : list visit :=
  block_origins self width height ≫= fun '(x, y) =>
  block_visits self width height x y (depth x y).

(** ** Membership *)

Lemma elem_of_block_pixels self width height x y px py :
  (px, py) ∈ block_pixels self width height x y <->
  x <= px < x + block_width self /\ y <= py < y + block_height self /\
  px < width /\ py < height.
Proof.
  unfold block_pixels. rewrite list_elem_of_bind. split.
  - intros (dy & Hin & Hdy). apply list_elem_of_bind in Hin as (dx & Hin & Hdx).
    apply elem_of_range in Hdy, Hdx.
    destruct (_ && _) eqn:E; [|set_solver]. bool_prop.
    apply list_elem_of_singleton in Hin. injection Hin as -> ->. lia.
  - intros (Hx & Hy & Hw & Hh). exists (py - y). split; [|apply elem_of_range; lia].
    apply list_elem_of_bind. exists (px - x). split; [|apply elem_of_range; lia].
    replace (x + (px - x)) with px by lia. replace (y + (py - y)) with py by lia.
    destruct (Nat.ltb_spec px width), (Nat.ltb_spec py height); try lia. set_solver.
Qed.

Lemma elem_of_block_origins self width height x y :
  block_width self <> 0 -> block_height self <> 0 ->
  (x, y) ∈ block_origins self width height <->
  (exists kx, x = kx * block_width self /\ x < width) /\
  (exists ky, y = ky * block_height self /\ y < height).
Proof.
  intros Hw Hh. unfold block_origins. rewrite list_elem_of_bind. split.
  - intros (y' & Hin & Hy). apply list_elem_of_fmap in Hin as (x' & [= -> ->] & Hx).
    rewrite elem_of_range_by in Hx, Hy by done. done.
  - intros [Hx Hy]. exists y. rewrite elem_of_range_by by done. split; [|done].
    apply list_elem_of_fmap. exists x. rewrite elem_of_range_by by done. done.
Qed.

Lemma elem_of_block_visits self width height x y n v :
  v ∈ block_visits self width height x y n <->
  (v_x v, v_y v) ∈ block_pixels self width height x y /\ v_channel v < 3 /\ v_bits v = n.
Proof.
  unfold block_visits. rewrite list_elem_of_bind. split.
  - intros ([px py] & Hin & Hp). apply list_elem_of_fmap in Hin as (c & -> & Hc).
    apply elem_of_range in Hc. done.
  - destruct v as [px py c n']. cbn [v_x v_y v_channel v_bits]. intros (Hp & Hc & ->). exists (px, py).
    split; [|done]. apply list_elem_of_fmap. exists c. split; [done|]. by apply elem_of_range.
Qed.

Lemma elem_of_visits self width height depth v :
  v ∈ visits self width height depth <->
  exists x y, (x, y) ∈ block_origins self width height /\
    v ∈ block_visits self width height x y (depth x y).
Proof.
  unfold visits. rewrite list_elem_of_bind. split.
  - intros ([x y] & Hin & Ho). by exists x, y.
  - intros (x & y & Ho & Hin). by exists (x, y).
Qed.

(** ** Tiling *)

(** Every visited channel is inside the array. *)
Lemma visit_in_bounds self width height depth v :
  v ∈ visits self width height depth ->
  v_x v < width /\ v_y v < height /\ v_channel v < 3.
Proof.
  rewrite elem_of_visits. intros (x & y & _ & Hv).
  apply elem_of_block_visits in Hv as (Hp & Hc & _).
  apply elem_of_block_pixels in Hp. lia.
Qed.

(** Every visit carries the depth of its block. *)
Lemma visits_bits self width height depth v :
  v ∈ visits self width height depth -> exists x y, v_bits v = depth x y.
Proof.
  rewrite elem_of_visits. intros (x & y & _ & Hv).
  apply elem_of_block_visits in Hv as (_ & _ & ->). eauto.
Qed.

(** Two multiples of [b] whose [b]-wide windows share a point are equal. *)
Lemma same_tile k1 k2 b p :
  k1 * b <= p < k1 * b + b -> k2 * b <= p < k2 * b + b -> k1 * b = k2 * b.
Proof.
  intros H1 H2. destruct (lt_eq_lt_dec k1 k2) as [[Hlt|Heq]|Hlt].
  - exfalso. assert (S k1 * b <= k2 * b) by (apply Nat.mul_le_mono_r; lia). lia.
  - by subst.
  - exfalso. assert (S k2 * b <= k1 * b) by (apply Nat.mul_le_mono_r; lia). lia.
Qed.

Lemma NoDup_block_pixels self width height x y :
  NoDup (block_pixels self width height x y).
Proof.
  unfold block_pixels. apply NoDup_bind; [|intros dy _|apply NoDup_range].
  - intros dy1 dy2 p _ _ H1 H2.
    apply list_elem_of_bind in H1 as (dx1 & H1 & _), H2 as (dx2 & H2 & _).
    destruct (_ && _) in H1; [|set_solver]. destruct (_ && _) in H2; [|set_solver].
    apply list_elem_of_singleton in H1, H2. subst p. injection H2. lia.
  - apply NoDup_bind; [|intros dx _|apply NoDup_range].
    + intros dx1 dx2 p _ _ H1 H2.
      destruct (_ && _) in H1; [|set_solver]. destruct (_ && _) in H2; [|set_solver].
      apply list_elem_of_singleton in H1, H2. subst p. injection H2. lia.
    + destruct (_ && _); [apply NoDup_singleton|apply NoDup_nil_2].
Qed.

(** Each in-bounds pixel belongs to one block only. *)
Lemma origin_unique self width height x1 y1 x2 y2 px py :
  block_width self <> 0 -> block_height self <> 0 ->
  (x1, y1) ∈ block_origins self width height ->
  (x2, y2) ∈ block_origins self width height ->
  (px, py) ∈ block_pixels self width height x1 y1 ->
  (px, py) ∈ block_pixels self width height x2 y2 ->
  (x1, y1) = (x2, y2).
Proof.
  intros Hw Hh Ho1 Ho2 Hp1 Hp2.
  apply elem_of_block_pixels in Hp1, Hp2.
  apply elem_of_block_origins in Ho1 as [(kx1 & -> & _) (ky1 & -> & _)]; [|done..].
  apply elem_of_block_origins in Ho2 as [(kx2 & -> & _) (ky2 & -> & _)]; [|done..].
  f_equal; [apply (same_tile _ _ _ px)|apply (same_tile _ _ _ py)]; lia.
Qed.

Lemma NoDup_block_visits self width height x y n :
  NoDup (block_visits self width height x y n).
Proof.
  unfold block_visits. apply NoDup_bind; [|intros [px py] _|apply NoDup_block_pixels].
  - intros [px1 py1] [px2 py2] v _ _ H1 H2.
    apply list_elem_of_fmap in H1 as (c1 & -> & _), H2 as (c2 & H2 & _).
    by injection H2 as -> -> _.
  - apply NoDup_fmap_2_strong; [|apply NoDup_range]. by intros c1 c2 _ _ [= ->].
Qed.

Lemma NoDup_visits self width height depth :
  block_width self <> 0 -> block_height self <> 0 ->
  NoDup (visits self width height depth).
Proof.
  intros Hw Hh. unfold visits. apply NoDup_bind.
  - intros [x1 y1] [x2 y2] v Ho1 Ho2 Hv1 Hv2.
    apply elem_of_block_visits in Hv1 as (Hp1 & _), Hv2 as (Hp2 & _).
    by eapply origin_unique.
  - intros [x y] _. apply NoDup_block_visits.
  - unfold block_origins. apply NoDup_bind; [|intros y _|by apply NoDup_range_by].
    + intros y1 y2 o _ _ H1 H2.
      apply list_elem_of_fmap in H1 as (x1 & -> & _), H2 as (x2 & H2 & _). congruence.
    + apply NoDup_fmap_2_strong; [|by apply NoDup_range_by]. by intros x1 x2 _ _ [= ->].
Qed.

(** No channel of the carrier is visited twice: the blocks tile the
    array. *)
Lemma visit_positions_NoDup self width height depth :
  block_width self <> 0 -> block_height self <> 0 ->
  NoDup (visit_pos <$> visits self width height depth).
Proof.
  intros Hw Hh. apply NoDup_fmap_2_strong; [|by apply NoDup_visits].
  intros v1 v2 Hv1 Hv2 Hpos.
  apply elem_of_visits in Hv1 as (x1 & y1 & Ho1 & Hv1), Hv2 as (x2 & y2 & Ho2 & Hv2).
  destruct v1 as [px py c n1], v2 as [px' py' c' n2].
  unfold visit_pos in Hpos. simpl in Hpos. injection Hpos as <- <- <-.
  apply elem_of_block_visits in Hv1 as (Hp1 & _ & Hn1), Hv2 as (Hp2 & _ & Hn2).
  simpl in *. pose proof (origin_unique _ _ _ _ _ _ _ _ _ Hw Hh Ho1 Ho2 Hp1 Hp2) as [= -> ->].
  congruence.
Qed.

(** The channels of a block lie in the block. *)
Lemma block_visits_pos self width height x y n x' y' c :
  (x', y', c) ∈ visit_pos <$> block_visits self width height x y n ->
  x <= x' < x + block_width self /\ y <= y' < y + block_height self.
Proof.
  intros Hin. apply list_elem_of_fmap in Hin as (v & Hv & Hin).
  apply elem_of_block_visits in Hin as (Hp & _). unfold visit_pos in Hv.
  injection Hv as -> -> ->. apply elem_of_block_pixels in Hp. lia.
Qed.

(** The walk, as the two loops over block rows and block columns write it. *)
Lemma visits_nested self width height depth :
  visits self width height depth =
  range_by height (block_height self) ≫= fun y =>
  range_by width (block_width self) ≫= fun x =>
  block_visits self width height x y (depth x y).
Proof.
  unfold visits, block_origins. rewrite list_bind_assoc.
  apply list_bind_ext. intros y _. by rewrite list_fmap_bind_l.
Qed.

(** The number of payload bits a list of visits can carry. *)
Definition capacity (vs : list visit) : nat := sum_list_with v_bits vs.

Lemma capacity_cons v vs : capacity (v :: vs) = v_bits v + capacity vs.
Proof. reflexivity. Qed.

Lemma visits_ext self width height d1 d2 :
  (forall x y, d1 x y = d2 x y) -> visits self width height d1 = visits self width height d2.
Proof. intros Hd. unfold visits. apply list_bind_ext. intros [x y] _. by rewrite Hd. Qed.

(** ** Coverage *)

(** The pixels of the blocks, in walk order. *)
Definition walk_pixels (self : stego) (width height : nat) : list (nat * nat) :=
  block_origins self width height ≫= fun '(x, y) => block_pixels self width height x y.

(** Every pixel of the array, row by row. *)
Definition all_pixels (width height : nat) : list (nat * nat) :=
  range height ≫= fun y => (fun x => (x, y)) <$> range width.

Lemma elem_of_all_pixels width height x y :
  (x, y) ∈ all_pixels width height <-> x < width /\ y < height.
Proof.
  unfold all_pixels. rewrite list_elem_of_bind. split.
  - intros (y' & Hin & Hy). apply list_elem_of_fmap in Hin as (x' & [= -> ->] & Hx).
    apply elem_of_range in Hx, Hy. done.
  - intros [Hx Hy]. exists y. rewrite elem_of_range. split; [|done].
    apply list_elem_of_fmap. exists x. by rewrite elem_of_range.
Qed.

Lemma NoDup_all_pixels width height : NoDup (all_pixels width height).
Proof.
  unfold all_pixels. apply NoDup_bind; [|intros y _|apply NoDup_range].
  - intros y1 y2 p _ _ H1 H2.
    apply list_elem_of_fmap in H1 as (x1 & -> & _), H2 as (x2 & H2 & _). congruence.
  - apply NoDup_fmap_2_strong; [|apply NoDup_range]. by intros x1 x2 _ _ [= ->].
Qed.

Lemma length_all_pixels width height : length (all_pixels width height) = height * width.
Proof.
  unfold all_pixels. rewrite (length_bind_const _ _ width).
  - unfold range. rewrite length_seq. lia.
  - intros y _. rewrite length_fmap. unfold range. by rewrite length_seq.
Qed.

Lemma NoDup_block_origins self width height :
  block_width self <> 0 -> block_height self <> 0 ->
  NoDup (block_origins self width height).
Proof.
  intros Hw Hh. unfold block_origins. apply NoDup_bind; [|intros y _|by apply NoDup_range_by].
  - intros y1 y2 o _ _ H1 H2.
    apply list_elem_of_fmap in H1 as (x1 & -> & _), H2 as (x2 & H2 & _). congruence.
  - apply NoDup_fmap_2_strong; [|by apply NoDup_range_by]. by intros x1 x2 _ _ [= ->].
Qed.

(** The blocks cover the array: the walk's pixels are all the pixels,
    each once. *)
Lemma walk_pixels_perm self width height :
  block_width self <> 0 -> block_height self <> 0 ->
  walk_pixels self width height ≡ₚ all_pixels width height.
Proof.
  intros Hw Hh. apply NoDup_Permutation; [|apply NoDup_all_pixels|].
  - unfold walk_pixels. apply NoDup_bind.
    + intros [x1 y1] [x2 y2] [px py] Ho1 Ho2 Hp1 Hp2. by eapply origin_unique.
    + intros [x y] _. apply NoDup_block_pixels.
    + by apply NoDup_block_origins.
  - intros [px py]. rewrite elem_of_all_pixels. unfold walk_pixels.
    rewrite list_elem_of_bind. split.
    + intros ([x y] & Hp & _). apply elem_of_block_pixels in Hp. lia.
    + intros [Hx Hy]. exists (px / block_width self * block_width self, py / block_height self * block_height self).
      pose proof (Nat.div_mod px (block_width self) Hw).
      pose proof (Nat.mod_upper_bound px (block_width self) Hw).
      pose proof (Nat.div_mod py (block_height self) Hh).
      pose proof (Nat.mod_upper_bound py (block_height self) Hh).
      rewrite elem_of_block_pixels, elem_of_block_origins by done.
      split; [lia|]. split; [exists (px / block_width self)|exists (py / block_height self)]; lia.
Qed.

Lemma length_block_visits self width height x y n :
  length (block_visits self width height x y n) = 3 * length (block_pixels self width height x y).
Proof.
  unfold block_visits. apply length_bind_const. intros [px py] _.
  rewrite length_fmap. unfold range. by rewrite length_seq.
Qed.

(** The walk visits exactly the [3 * width * height] channels of the
    array, whatever the depths. *)
Lemma walk_length self width height depth :
  block_width self <> 0 -> block_height self <> 0 ->
  length (visits self width height depth) = 3 * width * height.
Proof.
  intros Hw Hh. transitivity (3 * length (walk_pixels self width height)).
  - unfold visits, walk_pixels. induction (block_origins self width height) as [|[x y] os IH]; [done|].
    csimpl. rewrite !length_app, IH, length_block_visits. lia.
  - rewrite (Permutation_length (walk_pixels_perm self width height Hw Hh)), length_all_pixels. lia.
Qed.

(** ** Properties *)

(** C26. Every channel the walk visits lies inside the array. *)
Theorem visits_in_bounds self width height depth v :
  v ∈ visits self width height depth ->
  v_x v < width /\ v_y v < height /\ v_channel v < 3.
Proof. apply visit_in_bounds. Qed.

(** C25. The blocks tile the array: with non-zero block sizes the walk
    never visits the same channel twice, so no payload bit overwrites an
    earlier one. *)
Theorem visits_NoDup self width height depth :
  block_width self <> 0 -> block_height self <> 0 ->
  NoDup (visit_pos <$> visits self width height depth).
Proof. apply visit_positions_NoDup. Qed.

(** C32. Capacity accounting: the walk visits exactly the
    [3 * width * height] channels of the array, whatever the depths, so
    the capacity lies between [3 * non_edge_bits * width * height] and
    [3 * edge_bits * width * height]. *)
Theorem length_visits self width height depth :
  block_width self <> 0 -> block_height self <> 0 ->
  length (visits self width height depth) = 3 * width * height.
Proof. apply walk_length. Qed.
