(* ===== verification/Codec.v ===== *)
(** * The payload codec

    Text: [''.join(f'{ord(c):08b}' for c in message)] ([message_to_bits],
    a message being its list of code points) and
    [''.join(chr(int(message_bits[i:i+8], 2)) for i in range(0, total_bits, 8))]
    ([decode_message]).  Images: [hidden_pixels.flatten()] ([flatten]),
    its bits ([hidden_to_bits]), the list comprehension that reads the
    bytes back ([decode_bytes]) and the [reshape((h, w, 3))] that rebuilds
    the array ([reshape_rgb]).

    Proved here: decoding the encoding of a message whose code points
    are bytes gives the message back, whatever bits follow it
    ([decode_message_roundtrip]); a code point of 256 or more is encoded
    on more than 8 bits ([message_to_bits_wide]), which misaligns every
    later character. *)

From Stdlib Require Import ZArith Lia.
From stdpp Require Import base list.
From S2P Require Import Prelude Bits Grid.

Open Scope stego_scope.

(** ** Definitions *)

(** [''.join(f'{ord(c):08b}' for c in message)]. *)
Definition message_to_bits (message : list Z) : list bool :=
  message ≫= format_bin 8.

(** [[int(bits[i:i+8], 2) for i in range(0, total_bits, 8)]]. *)
Definition decode_bytes (bits : list bool) (total_bits : nat) : result (list Z) :=
  let* starts := range_step total_bits 8 in
  mapM (fun i => int_base2 (slice i (i + 8) bits)) starts.

(** [''.join(chr(...) for ...)]: [chr] of a byte is that code point. *)
Definition decode_message (message_bits : list bool) (total_bits : nat) : result (list Z) :=
  decode_bytes message_bits total_bits.

(** [hidden_pixels.flatten()]: row-major, channels interleaved. *)
Definition flatten (hidden_pixels : grid) : list Z := concat (concat hidden_pixels).

(** [''.join(f'{pixel:08b}' for pixel in hidden_pixels.flatten())]. *)
Definition hidden_to_bits (hidden_pixels : grid) : list bool :=
  flatten hidden_pixels ≫= format_bin 8.

(** [np.array(values, dtype=np.uint8).reshape((hidden_height, hidden_width, 3))];
    the engine always passes exactly [hidden_height * hidden_width * 3]
    values, so the reshape never raises. *)
Definition reshape_rgb (hidden_height hidden_width : nat) (values : list Z) : grid :=
  map (fun r =>
    map (fun c => slice ((r * hidden_width + c) * 3) ((r * hidden_width + c) * 3 + 3) values)
      (range hidden_width))
    (range hidden_height).

(** ** Chunking *)

(** The successive 8-bit slices of a bit string. *)
Fixpoint chunks8 (k : nat) (bits : list bool) : list (list bool) :=
  match k with
  | 0 => []
  | S k' => take 8 bits :: chunks8 k' (drop 8 bits)
  end.

Lemma decode_chunks_from bits k start :
  mapM (fun i => int_base2 (slice i (i + 8) bits)) (map (fun j => j * 8) (seq start k)) =
  mapM int_base2 (chunks8 k (drop (start * 8) bits)).
Proof.
  revert start. induction k as [|k IH]; intros start; [done|].
  cbn [seq map chunks8 mapM]. unfold slice at 1.
  replace (start * 8 + 8 - start * 8) with 8 by lia.
  destruct (int_base2 (take 8 (drop (start * 8) bits))); simpl; [|done].
  rewrite IH, drop_drop. by replace (start * 8 + 8) with (S start * 8) by lia.
Qed.

Lemma decode_bytes_chunks bits k :
  decode_bytes bits (k * 8) = mapM int_base2 (chunks8 k bits).
Proof.
  unfold decode_bytes. rewrite range_step_ok, range_by_mul by done. simpl.
  by rewrite decode_chunks_from.
Qed.

(** Asking for an 8-bit slice that starts past the end of the bits
    raises: [int('', 2)]. *)
Lemma chunks8_short bits k :
  length bits + 8 <= k * 8 -> mapM int_base2 (chunks8 k bits) = Raise ValueError.
Proof.
  revert bits. induction k as [|k IH]; intros bits Hl; [lia|]. cbn [chunks8 mapM].
  destruct bits as [|b bits']; [done|]. simpl. rewrite IH; [done|].
  rewrite length_drop. simpl in Hl |- *. lia.
Qed.

Lemma decode_bytes_short bits k :
  length bits + 8 <= k * 8 -> decode_bytes bits (k * 8) = Raise ValueError.
Proof. intros Hl. rewrite decode_bytes_chunks. by apply chunks8_short. Qed.

(** The 8-bit chunks of a byte string's encoding are the bytes' encodings. *)
Lemma chunks8_bytes (bytes : list Z) rest :
  Forall (fun c => 0 <= c < 256)%Z bytes ->
  chunks8 (length bytes) ((bytes ≫= format_bin 8) ++ rest) = map (format_bin 8) bytes.
Proof.
  induction 1 as [|c bytes Hc Hbytes IH]; [done|]. csimpl.
  assert (length (format_bin 8 c) = 8) as Hl by (apply length_format_bin; [simpl; lia|done]).
  rewrite <- app_assoc, take_app_length', drop_app_length' by done. by rewrite IH.
Qed.

(** ** Round trips *)

(** Decoding the first [8 * len(bytes)] bits of the encoding of a byte
    string, whatever follows, gives the bytes back. *)
Lemma decode_bytes_roundtrip (bytes : list Z) rest :
  Forall (fun c => 0 <= c < 256)%Z bytes ->
  decode_bytes ((bytes ≫= format_bin 8) ++ rest) (length bytes * 8) = Ok bytes.
Proof.
  intros Hb. rewrite decode_bytes_chunks, chunks8_bytes by done.
  induction Hb as [|c bytes Hc Hbytes IH]; [done|]. simpl.
  rewrite int_base2_format_bin by lia. simpl. by rewrite IH.
Qed.

(** C31. The text codec round trip: [extract_message]'s final join decodes
    [embed_message]'s bit string back to the message when every
    character is a byte (Latin-1). *)
Theorem decode_message_roundtrip (message : list Z) rest :
  Forall (fun c => 0 <= c < 256)%Z message ->
  decode_message (message_to_bits message ++ rest) (length message * 8) = Ok message.
Proof. apply decode_bytes_roundtrip. Qed.

(** C28. [f'{ord(c):08b}'] of a code point of 256 or more has more than 8
    digits: the encoding is no longer one byte per character. *)
Theorem message_to_bits_wide (c : Z) :
  (256 <= c)%Z -> 8 < length (message_to_bits [c]).
Proof.
  intros Hc. unfold message_to_bits. simpl. rewrite app_nil_r.
  destruct (Nat.le_gt_cases (length (format_bin 8 c)) 8) as [Hle|]; [|done]. exfalso.
  pose proof (bits_val_range (format_bin 8 c)) as Hr.
  rewrite format_bin_val in Hr by lia.
  assert (2 ^ Z.of_nat (length (format_bin 8 c)) <= 2 ^ 8)%Z by (apply Z.pow_le_mono_r; lia).
  lia.
Qed.

Lemma length_message_to_bits (message : list Z) :
  Forall (fun c => 0 <= c < 256)%Z message -> length (message_to_bits message) = length message * 8.
Proof.
  unfold message_to_bits. induction 1 as [|c m Hc _ IH]; [done|]. csimpl.
  rewrite length_app, IH, length_format_bin by (simpl; lia || done). lia.
Qed.

(** ** [flatten] and [reshape] *)

Lemma shape_rows width height hidden_pixels :
  shape width height hidden_pixels -> Forall (fun row => length row = width) hidden_pixels.
Proof. intros [_ Hrows]. eapply Forall_impl; [exact Hrows|]. by intros row [? _]. Qed.

Lemma shape_pixels width height hidden_pixels :
  shape width height hidden_pixels -> Forall (fun p => length p = 3) (concat hidden_pixels).
Proof.
  intros [_ Hrows]. apply Forall_concat_2. eapply Forall_impl; [exact Hrows|]. by intros row [_ ?].
Qed.

Lemma length_flatten width height hidden_pixels :
  shape width height hidden_pixels -> length (flatten hidden_pixels) = width * height * 3.
Proof.
  intros Hs. unfold flatten. rewrite (length_concat_uniform _ 3) by (by eapply shape_pixels).
  rewrite (length_concat_uniform _ width) by (by eapply shape_rows). destruct Hs as [-> _]. lia.
Qed.

Lemma flatten_bytes width height hidden_pixels :
  wf_grid width height hidden_pixels -> Forall (fun v => 0 <= v < 256)%Z (flatten hidden_pixels).
Proof. intros [_ Hv]. unfold flatten. by do 2 apply Forall_concat_2. Qed.

(** [reshape((h, w, 3))] undoes [flatten()] on an array of that shape. *)
Lemma reshape_flatten width height hidden_pixels :
  shape width height hidden_pixels ->
  reshape_rgb height width (flatten hidden_pixels) = hidden_pixels.
Proof.
  intros Hs. pose proof (shape_rows _ _ _ Hs) as Hrows. pose proof (shape_pixels _ _ _ Hs) as Hpx.
  unfold reshape_rgb, flatten. destruct Hs as [Hh _].
  transitivity (map (fun r => nth r hidden_pixels []) (range height));
    [|rewrite <- Hh; apply map_nth_range].
  apply map_ext_in. intros r Hr.
  apply list_elem_of_In, elem_of_range in Hr. rewrite <- Hh in Hr.
  assert (length (nth r hidden_pixels []) = width) as Hw
    by (apply (Forall_nth (fun row => length row = width)); [done|lia]).
  transitivity (map (fun c => nth c (nth r hidden_pixels []) []) (range width));
    [|rewrite <- Hw; apply map_nth_range].
  apply map_ext_in. intros c Hc. apply list_elem_of_In, elem_of_range in Hc.
  rewrite slice_concat_uniform; [|done|].
  - by apply nth_concat_uniform.
  - rewrite (length_concat_uniform _ width) by done. nia.
Qed.


(** ** Properties *)

(** [np.array(values).reshape((h, w, 3))] undoes
    [hidden_pixels.flatten()] on an RGB array of [h] rows of [w]
    pixels. *)
Theorem reshape_rgb_flatten width height hidden_pixels :
  shape width height hidden_pixels ->
  reshape_rgb height width (flatten hidden_pixels) = hidden_pixels.
Proof. apply reshape_flatten. Qed.
