(* ===== verification/Embed.v ===== *)
(** * The text embedding engine: [embed_message]

    [EdgeDetectStego.embed_message] and [embed_bits] of
    text_steganography.py, transcribed loop by loop: the state of the
    loops is the pixel array, mutated in place, and the cursor
    [bit_index] ([embed_state]); a [for] loop is a [foldM]; [embed_bits]
    may raise [ValueError] through [int(bits, 2)].  The engine checks
    [bit_index < len(message_bits)] before every channel and skips a
    zero depth.  (The image source's copy is in [ImageEngine].)

    [embed_visit] is one step of the abstract engine of the spec (4.4):
    write the next [v_bits] payload bits into one visited channel.  The
    refinement theorem [embed_message_visits] shows that the whole text
    engine is the abstract engine run over the walk of [Walker], with
    every block classified on the ORIGINAL carrier: embedding never
    writes a pixel the classifier of a later block reads
    ([untouched], [num_bits_untouched]).  Also here: the functional
    specification of [embed_bits] (its chunk lands in the [uint8]
    channel intact when it has at most 8 bits), any property a short
    write keeps ([embed_message_preserves]): the [uint8] invariant, the
    shape and the distortion bound ([embed_message_distortion]);
    totality and the
    [range] error of a zero block height. *)

From Stdlib Require Import ZArith Lia.
From stdpp Require Import base list sets.
From S2P Require Import Prelude Bits Grid Classifier Walker Codec.

Open Scope stego_scope.

(** ** The engines *)

(** The pixel array and the cursor into the payload bits. *)
Record embed_state : Type := mkEmbed {
  e_pixels : grid;
  e_bit_index : nat
}.

(** [EdgeDetectStego.embed_bits]. *)
Definition embed_bits (pixels : grid) (x y : nat) (bits : list bool) (channel : nat)
    : result grid :=
  let current_value := px pixels y x channel in
  let* bits_value := int_base2 bits in
  Ok (px_set pixels y x channel (lsb_write current_value bits_value (length bits))).

(** Text engine, one channel: [if bit_index < len(message_bits): ...]. *)
Definition embed_channel (message_bits : list bool) (num_bits x y : nat)
    (st : embed_state) (channel : nat) : result embed_state :=
  let bit_index := e_bit_index st in
  if bit_index <? length message_bits then
    let* pixels := embed_bits (e_pixels st) x y
                     (slice bit_index (bit_index + num_bits) message_bits) channel in
    Ok (mkEmbed pixels (bit_index + num_bits))
  else Ok st.

(** Text engine, one [dx] of a block row: the bounds test, then
    [if bit_index < len(message_bits) and num_bits > 0]. *)
Definition embed_pixel (width height : nat) (message_bits : list bool)
    (x y num_bits dy : nat) (st : embed_state) (dx : nat) : result embed_state :=
  if (x + dx <? width) && (y + dy <? height) then
    if (e_bit_index st <? length message_bits) && (0 <? num_bits) then
      foldM (embed_channel message_bits num_bits (x + dx) (y + dy)) (range 3) st
    else Ok st
  else Ok st.

(** Text engine, one block: classify, then the [dy]/[dx] loops. *)
Definition embed_block (self : stego) (width height : nat) (message_bits : list bool)
    (y : nat) (st : embed_state) (x : nat) : result embed_state :=
  let num_bits := num_bits_of self (e_pixels st) x y in
  foldM (fun st dy =>
      foldM (embed_pixel width height message_bits x y num_bits dy)
        (range (block_width self)) st)
    (range (block_height self)) st.

(** [EdgeDetectStego.embed_message] of the text source, from the pixel
    array on (image loading and saving are not modelled). *)
Definition embed_message (self : stego) (pixels : grid) (message : list Z) : result grid :=
  let message_bits := message_to_bits message in
  let '(width, height) := img_size pixels in
  let* ys := range_step height (block_height self) in
  let* st := foldM (fun st y =>
      let* xs := range_step width (block_width self) in
      foldM (embed_block self width height message_bits y) xs st)
    ys (mkEmbed pixels 0) in
  Ok (e_pixels st).

(** The abstract engine's step: one visited channel receives the next
    [v_bits] payload bits, if any are left. *)
Definition embed_visit (message_bits : list bool) (st : embed_state) (v : visit)
    : result embed_state :=
  let bit_index := e_bit_index st in
  if (bit_index <? length message_bits) && (0 <? v_bits v) then
    let* pixels := embed_bits (e_pixels st) (v_x v) (v_y v)
                     (slice bit_index (bit_index + v_bits v) message_bits) (v_channel v) in
    Ok (mkEmbed pixels (bit_index + v_bits v))
  else Ok st.

(** The distortion relation: every channel of [pixels] is non-negative
    and agrees with [pixels0] from bit [k] up, so it differs from it by
    less than [2^k] ([shiftr_eq_close]). *)
Definition high_bits_kept (k : nat) (pixels0 pixels : grid) : Prop :=
  forall y x c, (0 <= px pixels y x c < 256)%Z /\
    Z.shiftr (px pixels y x c) (Z.of_nat k) = Z.shiftr (px pixels0 y x c) (Z.of_nat k).

(** ** One block refines the abstract engine *)

Lemma embed_pixel_visits width height bits x y n dy st dx :
  embed_pixel width height bits x y n dy st dx =
  foldM (embed_visit bits)
    (if (x + dx <? width) && (y + dy <? height)
     then (fun c => mkVisit (x + dx) (y + dy) c n) <$> range 3 else []) st.
Proof.
  unfold embed_pixel. destruct (_ && _); [|done].
  rewrite foldM_fmap. destruct (_ && (0 <? n)) eqn:E.
  - apply foldM_ext. intros st' c _. unfold embed_channel, embed_visit. simpl.
    bool_prop. destruct (Nat.ltb_spec 0 n); [|lia]. by rewrite andb_true_r.
  - symmetry. apply foldM_skip. intros c _. unfold embed_visit. simpl. by rewrite E.
Qed.

(** The text engine's block is the abstract engine over the block's
    visits, at the depth the classifier gives on the current array. *)
Lemma embed_block_visits self width height bits y st x :
  embed_block self width height bits y st x =
  foldM (embed_visit bits)
    (block_visits self width height x y (num_bits_of self (e_pixels st) x y)) st.
Proof.
  unfold embed_block, block_visits, block_pixels.
  rewrite list_bind_assoc, foldM_bind. apply foldM_ext. intros st1 dy _.
  rewrite list_bind_assoc, foldM_bind. apply foldM_ext. intros st2 dx _.
  rewrite embed_pixel_visits. destruct (_ && _); [|done].
  by rewrite bind_singleton.
Qed.

(** ** Frame: the abstract engine writes only the channels it visits *)

Lemma embed_bits_frame pixels x y bits c pixels' :
  embed_bits pixels x y bits c = Ok pixels' ->
  pixels' = px_set pixels y x c (lsb_write (px pixels y x c) (bits_val bits) (length bits)) /\
  bits <> [].
Proof.
  unfold embed_bits, int_base2. destruct bits as [|b bits]; [discriminate|].
  simpl. intros [= <-]. done.
Qed.

Lemma embed_visits_frame width height bits vs st st' :
  shape width height (e_pixels st) ->
  foldM (embed_visit bits) vs st = Ok st' ->
  shape width height (e_pixels st') /\
  forall y x c, (x, y, c) ∉ visit_pos <$> vs ->
    px (e_pixels st') y x c = px (e_pixels st) y x c.
Proof.
  revert st. induction vs as [|v vs IH]; intros st Hs Hrun; simpl in Hrun.
  - injection Hrun as <-. done.
  - apply rbind_ok_inv in Hrun as (st1 & H1 & H2).
    assert (shape width height (e_pixels st1) /\
      forall y x c, (x, y, c) <> visit_pos v -> px (e_pixels st1) y x c = px (e_pixels st) y x c)
      as [Hs1 Hf1].
    { unfold embed_visit in H1. destruct (_ && _); [|by injection H1 as <-].
      apply rbind_ok_inv in H1 as (p & Hp & [= <-]). apply embed_bits_frame in Hp as [-> _].
      simpl. split; [by apply px_set_shape|]. intros y x c Hne. apply px_set_ne.
      unfold visit_pos in Hne. congruence. }
    destruct (IH st1 Hs1 H2) as [Hs' Hf']. split; [done|].
    intros y x c Hnin. rewrite Hf', Hf1; [done| |]; set_solver.
Qed.

(** ** Locality: embedding never changes what a later classification reads *)

Section Locality.
Context (self : stego) (width height : nat) (carrier : grid) (bits : list bool).
Hypothesis Hbw : block_width self <> 0.
Hypothesis Hbh : block_height self <> 0.
Hypothesis Hcarrier : shape width height carrier.

(** The pixels the walk has not reached when it is at block
    [(kx * block_width, ky * block_height)]: the rest of the current
    block row from that block on, and every later block row. *)
Definition pending (kx ky x' y' : nat) : Prop :=
  ky * block_height self <= y' /\
  (kx * block_width self <= x' \/ S ky * block_height self <= y').

(** The array still holds the carrier's values at every pending pixel. *)
Definition untouched (pixels : grid) (kx ky : nat) : Prop :=
  shape width height pixels /\
  forall x' y' c, pending kx ky x' y' -> px pixels y' x' c = px carrier y' x' c.

(** The classifier of the current block reads pending pixels only, so it
    answers as on the carrier. *)
Lemma num_bits_untouched pixels kx ky :
  untouched pixels kx ky ->
  num_bits_of self pixels (kx * block_width self) (ky * block_height self) =
  num_bits_of self carrier (kx * block_width self) (ky * block_height self).
Proof.
  intros [Hs Hun]. unfold num_bits_of.
  rewrite (edge_verdict_footprint self pixels carrier); [done|by eapply shape_img_size|].
  intros y' x' Hy Hx _ _. apply Hun. unfold pending. lia.
Qed.

(** After the abstract engine has run over a block, the pixels pending
    at the next block are still untouched. *)
Lemma untouched_step kx ky st st' :
  untouched (e_pixels st) kx ky ->
  foldM (embed_visit bits)
    (block_visits self width height (kx * block_width self) (ky * block_height self)
       (num_bits_of self carrier (kx * block_width self) (ky * block_height self))) st = Ok st' ->
  untouched (e_pixels st') (S kx) ky.
Proof.
  intros [Hs Hun] Hrun. destruct (embed_visits_frame _ _ _ _ _ _ Hs Hrun) as [Hs' Hf].
  split; [done|]. intros x' y' c Hp. rewrite Hf.
  - apply Hun. unfold pending in *. simpl in Hp. nia.
  - intros Hin. apply block_visits_pos in Hin. unfold pending in Hp. simpl in Hp. nia.
Qed.

Definition depth : nat -> nat -> nat := num_bits_of self carrier.

(** A row of blocks of the text engine is the abstract engine over the
    row's visits, classified on the carrier. *)
Lemma embed_row_refines ky m : forall kx st,
  untouched (e_pixels st) kx ky ->
  foldM (embed_block self width height bits (ky * block_height self))
    (map (fun k => k * block_width self) (seq kx m)) st =
  foldM (embed_visit bits)
    (map (fun k => k * block_width self) (seq kx m) ≫= fun x =>
       block_visits self width height x (ky * block_height self) (depth x (ky * block_height self))) st /\
  forall st', foldM (embed_visit bits)
    (map (fun k => k * block_width self) (seq kx m) ≫= fun x =>
       block_visits self width height x (ky * block_height self) (depth x (ky * block_height self))) st = Ok st' ->
    untouched (e_pixels st') (kx + m) ky.
Proof.
  induction m as [|m IH]; intros kx st Hun.
  - simpl. split; [done|]. intros st' [= <-]. by rewrite Nat.add_0_r.
  - cbn [seq map]. csimpl. rewrite foldM_app. simpl foldM.
    rewrite embed_block_visits, (num_bits_untouched _ _ _ Hun).
    unfold depth. destruct (foldM (embed_visit bits) _ st) as [st1|e] eqn:E1; simpl; [|done].
    pose proof (untouched_step _ _ _ _ Hun E1) as Hun1.
    destruct (IH (S kx) st1 Hun1) as [Heq Hinv]. split; [done|].
    intros st' Hst'. rewrite <- Nat.add_succ_comm. by apply Hinv.
Qed.

(** The rows of blocks, likewise. *)
Lemma embed_rows_refines n : forall ky st,
  untouched (e_pixels st) 0 ky ->
  foldM (fun st y =>
      foldM (embed_block self width height bits y) (range_by width (block_width self)) st)
    (map (fun k => k * block_height self) (seq ky n)) st =
  foldM (embed_visit bits)
    (map (fun k => k * block_height self) (seq ky n) ≫= fun y =>
     range_by width (block_width self) ≫= fun x =>
     block_visits self width height x y (depth x y)) st.
Proof.
  induction n as [|n IH]; intros ky st Hun; [done|].
  cbn [seq map]. csimpl. rewrite foldM_app. simpl foldM.
  unfold range_by at 1 3. set (m := (width + block_width self - 1) / block_width self).
  destruct (embed_row_refines ky m 0 st Hun) as [Heq Hinv]. rewrite Heq.
  destruct (foldM (embed_visit bits) _ st) as [st1|e] eqn:E1; simpl; [|done].
  apply IH. destruct (Hinv st1 eq_refl) as [Hs Hun1]. split; [done|].
  intros x' y' c Hp. apply Hun1. unfold pending in *. nia.
Qed.
End Locality.

(** Refinement: the text engine is the abstract engine run over the walk
    of the carrier, every block at the depth its classification on the
    carrier gives, and the carrier read back from the final state.  No
    hypothesis on the threshold or the payload is needed: the classifier
    of a block reads the block and its right and lower neighbours, which
    the walk has not written yet. *)
Lemma embed_message_refines self pixels message width height :
  block_width self <> 0 -> block_height self <> 0 ->
  shape width height pixels -> img_size pixels = (width, height) ->
  embed_message self pixels message =
  (let* st := foldM (embed_visit (message_to_bits message))
                (visits self width height (num_bits_of self pixels)) (mkEmbed pixels 0) in
   Ok (e_pixels st)).
Proof.
  intros Hw Hh Hs Hsize. unfold embed_message. rewrite Hsize, range_step_ok by done.
  autorewrite with stego_rw. set (bits := message_to_bits message).
  rewrite (foldM_ext _ (fun st y =>
    foldM (embed_block self width height bits y) (range_by width (block_width self)) st)).
  2:{ intros st y _. by rewrite range_step_ok. }
  pose proof (embed_rows_refines self width height pixels bits Hw Hh Hs
    ((height + block_height self - 1) / block_height self) 0 (mkEmbed pixels 0)) as E.
  change (map _ (seq 0 _)) with (range_by height (block_height self)) in E.
  rewrite E, visits_nested; [done|]. by split.
Qed.

(** [embed_bits] with at most 8 bits keeps a [uint8] array one. *)
Lemma embed_bits_keeps_wf pixels x y bits c pixels' width height :
  wf_grid width height pixels -> length bits <= 8 ->
  embed_bits pixels x y bits c = Ok pixels' -> wf_grid width height pixels'.
Proof.
  intros Hwf Hl Hb. apply embed_bits_frame in Hb as [-> _]. eauto with stego.
Qed.

(** ** The array stays a [uint8] RGB array; the text engine never raises *)

(** A step of the abstract embedding never raises. *)
Lemma embed_visit_ok bits st v :
  exists st', embed_visit bits st v = Ok st'.
Proof.
  unfold embed_visit. destruct (_ && _) eqn:E; [|eauto]. bool_prop.
  unfold embed_bits, int_base2.
  destruct (slice _ _ bits) eqn:Es; [|simpl; eauto].
  exfalso. apply (f_equal length) in Es. rewrite length_slice in Es. simpl in Es. lia.
Qed.

Lemma embed_visits_ok bits vs st : exists st', foldM (embed_visit bits) vs st = Ok st'.
Proof.
  revert st. induction vs as [|v vs IH]; intros st; simpl; [eauto|].
  destruct (embed_visit_ok bits st v) as [st1 ->]. apply IH.
Qed.

(** The text engine always returns on a carrier of the right shape with
    non-zero block sizes: [int('', 2)] is never reached, because a chunk
    is only cut while payload bits remain and the depth is positive. *)
Lemma embed_message_ok_visits self pixels message width height :
  block_width self <> 0 -> block_height self <> 0 ->
  shape width height pixels -> img_size pixels = (width, height) ->
  exists pixels', embed_message self pixels message = Ok pixels'.
Proof.
  intros Hw Hh Hs Hsize. rewrite (embed_message_refines _ _ _ width height) by done.
  destruct (embed_visits_ok (message_to_bits message)
    (visits self width height (num_bits_of self pixels)) (mkEmbed pixels 0)) as [st ->].
  by eexists.
Qed.

(** ** Distortion: a write of at most [k] bits keeps the bits from [k] up *)

Lemma high_bits_kept_refl k pixels :
  (forall y x c, (0 <= px pixels y x c < 256)%Z) -> high_bits_kept k pixels pixels.
Proof. intros H y x c. by split. Qed.

Lemma embed_bits_keeps_high k pixels0 pixels x y bits c pixels' :
  high_bits_kept k pixels0 pixels -> length bits <= k ->
  embed_bits pixels x y bits c = Ok pixels' -> high_bits_kept k pixels0 pixels'.
Proof.
  intros Hk Hl Hb. apply embed_bits_frame in Hb as [-> _]. intros y' x' c'.
  destruct (px_set_cases pixels y x c (lsb_write (px pixels y x c) (bits_val bits) (length bits)) y' x' c')
    as [->|[[= -> -> ->] ->]]; [apply Hk|].
  destruct (Hk y x c) as [H0 Hhigh]. pose proof (bits_val_range bits).
  split; [apply u8_range|]. destruct (decide (length bits <= 8)) as [H8|H8].
  - rewrite u8_byte by (by apply lsb_write_range). by rewrite lsb_write_high_ge.
  - rewrite <- Hhigh, !shiftr_byte_high by (apply u8_range || lia). done.
Qed.

(** ** Invariants of the array

    Any property of the array that a write of at most [K] bits keeps
    ([HQ]) holds of the array the text engine returns. *)

Section Preserve.
Variable K : nat.
Variable Q : grid -> Prop.
Hypothesis HQ : forall pixels x y bits c pixels',
  Q pixels -> length bits <= K -> embed_bits pixels x y bits c = Ok pixels' -> Q pixels'.

(** [foldM_invariant] for a loop over the embedding state. *)
Lemma foldM_keeps_Q {B} (f : embed_state -> B -> result embed_state) l st st' :
  (forall st1 b st2, b ∈ l -> Q (e_pixels st1) -> f st1 b = Ok st2 -> Q (e_pixels st2)) ->
  Q (e_pixels st) -> foldM f l st = Ok st' -> Q (e_pixels st').
Proof. apply (foldM_invariant (fun st => Q (e_pixels st))). Qed.

Lemma embed_visit_preserves bits st v st' :
  Q (e_pixels st) -> v_bits v <= K -> embed_visit bits st v = Ok st' -> Q (e_pixels st').
Proof.
  intros Hq Hn Hrun. unfold embed_visit in Hrun.
  destruct (_ && _); [|by injection Hrun as <-].
  apply rbind_ok_inv in Hrun as (p & Hp & [= <-]). simpl.
  eapply HQ; [exact Hq| |exact Hp]. rewrite length_slice. lia.
Qed.

Lemma embed_message_preserves self pixels message pixels' width height :
  block_width self <> 0 -> block_height self <> 0 ->
  edge_bits self <= K -> non_edge_bits self <= K ->
  shape width height pixels -> img_size pixels = (width, height) ->
  Q pixels -> embed_message self pixels message = Ok pixels' -> Q pixels'.
Proof.
  intros Hw Hh He Hn Hs Hsize Hq Hemb.
  rewrite (embed_message_refines _ _ _ width height) in Hemb by done.
  apply rbind_ok_inv in Hemb as (st' & Hrun & [= <-]).
  revert Hrun. change pixels with (e_pixels (mkEmbed pixels 0)) in Hq.
  apply foldM_keeps_Q; [|done]. intros st v st1 Hv Hst Hstep. eapply embed_visit_preserves; [exact Hst| |exact Hstep].
  destruct (visits_bits _ _ _ _ _ Hv) as (x & y & ->).
  unfold num_bits_of. by destruct (is_edge_block _ _ _ _).
Qed.

End Preserve.

Lemma embed_message_keeps_wf self pixels message pixels' width height :
  block_width self <> 0 -> block_height self <> 0 ->
  edge_bits self <= 8 -> non_edge_bits self <= 8 ->
  wf_grid width height pixels -> img_size pixels = (width, height) ->
  embed_message self pixels message = Ok pixels' ->
  wf_grid width height pixels'.
Proof.
  intros Hw Hh He Hn Hwf Hsize. apply (embed_message_preserves 8 (wf_grid width height)) with (width := width) (height := height);
    try done; try apply Hwf. intros. by eapply embed_bits_keeps_wf.
Qed.

(** The text engine keeps the carrier's shape. *)
Lemma embed_message_keeps_shape self pixels message pixels' width height :
  block_width self <> 0 -> block_height self <> 0 ->
  shape width height pixels -> img_size pixels = (width, height) ->
  embed_message self pixels message = Ok pixels' -> shape width height pixels'.
Proof.
  intros Hw Hh Hs Hsize.
  apply (embed_message_preserves (Nat.max (edge_bits self) (non_edge_bits self)) (shape width height))
    with (width := width) (height := height); try done; try lia.
  intros ??????? _ Hb. apply embed_bits_frame in Hb as [-> _]. eauto with stego.
Qed.

(** The text engine changes every channel by less than [2^k], [k] the
    larger of the two depths. *)
Lemma embed_message_keeps_high self pixels message pixels' width height :
  block_width self <> 0 -> block_height self <> 0 ->
  shape width height pixels -> img_size pixels = (width, height) ->
  (forall y x c, (0 <= px pixels y x c < 256)%Z) ->
  embed_message self pixels message = Ok pixels' ->
  high_bits_kept (Nat.max (edge_bits self) (non_edge_bits self)) pixels pixels'.
Proof.
  intros Hw Hh Hs Hsize H0.
  apply (embed_message_preserves (Nat.max (edge_bits self) (non_edge_bits self)) (high_bits_kept _ pixels))
    with (width := width) (height := height); try done; try lia; try by apply high_bits_kept_refl.
  intros. by eapply embed_bits_keeps_high.
Qed.

(** ** Properties *)

(** C6. Refinement: the text engine [embed_message] is the abstract engine
    of the spec run over the walk of the carrier, every block at the
    depth its classification on the ORIGINAL carrier gives: embedding in
    place never changes a pixel a later block's classifier reads. *)
Theorem embed_message_visits self pixels message width height :
  block_width self <> 0 -> block_height self <> 0 ->
  shape width height pixels -> img_size pixels = (width, height) ->
  embed_message self pixels message =
  (let* st := foldM (embed_visit (message_to_bits message))
                (visits self width height (num_bits_of self pixels)) (mkEmbed pixels 0) in
   Ok (e_pixels st)).
Proof. apply embed_message_refines. Qed.

(** C27. [embed_bits] on a well-formed array with a chunk of at most 8
    bits: the array stays a [uint8] array, the low [len(bits)] bits of
    the target channel become [int(bits, 2)], its high bits are kept, and
    every other channel of the array is unchanged. *)
Theorem embed_bits_spec pixels x y bits c pixels' width height :
  wf_grid width height pixels -> x < width -> y < height -> c < 3 -> length bits <= 8 ->
  embed_bits pixels x y bits c = Ok pixels' ->
  wf_grid width height pixels' /\
  lsb_read (px pixels' y x c) (length bits) = bits_val bits /\
  Z.shiftr (px pixels' y x c) (Z.of_nat (length bits)) =
    Z.shiftr (px pixels y x c) (Z.of_nat (length bits)) /\
  (forall y' x' c', (y', x', c') <> (y, x, c) -> px pixels' y' x' c' = px pixels y' x' c').
Proof.
  intros Hwf Hx Hy Hc Hl Hb. split; [by eapply embed_bits_keeps_wf|].
  apply embed_bits_frame in Hb as [-> _].
  rewrite (px_set_eq width height), u8_byte by (done || apply Hwf ||
    (apply lsb_write_range; [by eapply px_range|apply bits_val_range|done])).
  split; [|split]; [apply lsb_read_write, bits_val_range|apply lsb_write_high, bits_val_range|].
  intros. by apply px_set_ne.
Qed.


(** C15. The text engine always returns on a carrier of the right shape
    with non-zero block sizes: [int('', 2)] is never reached, because a
    chunk is only cut while payload bits remain and the depth is
    positive. *)
Theorem embed_message_ok self pixels message width height :
  block_width self <> 0 -> block_height self <> 0 ->
  shape width height pixels -> img_size pixels = (width, height) ->
  exists pixels', embed_message self pixels message = Ok pixels'.
Proof. apply embed_message_ok_visits. Qed.

(** C35. A zero block height makes [range(0, height, 0)] raise. *)
Theorem embed_message_zero_block_height self pixels message :
  block_height self = 0 -> embed_message self pixels message = Raise ValueError.
Proof.
  intros Hh. unfold embed_message. destruct (img_size pixels) as [w h].
  rewrite Hh. done.
Qed.


(** C20. Distortion: the text engine changes every channel of the
    carrier by less than [2^k], where [k] is the larger of [edge_bits]
    and [non_edge_bits] (at the defaults, [2^4 = 16]). *)
Theorem embed_message_distortion self pixels message pixels' width height :
  block_width self <> 0 -> block_height self <> 0 ->
  wf_grid width height pixels -> img_size pixels = (width, height) ->
  embed_message self pixels message = Ok pixels' ->
  forall y x c,
    (Z.abs (px pixels' y x c - px pixels y x c) < 2 ^ Z.of_nat (Nat.max (edge_bits self) (non_edge_bits self)))%Z.
Proof.
  intros Hw Hh Hwf Hsize Hemb y x c.
  assert (forall y x c, (0 <= px pixels y x c < 256)%Z) as H0 by (intros; eapply px_range, Hwf).
  destruct (embed_message_keeps_high _ _ _ _ _ _ Hw Hh (proj1 Hwf) Hsize H0 Hemb y x c) as [Hp Hq].
  apply shiftr_eq_close; [lia|apply H0|lia|done].
Qed.
