(* ===== verification/Extract.v ===== *)
(** * The text extraction engine: [extract_message]

    The mirror image of [Embed]: the same loops over the carrier, the
    same classifier (now on the embedded array), reading [num_bits] low
    bits of each visited channel ([extract_bits]) and appending them to
    the output string, until the expected number of bits is reached.
    The walk cannot raise; the final decoding can ([int('', 2)] when the
    carrier ran out of channels before [total_bits] bits were read).
    [extract_visit] is the abstract engine's step, and
    [extract_message_visits] shows that the engine runs it over the walk
    classified on the array it reads.  [extract_bits] reads back a
    chunk of at most 8 bits [embed_bits] wrote ([extract_bits_embed_bits]);
    a chunk shorter than the window read comes back behind stale
    carrier bits ([extract_bits_short_chunk]); asking for more
    characters than the walk carries raises [ValueError]
    ([extract_message_overread]).  (The image source's copy is in
    [ImageEngine].) *)

From Stdlib Require Import ZArith Lia.
From stdpp Require Import base list sets.
From S2P Require Import Prelude Bits Grid Classifier Walker Codec Embed.

Open Scope stego_scope.

(** ** The engines *)

(** The output bit string and the cursor. *)
Record extract_state : Type := mkExtract {
  x_bits : list bool;
  x_bit_index : nat
}.

(** [EdgeDetectStego.extract_bits]: [f"{value:0{num_bits}b}"] of the low
    [num_bits] bits. *)
Definition extract_bits (pixels : grid) (x y num_bits channel : nat) : list bool :=
  let value := lsb_read (px pixels y x channel) num_bits in
  format_bin num_bits value.

(** Text engine, one channel. *)
Definition extract_channel (pixels : grid) (total_bits num_bits x y : nat)
    (st : extract_state) (channel : nat) : extract_state :=
  if x_bit_index st <? total_bits then
    mkExtract (x_bits st ++ extract_bits pixels x y num_bits channel) (x_bit_index st + num_bits)
  else st.

(** Text engine, one [dx]. *)
Definition extract_pixel (width height : nat) (pixels : grid) (total_bits x y num_bits dy : nat)
    (st : extract_state) (dx : nat) : extract_state :=
  if (x + dx <? width) && (y + dy <? height) then
    if x_bit_index st <? total_bits then
      fold_left (extract_channel pixels total_bits num_bits (x + dx) (y + dy)) (range 3) st
    else st
  else st.

(** Text engine, one block. *)
Definition extract_block (self : stego) (width height : nat) (pixels : grid) (total_bits y : nat)
    (st : extract_state) (x : nat) : extract_state :=
  let num_bits := num_bits_of self pixels x y in
  fold_left (fun st dy =>
      fold_left (extract_pixel width height pixels total_bits x y num_bits dy)
        (range (block_width self)) st)
    (range (block_height self)) st.

(** [EdgeDetectStego.extract_message] of the text source, from the pixel
    array on; a character is its code point. *)
Definition extract_message (self : stego) (pixels : grid) (message_length : nat)
    : result (list Z) :=
  let '(width, height) := img_size pixels in
  let total_bits := message_length * 8 in
  let* ys := range_step height (block_height self) in
  let* st := foldM (fun st y =>
      let* xs := range_step width (block_width self) in
      Ok (fold_left (extract_block self width height pixels total_bits y) xs st))
    ys (mkExtract [] 0) in
  decode_message (x_bits st) total_bits.

(** The abstract engine's step: read the low [v_bits] bits of one
    visited channel, if bits are still expected. *)
Definition extract_visit (pixels : grid) (total_bits : nat) (st : extract_state) (v : visit)
    : extract_state :=
  if x_bit_index st <? total_bits then
    mkExtract (x_bits st ++ extract_bits pixels (v_x v) (v_y v) (v_bits v) (v_channel v))
      (x_bit_index st + v_bits v)
  else st.

(** ** The text engine refines the abstract engine *)

Lemma extract_pixel_visits width height pixels total x y n dy st dx :
  extract_pixel width height pixels total x y n dy st dx =
  fold_left (extract_visit pixels total)
    (if (x + dx <? width) && (y + dy <? height)
     then (fun c => mkVisit (x + dx) (y + dy) c n) <$> range 3 else []) st.
Proof.
  unfold extract_pixel. destruct (_ && _); [|done].
  rewrite fold_left_fmap. destruct (x_bit_index st <? total) eqn:E.
  - by apply fold_left_ext_in.
  - symmetry. apply fold_left_skip. intros c _. unfold extract_visit. by rewrite E.
Qed.

Lemma extract_block_visits self width height pixels total y st x :
  extract_block self width height pixels total y st x =
  fold_left (extract_visit pixels total)
    (block_visits self width height x y (num_bits_of self pixels x y)) st.
Proof.
  unfold extract_block, block_visits, block_pixels.
  rewrite list_bind_assoc, fold_left_bind. apply fold_left_ext_in. intros st1 dy _.
  rewrite list_bind_assoc, fold_left_bind. apply fold_left_ext_in. intros st2 dx _.
  rewrite extract_pixel_visits. destruct (_ && _); [|done].
  by rewrite bind_singleton.
Qed.

(** The nested loops over the block grid are the abstract extraction
    over the walk. *)
Lemma extract_rows_visits self width height pixels total st :
  fold_left (fun st y =>
      fold_left (extract_block self width height pixels total y) (range_by width (block_width self)) st)
    (range_by height (block_height self)) st =
  fold_left (extract_visit pixels total) (visits self width height (num_bits_of self pixels)) st.
Proof.
  rewrite visits_nested, fold_left_bind. apply fold_left_ext_in. intros st1 y _.
  rewrite fold_left_bind. apply fold_left_ext_in. intros. apply extract_block_visits.
Qed.

(** Refinement: the text extraction is the abstract engine over the
    walk, classified on the array it reads, followed by the decoding. *)
Lemma extract_message_refines self pixels message_length width height :
  block_width self <> 0 -> block_height self <> 0 -> img_size pixels = (width, height) ->
  extract_message self pixels message_length =
  decode_message
    (x_bits (fold_left (extract_visit pixels (message_length * 8))
               (visits self width height (num_bits_of self pixels)) (mkExtract [] 0)))
    (message_length * 8).
Proof.
  intros Hw Hh Hsize. unfold extract_message. rewrite Hsize, range_step_ok by done.
  autorewrite with stego_rw.
  rewrite (foldM_ext _ (fun st y => Ok (fold_left
    (extract_block self width height pixels (message_length * 8) y)
    (range_by width (block_width self)) st))) by (intros; by rewrite range_step_ok).
  rewrite foldM_pure. simpl. by rewrite extract_rows_visits.
Qed.

(** ** Reading back a write *)

(** Reading back one channel written with a full chunk gives the chunk. *)
Lemma extract_bits_written g x y c chunk cur :
  chunk <> [] -> length chunk <= 8 ->
  px g y x c = u8 (lsb_write cur (bits_val chunk) (length chunk)) ->
  extract_bits g x y (length chunk) c = chunk.
Proof.
  intros Hne Hl Hpx. unfold extract_bits. rewrite Hpx. unfold u8.
  rewrite lsb_read_mod256, lsb_read_write by (done || apply bits_val_range).
  by apply format_bin_bits_val.
Qed.

(** ** Running out of carrier *)

(** A read of [n > 0] bits gives [n] digits. *)
Lemma length_extract_bits g x y n c : n <> 0 -> length (extract_bits g x y n c) = n.
Proof. intros Hn. unfold extract_bits. apply length_format_bin; [apply lsb_read_range|done]. Qed.

(** The abstract extraction collects at most the capacity of the walk. *)
Lemma extract_visits_length g total vs st :
  (forall v, v ∈ vs -> 0 < v_bits v) ->
  length (x_bits (fold_left (extract_visit g total) vs st)) <= length (x_bits st) + capacity vs.
Proof.
  revert st. induction vs as [|v vs IH]; intros st Hpos; cbn [fold_left]; [simpl; lia|].
  rewrite capacity_cons. etrans; [apply IH; intros; apply Hpos; by right|].
  unfold extract_visit. destruct (_ <? _); simpl; [|lia].
  rewrite length_app, length_extract_bits; [lia|]. specialize (Hpos v (list_elem_of_here _ _)). lia.
Qed.

(** ** Properties *)

(** C11. A chunk shorter than the depth is read back with stale bits in
    front: when [embed_bits] writes a chunk of [len(chunk) < n <= 8] bits
    into a channel (the final chunk of a payload whose length is not a
    multiple of the depth), the [n]-bit window [extract_bits] reads there
    is the carrier's bits [len(chunk) .. n-1] of that channel followed by
    the chunk, so the decoder receives [n - len(chunk)] carrier bits
    where payload bits were expected. *)
Theorem extract_bits_short_chunk pixels pixels' width height x y c chunk n :
  shape width height pixels -> x < width -> y < height -> c < 3 ->
  length chunk < n <= 8 ->
  embed_bits pixels x y chunk c = Ok pixels' ->
  extract_bits pixels' x y n c =
  format_bin (n - length chunk)
    (lsb_read (Z.shiftr (px pixels y x c) (Z.of_nat (length chunk))) (n - length chunk)) ++ chunk.
Proof.
  intros Hs Hx Hy Hc Hn Hb. apply embed_bits_frame in Hb as [-> _]. unfold extract_bits.
  rewrite (px_set_eq width height) by done. unfold u8.
  rewrite lsb_read_mod256, lsb_read_write_wide by (lia || apply bits_val_range).
  replace n with (n - length chunk + length chunk) at 1 by lia.
  apply format_bin_app; [lia|apply lsb_read_range].
Qed.


(** C7. Refinement: the text extraction [extract_message] is the abstract
    extraction run over the walk classified on the array it reads,
    followed by the decoding of the collected bits. *)
Theorem extract_message_visits self pixels message_length width height :
  block_width self <> 0 -> block_height self <> 0 -> img_size pixels = (width, height) ->
  extract_message self pixels message_length =
  decode_message
    (x_bits (fold_left (extract_visit pixels (message_length * 8))
               (visits self width height (num_bits_of self pixels)) (mkExtract [] 0)))
    (message_length * 8).
Proof. apply extract_message_refines. Qed.

(** C12. [extract_bits] reads back what [embed_bits] wrote: a chunk of at
    most 8 bits written into a channel is returned by reading
    [len(chunk)] bits of that channel (the [uint8] store keeps the low
    8 bits of the written value). *)
Theorem extract_bits_embed_bits pixels pixels' width height x y c chunk :
  shape width height pixels -> x < width -> y < height -> c < 3 -> length chunk <= 8 ->
  embed_bits pixels x y chunk c = Ok pixels' ->
  extract_bits pixels' x y (length chunk) c = chunk.
Proof.
  intros Hs Hx Hy Hc Hl Hb. apply embed_bits_frame in Hb as [-> Hne].
  eapply extract_bits_written; [done|done|]. by apply (px_set_eq width height).
Qed.

(** C33. Asking [extract_message] for more characters than the carrier
    can hold raises [ValueError]: when the walk's capacity falls 8 bits
    or more short of [8 * message_length], an 8-bit slice of the
    collected bits is empty and [int('', 2)] raises, where the spec
    expects an [InvalidShapeError]. *)
Theorem extract_message_overread self pixels message_length width height :
  block_width self <> 0 -> block_height self <> 0 ->
  0 < edge_bits self -> 0 < non_edge_bits self -> img_size pixels = (width, height) ->
  capacity (visits self width height (num_bits_of self pixels)) + 8 <= message_length * 8 ->
  extract_message self pixels message_length = Raise ValueError.
Proof.
  intros Hw Hh He Hn Hsize Hcap. rewrite (extract_message_refines _ _ _ width height) by done.
  apply decode_bytes_short. etrans; [|exact Hcap]. apply Nat.add_le_mono_r.
  etrans; [apply extract_visits_length|done].
  intros v Hv. destruct (visits_bits _ _ _ _ _ Hv) as (x & y & ->).
  unfold num_bits_of. destruct (is_edge_block _ _ _ _); lia.
Qed.
