(* ===== verification/RoundTrip.v ===== *)
(** * Round trips: extraction gives back what embedding hid

    First at the level of the abstract engine ([embed_extract_visits],
    [flat_roundtrip]): over any walk that visits each channel once, in
    bounds, with depths of 1 to 8 bits, extracting [len(bits)] bits from
    the array the embedding produced returns [bits], provided some
    prefix of the walk carries exactly [len(bits)] bits.  Both provisos
    are needed: the [uint8] store keeps only the low 8 bits of a
    channel, and the source writes a short final chunk into the LOW bits
    of a channel but reads a full [num_bits] window back
    ([Extract.extract_bits_short_chunk]).

    Then for the text engine ([text_roundtrip]), through the refinement
    theorems of [Embed] and [Extract], under the spec's critical
    invariant that the classification of the embedded array equals that
    of the carrier; with a threshold of 16 or more that invariant always
    holds ([text_roundtrip_uniform]). *)

From Stdlib Require Import ZArith Lia.
From stdpp Require Import base list sets.
From S2P Require Import Prelude Bits Grid Classifier Walker Codec Embed Extract.

Open Scope stego_scope.

(** The embed-then-extract sequence of [main]: [embed_message], the
    lossless PNG save and reload (the identity on the array), then
    [extract_message(..., len(message))]. *)
Definition text_pipeline (self : stego) (pixels : grid) (message : list Z) : result (list Z) :=
  let* encrypted_image := embed_message self pixels message in
  extract_message self encrypted_image (length message).

Section Flat.
Context (width height : nat) (bits : list bool).

Lemma embed_visits_skip vs st :
  length bits <= e_bit_index st -> foldM (embed_visit bits) vs st = Ok st.
Proof.
  intros H. apply foldM_skip. intros v _. unfold embed_visit.
  by destruct (Nat.ltb_spec (e_bit_index st) (length bits)); [lia|].
Qed.

Lemma extract_visits_skip g total vs st :
  total <= x_bit_index st -> fold_left (extract_visit g total) vs st = st.
Proof.
  intros H. apply fold_left_skip. intros v _. unfold extract_visit.
  by destruct (Nat.ltb_spec (x_bit_index st) total); [lia|].
Qed.

Definition visits_ok (vs : list visit) : Prop :=
  forall v, v ∈ vs -> v_x v < width /\ v_y v < height /\ v_channel v < 3 /\ 0 < v_bits v <= 8.

(** One step of the abstract embedding with a full chunk left. *)
Lemma embed_visit_full st v :
  e_bit_index st + v_bits v <= length bits -> 0 < v_bits v ->
  embed_visit bits st v =
  Ok (mkEmbed
    (px_set (e_pixels st) (v_y v) (v_x v) (v_channel v)
       (lsb_write (px (e_pixels st) (v_y v) (v_x v) (v_channel v))
          (bits_val (slice (e_bit_index st) (e_bit_index st + v_bits v) bits)) (v_bits v)))
    (e_bit_index st + v_bits v)).
Proof.
  intros Hcap Hn. unfold embed_visit.
  destruct (Nat.ltb_spec (e_bit_index st) (length bits)); [|lia].
  destruct (Nat.ltb_spec 0 (v_bits v)); [|lia]. simpl.
  pose proof (length_slice_full (e_bit_index st) (v_bits v) bits Hcap) as Hlen.
  unfold embed_bits, int_base2.
  destruct (slice _ _ bits) as [|b rest] eqn:Es; [simpl in Hlen; lia|].
  simpl. by rewrite <- Hlen.
Qed.

(** The abstract engines are inverse on a walk the payload fills. *)
Lemma embed_extract_visits vs st st' g acc :
  NoDup (visit_pos <$> vs) -> visits_ok vs ->
  shape width height (e_pixels st) ->
  e_bit_index st + capacity vs <= length bits ->
  foldM (embed_visit bits) vs st = Ok st' ->
  (forall v, v ∈ vs -> px g (v_y v) (v_x v) (v_channel v) =
                       px (e_pixels st') (v_y v) (v_x v) (v_channel v)) ->
  fold_left (extract_visit g (length bits)) vs (mkExtract acc (e_bit_index st)) =
  mkExtract (acc ++ slice (e_bit_index st) (e_bit_index st + capacity vs) bits)
    (e_bit_index st + capacity vs).
Proof.
  revert st acc. induction vs as [|v vs IH]; intros st acc Hnd Hok Hs Hcap Hrun Hg.
  { simpl. unfold slice. rewrite Nat.add_0_r, Nat.sub_diag, app_nil_r. done. }
  rewrite capacity_cons in Hcap |- *. csimpl in Hnd. apply NoDup_cons in Hnd as [Hnin Hnd].
  destruct (Hok v (list_elem_of_here _ _)) as (Hx & Hy & Hc & Hn).
  simpl in Hrun. rewrite embed_visit_full in Hrun by lia. simpl in Hrun.
  set (chunk := slice (e_bit_index st) (e_bit_index st + v_bits v) bits) in Hrun.
  assert (length chunk = v_bits v) as Hlen by (apply length_slice_full; lia).
  assert (chunk <> []) as Hne by (intros E; rewrite E in Hlen; simpl in Hlen; lia).
  set (st1 := mkEmbed _ _) in Hrun.
  assert (shape width height (e_pixels st1)) as Hs1 by (by apply px_set_shape).
  destruct (embed_visits_frame _ _ _ _ _ _ Hs1 Hrun) as [_ Hf].
  assert (extract_bits g (v_x v) (v_y v) (v_bits v) (v_channel v) = chunk) as Hext.
  { rewrite <- Hlen. apply (extract_bits_written _ _ _ _ _ (px (e_pixels st) (v_y v) (v_x v) (v_channel v)));
      [done|lia|].
    rewrite Hg by left. rewrite Hf by done. simpl. rewrite Hlen.
    by apply (px_set_eq width height). }
  assert (extract_visit g (length bits) (mkExtract acc (e_bit_index st)) v =
          mkExtract (acc ++ chunk) (e_bit_index st1)) as Hstep.
  { unfold extract_visit. simpl. destruct (Nat.ltb_spec (e_bit_index st) (length bits)); [|lia].
    by rewrite Hext. }
  cbn [fold_left]. rewrite Hstep.
  rewrite (IH st1); [|done| |done| |done|].
  - simpl. unfold chunk. rewrite <- app_assoc, slice_app by lia. by rewrite Nat.add_assoc.
  - intros w Hw. apply Hok. by right.
  - simpl. lia.
  - intros w Hw. apply Hg. by right.
Qed.

(** While the payload lasts, each visit advances the cursor by its depth. *)
Lemma embed_visits_index vs st st' :
  visits_ok vs -> e_bit_index st + capacity vs <= length bits ->
  foldM (embed_visit bits) vs st = Ok st' ->
  e_bit_index st' = e_bit_index st + capacity vs.
Proof.
  revert st. induction vs as [|v vs IH]; intros st Hok Hcap Hrun.
  - simpl in Hrun. injection Hrun as <-. simpl. lia.
  - rewrite capacity_cons in Hcap |- *. simpl in Hrun.
    destruct (Hok v (list_elem_of_here _ _)) as (_ & _ & _ & Hn).
    rewrite embed_visit_full in Hrun by lia. simpl in Hrun.
    apply IH in Hrun; [simpl in Hrun; lia| |simpl; lia].
    intros w Hw. apply Hok. by right.
Qed.
(** The flat round trip: if a prefix of the walk carries exactly the
    payload, embedding succeeds and extraction returns the payload. *)
Lemma flat_roundtrip vs g k :
  NoDup (visit_pos <$> vs) -> visits_ok vs -> shape width height g ->
  capacity (take k vs) = length bits ->
  exists st', foldM (embed_visit bits) vs (mkEmbed g 0) = Ok st' /\
    shape width height (e_pixels st') /\
    x_bits (fold_left (extract_visit (e_pixels st') (length bits)) vs (mkExtract [] 0)) = bits.
Proof.
  intros Hnd Hok Hs Hcap.
  assert (visits_ok (take k vs)) as Hok1.
  { intros v Hv. apply Hok. by eapply elem_of_prefix; [|apply prefix_take]. }
  rewrite <- (take_drop k vs) in Hnd. rewrite fmap_app in Hnd.
  apply NoDup_app in Hnd as (Hnd1 & _ & _).
  destruct (embed_visits_ok bits (take k vs) (mkEmbed g 0)) as [st1 Hrun1].
  assert (e_bit_index st1 = capacity (take k vs)) as Hidx.
  { pose proof Hrun1 as H. apply embed_visits_index in H; [simpl in H; lia|done|simpl; lia]. }
  destruct (embed_visits_frame width height bits _ (mkEmbed g 0) _ Hs Hrun1) as [Hs1 _].
  exists st1. rewrite <- (take_drop k vs), foldM_app, Hrun1. simpl.
  rewrite embed_visits_skip by lia. split; [done|]. split; [done|].
  rewrite fold_left_app.
  rewrite (embed_extract_visits _ (mkEmbed g 0) st1); [|done..|simpl; lia|done|done].
  rewrite extract_visits_skip by (simpl; lia). simpl.
  rewrite Hcap. unfold slice. rewrite Nat.sub_0_r, drop_0. by apply take_ge.
Qed.
End Flat.

(** With every block at the same depth, a prefix of [k] visits carries
    [k] times that depth. *)
Lemma capacity_take_uniform vs n k :
  (forall v, v ∈ vs -> v_bits v = n) -> capacity (take k vs) = n * Nat.min k (length vs).
Proof.
  revert k. induction vs as [|v vs IH]; intros k Hn; [destruct k; simpl; lia|].
  destruct k as [|k]; [simpl; lia|]. change (take (S k) (v :: vs)) with (v :: take k vs).
  rewrite capacity_cons, Hn by left. simpl length.
  rewrite IH; [lia|]. intros. apply Hn. by right.
Qed.

Lemma visits_ok_walk self width height depth :
  (forall x y, 0 < depth x y <= 8) -> visits_ok width height (visits self width height depth).
Proof.
  intros Hd v Hv. pose proof (visit_in_bounds _ _ _ _ _ Hv).
  destruct (visits_bits _ _ _ _ _ Hv) as (x & y & ->). specialize (Hd x y). lia.
Qed.

(** The text round trip: if the payload fills a prefix of the walk
    exactly and the embedded array classifies every block as the carrier
    does (the spec's critical invariant), [extract_message] returns the
    message [embed_message] hid. *)
Lemma roundtrip_stable self pixels message pixels' width height k :
  block_width self <> 0 -> block_height self <> 0 ->
  (forall x y, 0 < num_bits_of self pixels x y <= 8) ->
  shape width height pixels -> img_size pixels = (width, height) ->
  Forall (fun c => 0 <= c < 256)%Z message ->
  capacity (take k (visits self width height (num_bits_of self pixels))) = length message * 8 ->
  embed_message self pixels message = Ok pixels' ->
  (forall x y, num_bits_of self pixels' x y = num_bits_of self pixels x y) ->
  extract_message self pixels' (length message) = Ok message.
Proof.
  intros Hw Hh Hd Hs Hsize Hbytes Hcap Hemb Hstable.
  rewrite (embed_message_refines _ _ _ width height) in Hemb by done.
  set (bits := message_to_bits message) in Hemb.
  assert (length bits = length message * 8) as Hlen by (by apply length_message_to_bits).
  destruct (flat_roundtrip width height bits (visits self width height (num_bits_of self pixels)) pixels k)
    as (st' & Hrun & Hs' & Hx).
  - by apply visit_positions_NoDup.
  - by apply visits_ok_walk.
  - done.
  - by rewrite Hlen.
  - rewrite Hrun in Hemb. simpl in Hemb. injection Hemb as <-.
    rewrite (extract_message_refines _ _ _ width height); [|done|done|].
    + rewrite (visits_ext _ _ _ _ _ Hstable), <- Hlen, Hx.
      rewrite Hlen. unfold bits. rewrite <- (app_nil_r (message_to_bits message)).
      by apply decode_bytes_roundtrip.
    + rewrite <- Hsize. by eapply shape_img_size.
Qed.

(** With a threshold of 16 or more every block carries [non_edge_bits]
    bits per channel, and a multiple [len] of that depth that fits in the
    carrier is carried exactly by the first [len / non_edge_bits]
    visits. *)
Lemma uniform_num_bits self g x y :
  (16 <= threshold self)%Z -> num_bits_of self g x y = non_edge_bits self.
Proof. intros Ht. unfold num_bits_of. by rewrite no_edge_above_15. Qed.

Lemma uniform_prefix self pixels width height len :
  block_width self <> 0 -> block_height self <> 0 ->
  (16 <= threshold self)%Z -> 0 < non_edge_bits self ->
  len mod non_edge_bits self = 0 -> len <= non_edge_bits self * (3 * width * height) ->
  capacity (take (len / non_edge_bits self) (visits self width height (num_bits_of self pixels))) = len.
Proof.
  intros Hw Hh Ht Hn Hdiv Hfit. rewrite (capacity_take_uniform _ (non_edge_bits self)).
  - rewrite walk_length by done.
    assert (len / non_edge_bits self <= 3 * width * height) by (apply Nat.Div0.div_le_upper_bound; lia).
    rewrite Nat.min_l by done. symmetry. apply Nat.div_exact; [lia|done].
  - intros v Hv. destruct (visits_bits _ _ _ _ _ Hv) as (x & y & ->). by apply uniform_num_bits.
Qed.

(** With a threshold of 16 or more every block is non-edge (uint8
    overflow), so the critical invariant holds by itself. *)
Lemma roundtrip_uniform_config self pixels message pixels' width height :
  block_width self <> 0 -> block_height self <> 0 ->
  (16 <= threshold self)%Z -> 0 < non_edge_bits self <= 8 ->
  shape width height pixels -> img_size pixels = (width, height) ->
  Forall (fun c => 0 <= c < 256)%Z message ->
  (length message * 8) mod non_edge_bits self = 0 ->
  length message * 8 <= non_edge_bits self * (3 * width * height) ->
  embed_message self pixels message = Ok pixels' ->
  extract_message self pixels' (length message) = Ok message.
Proof.
  intros Hw Hh Ht Hn Hs Hsize Hbytes Hdiv Hfit Hemb.
  apply (roundtrip_stable self pixels message pixels' width height (length message * 8 / non_edge_bits self));
    try done.
  - intros x y. by rewrite uniform_num_bits.
  - apply uniform_prefix; (done || lia).
  - intros x y. by rewrite !uniform_num_bits.
Qed.

(** The pipeline returns the message under the conditions of
    [roundtrip_uniform_config]; the embedding cannot fail. *)
Lemma pipeline_uniform self pixels message width height :
  block_width self <> 0 -> block_height self <> 0 ->
  (16 <= threshold self)%Z -> 0 < non_edge_bits self <= 8 ->
  shape width height pixels -> img_size pixels = (width, height) ->
  Forall (fun c => 0 <= c < 256)%Z message ->
  (length message * 8) mod non_edge_bits self = 0 ->
  length message * 8 <= non_edge_bits self * (3 * width * height) ->
  text_pipeline self pixels message = Ok message.
Proof.
  intros Hw Hh Ht Hn Hs Hsize Hb Hdiv Hfit. unfold text_pipeline.
  destruct (embed_message_ok_visits self pixels message width height) as [pixels' Hemb]; try done.
  rewrite Hemb. by eapply roundtrip_uniform_config.
Qed.

(** ** Properties *)

(** C3. The round trip for every configuration whose threshold is 16 or
    more (the default is 128) and whose non-edge depth is 1 to 8 bits
    (a [uint8] channel keeps only 8: a wider chunk is cut by the store):
    every block is non-edge because of the uint8 overflow, so the
    critical invariant holds by itself, and embedding then extracting
    returns the message when its bits are a multiple of [non_edge_bits]
    and at most [3 * non_edge_bits * width * height]. *)
Theorem text_roundtrip_uniform self pixels message width height :
  block_width self <> 0 -> block_height self <> 0 ->
  (16 <= threshold self)%Z -> 0 < non_edge_bits self <= 8 ->
  shape width height pixels -> img_size pixels = (width, height) ->
  Forall (fun c => 0 <= c < 256)%Z message ->
  (length message * 8) mod non_edge_bits self = 0 ->
  length message * 8 <= non_edge_bits self * (3 * width * height) ->
  text_pipeline self pixels message = Ok message.
Proof. apply pipeline_uniform. Qed.

(** C5. The text round trip: when both depths are 1 to 8 bits (what a
    [uint8] channel stores), the payload fills a prefix of the walk
    exactly, every character is a byte and the embedded array classifies
    every block as the carrier does (the spec's critical invariant),
    extracting from the array [embed_message] produced returns the
    message. *)
Theorem text_roundtrip self pixels message pixels' width height k :
  block_width self <> 0 -> block_height self <> 0 ->
  0 < edge_bits self <= 8 -> 0 < non_edge_bits self <= 8 ->
  shape width height pixels -> img_size pixels = (width, height) ->
  Forall (fun c => 0 <= c < 256)%Z message ->
  capacity (take k (visits self width height (num_bits_of self pixels))) = length message * 8 ->
  embed_message self pixels message = Ok pixels' ->
  (forall x y, num_bits_of self pixels' x y = num_bits_of self pixels x y) ->
  text_pipeline self pixels message = Ok message.
Proof.
  intros Hw Hh He Hn Hs Hsize Hb Hcap Hemb Hstable. unfold text_pipeline.
  rewrite Hemb. eapply roundtrip_stable; try done.
  intros x y. unfold num_bits_of. destruct (is_edge_block _ _ _ _); lia.
Qed.
