(* ===== verification/ImageEngine.v ===== *)
(** * The image engines: [embed_image] and [extract_image]

    [EdgeDetectStego.embed_image] and [extract_image] of
    image_steganography.py, transcribed loop by loop like the text
    engines of [Embed] and [Extract], whose [embed_bits], [extract_bits]
    and state they share.  They differ from the text engines in
    two ways: they test the cursor once per pixel and then process all
    three channels, and they [break] out of a row of blocks once the
    payload is consumed.  When every block has the same depth [n] (a
    threshold of 16 or more, the default 128 included, see
    [Classifier.is_edge_block_never_edge]) and the payload is a multiple
    of [3 * n] bits, the cursor is a multiple of [3 * n] at every pixel
    ([aligned]); a pixel that starts before the end of the payload then
    ends within it, so the per-pixel test is the per-channel test of the
    text engine, and a block or a row after the end writes nothing.  The
    image engines are then the text engines' loops over the hidden
    image's bits ([embed_image_rows], [extract_image_rows]), hence the
    abstract engines over the walk ([embed_image_refines],
    [extract_image_refines]), and the round trip of [RoundTrip] carries
    over, with [reshape_rgb] undoing [flatten]
    ([image_roundtrip_uniform]).  Without any condition on the depths'
    uniformity, every property of the array that a write of at most [K]
    bits keeps holds of the result ([embed_image_preserves]): it is a
    [uint8] array of the carrier's shape ([embed_image_wf]) and within
    [2^k] of the carrier channel by channel.  When the payload does not
    align with the pixels, the per-pixel test lets a pixel start with
    at most [2 * num_bits] payload bits left, and its cut of an empty
    chunk raises [ValueError] ([embed_pixel_img_raises]). *)

From Stdlib Require Import ZArith Lia.
From stdpp Require Import base list sets.
From S2P Require Import Prelude Bits Grid Classifier Walker Codec Embed Extract RoundTrip.

Open Scope stego_scope.

(** ** The engines of the image source *)

(** Embedding, one [dx]: one test, then all three channels. *)
Definition embed_pixel_img (width height : nat) (hidden_bits : list bool)
    (x y num_bits dy : nat) (st : embed_state) (dx : nat) : result embed_state :=
  if (x + dx <? width) && (y + dy <? height) && (e_bit_index st <? length hidden_bits) then
    foldM (fun st channel =>
        let bit_index := e_bit_index st in
        let* pixels := embed_bits (e_pixels st) (x + dx) (y + dy)
                         (slice bit_index (bit_index + num_bits) hidden_bits) channel in
        Ok (mkEmbed pixels (bit_index + num_bits)))
      (range 3) st
  else Ok st.

(** Embedding, one block. *)
Definition embed_block_img (self : stego) (width height : nat) (hidden_bits : list bool)
    (y : nat) (st : embed_state) (x : nat) : result embed_state :=
  let num_bits :=
    if is_edge_block_img self (e_pixels st) x y then edge_bits self else non_edge_bits self in
  foldM (fun st dy =>
      foldM (embed_pixel_img width height hidden_bits x y num_bits dy)
        (range (block_width self)) st)
    (range (block_height self)) st.

(** Embedding, one row of blocks with its
    [if bit_index >= len(hidden_bits): break]. *)
Fixpoint embed_row_img (self : stego) (width height : nat) (hidden_bits : list bool)
    (y : nat) (xs : list nat) (st : embed_state) : result embed_state :=
  match xs with
  | [] => Ok st
  | x :: xs' =>
      if length hidden_bits <=? e_bit_index st then Ok st
      else
        let* st' := embed_block_img self width height hidden_bits y st x in
        embed_row_img self width height hidden_bits y xs' st'
  end.

(** [EdgeDetectStego.embed_image] of the image source, from the two
    pixel arrays on. *)
Definition embed_image (self : stego) (pixels hidden_pixels : grid) : result grid :=
  let '(width, height) := img_size pixels in
  let hidden_bits := hidden_to_bits hidden_pixels in
  let* ys := range_step height (block_height self) in
  let* st := foldM (fun st y =>
      let* xs := range_step width (block_width self) in
      embed_row_img self width height hidden_bits y xs st)
    ys (mkEmbed pixels 0) in
  Ok (e_pixels st).

(** Extraction, one [dx]: one test, then all three channels. *)
Definition extract_pixel_img (width height : nat) (pixels : grid) (total_bits x y num_bits dy : nat)
    (st : extract_state) (dx : nat) : extract_state :=
  if (x + dx <? width) && (y + dy <? height) && (x_bit_index st <? total_bits) then
    fold_left (fun st channel =>
        mkExtract (x_bits st ++ extract_bits pixels (x + dx) (y + dy) num_bits channel)
          (x_bit_index st + num_bits))
      (range 3) st
  else st.

(** Extraction, one block. *)
Definition extract_block_img (self : stego) (width height : nat) (pixels : grid)
    (total_bits y : nat) (st : extract_state) (x : nat) : extract_state :=
  let num_bits :=
    if is_edge_block_img self pixels x y then edge_bits self else non_edge_bits self in
  fold_left (fun st dy =>
      fold_left (extract_pixel_img width height pixels total_bits x y num_bits dy)
        (range (block_width self)) st)
    (range (block_height self)) st.

(** Extraction, one row of blocks with its [break]. *)
Fixpoint extract_row_img (self : stego) (width height : nat) (pixels : grid)
    (total_bits y : nat) (xs : list nat) (st : extract_state) : extract_state :=
  match xs with
  | [] => st
  | x :: xs' =>
      if total_bits <=? x_bit_index st then st
      else extract_row_img self width height pixels total_bits y xs'
             (extract_block_img self width height pixels total_bits y st x)
  end.

(** [EdgeDetectStego.extract_image] of the image source, up to the
    reshaped array (the [Image.fromarray] wrapper is not modelled). *)
Definition extract_image (self : stego) (pixels : grid) (hidden_image_size : nat * nat)
    : result grid :=
  let '(width, height) := img_size pixels in
  let '(hidden_width, hidden_height) := hidden_image_size in
  let total_bits := hidden_width * hidden_height * 8 * 3 in
  let* ys := range_step height (block_height self) in
  let* st := foldM (fun st y =>
      let* xs := range_step width (block_width self) in
      Ok (extract_row_img self width height pixels total_bits y xs st))
    ys (mkExtract [] 0) in
  let* hidden_pixel_values := decode_bytes (x_bits st) total_bits in
  Ok (reshape_rgb hidden_height hidden_width hidden_pixel_values).

(** ** Invariants of the array

    Any property of the array that a write of at most [K] bits keeps
    ([HQ]) holds of the array [embed_image] returns, whatever the
    classification, the [break] and the payload. *)

Section Preserve.
Variable K : nat.
Variable Q : grid -> Prop.
Hypothesis HQ : forall pixels x y bits c pixels',
  Q pixels -> length bits <= K -> embed_bits pixels x y bits c = Ok pixels' -> Q pixels'.

Lemma embed_pixel_img_preserves width height bits x y n dy st dx st' :
  n <= K -> Q (e_pixels st) -> embed_pixel_img width height bits x y n dy st dx = Ok st' ->
  Q (e_pixels st').
Proof.
  intros Hn Hq. unfold embed_pixel_img. destruct (_ && _ && _); [|by intros [= <-]].
  apply (foldM_keeps_Q Q); [|done]. intros st1 c st2 _ Hq1 Hrun.
  apply rbind_ok_inv in Hrun as (p & Hp & [= <-]). simpl.
  eapply HQ; [exact Hq1| |exact Hp]. rewrite length_slice. lia.
Qed.

Lemma embed_block_img_preserves self width height bits y st x st' :
  edge_bits self <= K -> non_edge_bits self <= K ->
  Q (e_pixels st) -> embed_block_img self width height bits y st x = Ok st' -> Q (e_pixels st').
Proof.
  intros He Hne Hq. unfold embed_block_img.
  apply (foldM_keeps_Q Q); [|done]. intros st1 dy st2 _ Hq1.
  apply (foldM_keeps_Q Q); [|done]. intros st3 dx st4 _ Hq3.
  apply embed_pixel_img_preserves; [|done]. by case_match.
Qed.

Lemma embed_row_img_preserves self width height bits y xs st st' :
  edge_bits self <= K -> non_edge_bits self <= K ->
  Q (e_pixels st) -> embed_row_img self width height bits y xs st = Ok st' -> Q (e_pixels st').
Proof.
  intros He Hne. revert st. induction xs as [|x xs IH]; intros st Hq; simpl; [by intros [= <-]|].
  case_match; [by intros [= <-]|]. intros Hrun.
  apply rbind_ok_inv in Hrun as (st1 & H1 & H2).
  eapply IH; [|exact H2]. by eapply embed_block_img_preserves.
Qed.

Lemma embed_image_preserves self pixels hidden_pixels pixels' :
  edge_bits self <= K -> non_edge_bits self <= K ->
  Q pixels -> embed_image self pixels hidden_pixels = Ok pixels' -> Q pixels'.
Proof.
  intros He Hne Hq. unfold embed_image. destruct (img_size pixels) as [width height].
  intros Hrun. apply rbind_ok_inv in Hrun as (ys & _ & Hrun).
  apply rbind_ok_inv in Hrun as (st & Hrun & [= <-]).
  revert Hrun. change pixels with (e_pixels (mkEmbed pixels 0)) in Hq.
  apply (foldM_keeps_Q Q); [|done]. intros st1 y st2 _ Hq1 Hrow.
  apply rbind_ok_inv in Hrow as (xs & _ & Hrow). by eapply embed_row_img_preserves.
Qed.

End Preserve.

(** ** The cursor stays a multiple of [3 * n] *)

(** The cursor is at a pixel boundary of a depth-[n] walk. *)
Definition aligned (n i : nat) : Prop := i mod (3 * n) = 0.

(** An aligned cursor before the end has a whole pixel of room. *)
Lemma aligned_room n i len : aligned n i -> len mod (3 * n) = 0 -> i < len -> i + 3 * n <= len.
Proof.
  unfold aligned. intros Hi Hl Hlt.
  pose proof (Nat.div_mod_eq i (3 * n)) as Ei. pose proof (Nat.div_mod_eq len (3 * n)) as El.
  rewrite Hi in Ei. rewrite Hl in El. assert (i / (3 * n) < len / (3 * n)) by nia. nia.
Qed.

Lemma aligned_pixel n i : aligned n i -> aligned n (i + n + n + n).
Proof.
  unfold aligned. intros Hi. replace (i + n + n + n) with (i + 1 * (3 * n)) by lia.
  by rewrite Nat.Div0.mod_add.
Qed.

Section Uniform.
Context (self : stego) (bits : list bool).
Hypothesis Hthr : (16 <= threshold self)%Z.
Hypothesis Hn : 0 < non_edge_bits self.
Hypothesis Hlen : length bits mod (3 * non_edge_bits self) = 0.

Local Notation n := (non_edge_bits self).

(** The classification of both copies at this depth. *)
Lemma uniform_depth g x y :
  (if is_edge_block_img self g x y then edge_bits self else non_edge_bits self) = n /\
  num_bits_of self g x y = n.
Proof. unfold num_bits_of. by rewrite is_edge_block_img_eq, no_edge_above_15. Qed.

(** ** Embedding *)

Lemma embed_pixel_img_sim width height x y dy st dx :
  aligned n (e_bit_index st) ->
  embed_pixel_img width height bits x y n dy st dx = embed_pixel width height bits x y n dy st dx /\
  forall st', embed_pixel width height bits x y n dy st dx = Ok st' -> aligned n (e_bit_index st').
Proof.
  intros Hal. unfold embed_pixel_img, embed_pixel.
  destruct ((x + dx <? width) && (y + dy <? height)); simpl; [|split; [done|by intros ? [= <-]]].
  destruct (Nat.ltb_spec (e_bit_index st) (length bits)) as [Hlt|Hge]; simpl;
    [|split; [done|by intros ? [= <-]]].
  destruct (Nat.ltb_spec 0 n); [|lia]. simpl.
  pose proof (aligned_room _ _ _ Hal Hlen Hlt).
  unfold embed_channel. cbn [e_bit_index].
  destruct (Nat.ltb_spec (e_bit_index st) (length bits)); [|lia]. simpl.
  destruct (embed_bits _ _ _ _ 0) as [p1|e]; simpl; [|done].
  destruct (Nat.ltb_spec (e_bit_index st + n) (length bits)); [|lia]. simpl.
  destruct (embed_bits _ _ _ _ 1) as [p2|e]; simpl; [|done].
  destruct (Nat.ltb_spec (e_bit_index st + n + n) (length bits)); [|lia]. simpl.
  destruct (embed_bits _ _ _ _ 2) as [p3|e]; simpl; [|done].
  split; [done|]. intros st' [= <-]. by apply aligned_pixel.
Qed.

Lemma embed_block_img_sim width height y st x :
  aligned n (e_bit_index st) ->
  embed_block_img self width height bits y st x = embed_block self width height bits y st x /\
  forall st', embed_block self width height bits y st x = Ok st' -> aligned n (e_bit_index st').
Proof.
  intros Hal. unfold embed_block_img, embed_block.
  rewrite (proj1 (uniform_depth _ _ _)), (proj2 (uniform_depth _ _ _)).
  apply (foldM_sim (fun st => aligned n (e_bit_index st))); [|done]. intros st1 dy _ Hal1.
  apply (foldM_sim (fun st => aligned n (e_bit_index st))); [|done]. intros st2 dx _ Hal2.
  by apply embed_pixel_img_sim.
Qed.

(** A block after the end of the payload writes nothing. *)
Lemma embed_block_done width height y st x :
  length bits <= e_bit_index st -> embed_block self width height bits y st x = Ok st.
Proof.
  intros Hdone. unfold embed_block. apply foldM_skip. intros dy _.
  apply foldM_skip. intros dx _. unfold embed_pixel.
  destruct (_ && _); [|done]. destruct (Nat.ltb_spec (e_bit_index st) (length bits)); [lia|done].
Qed.

(** A row of blocks with its [break] is the text engine's row. *)
Lemma embed_row_img_sim width height y xs st :
  aligned n (e_bit_index st) ->
  embed_row_img self width height bits y xs st = foldM (embed_block self width height bits y) xs st /\
  forall st', foldM (embed_block self width height bits y) xs st = Ok st' -> aligned n (e_bit_index st').
Proof.
  revert st. induction xs as [|x xs IH]; intros st Hal; simpl; [by split; [|intros ? [= <-]]|].
  destruct (Nat.leb_spec (length bits) (e_bit_index st)) as [Hdone|Hlt].
  - rewrite embed_block_done by done. simpl.
    rewrite foldM_skip; [by split; [|intros ? [= <-]]|]. intros. by apply embed_block_done.
  - destruct (embed_block_img_sim width height y st x Hal) as [-> Hinv].
    destruct (embed_block self width height bits y st x) as [st1|e] eqn:E; simpl; [|done].
    apply IH. by apply Hinv.
Qed.

End Uniform.

(** [embed_image] is the text engine's loop nest over the hidden bits. *)
Lemma embed_image_rows self pixels hidden_pixels width height :
  (16 <= threshold self)%Z -> 0 < non_edge_bits self ->
  length (hidden_to_bits hidden_pixels) mod (3 * non_edge_bits self) = 0 ->
  block_width self <> 0 -> block_height self <> 0 -> img_size pixels = (width, height) ->
  embed_image self pixels hidden_pixels =
  (let* st := foldM (fun st y =>
       foldM (embed_block self width height (hidden_to_bits hidden_pixels) y)
         (range_by width (block_width self)) st)
     (range_by height (block_height self)) (mkEmbed pixels 0) in
   Ok (e_pixels st)).
Proof.
  intros Ht Hn Hl Hw Hh Hsize. unfold embed_image. rewrite Hsize, range_step_ok by done.
  autorewrite with stego_rw. f_equal.
  refine (proj1 (foldM_sim (fun st => aligned (non_edge_bits self) (e_bit_index st)) _ _ _ _ _ _));
    [|apply Nat.Div0.mod_0_l].
  intros st y _ Hal. rewrite range_step_ok by done. autorewrite with stego_rw.
  by apply embed_row_img_sim.
Qed.

(** [embed_image] is the abstract engine over the walk. *)
Lemma embed_image_refines self pixels hidden_pixels width height :
  (16 <= threshold self)%Z -> 0 < non_edge_bits self ->
  length (hidden_to_bits hidden_pixels) mod (3 * non_edge_bits self) = 0 ->
  block_width self <> 0 -> block_height self <> 0 ->
  shape width height pixels -> img_size pixels = (width, height) ->
  embed_image self pixels hidden_pixels =
  (let* st := foldM (embed_visit (hidden_to_bits hidden_pixels))
                (visits self width height (num_bits_of self pixels)) (mkEmbed pixels 0) in
   Ok (e_pixels st)).
Proof.
  intros Ht Hn Hl Hw Hh Hs Hsize. rewrite (embed_image_rows _ _ _ width height) by done.
  pose proof (embed_rows_refines self width height pixels (hidden_to_bits hidden_pixels) Hw Hh Hs
    ((height + block_height self - 1) / block_height self) 0 (mkEmbed pixels 0)) as E.
  change (map _ (seq 0 _)) with (range_by height (block_height self)) in E.
  rewrite E, visits_nested; [done|]. by split.
Qed.

(** ** Extraction *)

Section UniformExtract.
Context (self : stego) (pixels : grid) (total : nat).
Hypothesis Hthr : (16 <= threshold self)%Z.
Hypothesis Hn : 0 < non_edge_bits self.
Hypothesis Htotal : total mod (3 * non_edge_bits self) = 0.

Local Notation n := (non_edge_bits self).

Lemma extract_pixel_img_sim width height x y dy st dx :
  aligned (non_edge_bits self) (x_bit_index st) ->
  extract_pixel_img width height pixels total x y n dy st dx =
    extract_pixel width height pixels total x y n dy st dx /\
  aligned (non_edge_bits self) (x_bit_index (extract_pixel width height pixels total x y n dy st dx)).
Proof.
  intros Hal. unfold extract_pixel_img, extract_pixel.
  destruct ((x + dx <? width) && (y + dy <? height)); simpl; [|done].
  destruct (Nat.ltb_spec (x_bit_index st) total) as [Hlt|Hge]; simpl; [|done].
  pose proof (aligned_room _ _ _ Hal Htotal Hlt).
  unfold extract_channel. simpl.
  destruct (Nat.ltb_spec (x_bit_index st) total); [|lia]. simpl.
  destruct (Nat.ltb_spec (x_bit_index st + n) total); [|lia]. simpl.
  destruct (Nat.ltb_spec (x_bit_index st + n + n) total); [|lia]. simpl.
  split; [done|]. by apply aligned_pixel.
Qed.

Lemma extract_block_img_sim width height y st x :
  aligned (non_edge_bits self) (x_bit_index st) ->
  extract_block_img self width height pixels total y st x =
    extract_block self width height pixels total y st x /\
  aligned (non_edge_bits self) (x_bit_index (extract_block self width height pixels total y st x)).
Proof.
  intros Hal. unfold extract_block_img, extract_block.
  rewrite (proj1 (uniform_depth _ Hthr _ _ _)), (proj2 (uniform_depth _ Hthr _ _ _)).
  apply (fold_left_sim (fun st => aligned (non_edge_bits self) (x_bit_index st))); [|done]. intros st1 dy _ Hal1.
  apply (fold_left_sim (fun st => aligned (non_edge_bits self) (x_bit_index st))); [|done]. intros st2 dx _ Hal2.
  by apply extract_pixel_img_sim.
Qed.

Lemma extract_block_done width height y st x :
  total <= x_bit_index st -> extract_block self width height pixels total y st x = st.
Proof.
  intros Hdone. unfold extract_block. apply fold_left_skip. intros dy _.
  apply fold_left_skip. intros dx _. unfold extract_pixel.
  destruct (_ && _); [|done]. destruct (Nat.ltb_spec (x_bit_index st) total); [lia|done].
Qed.

Lemma extract_row_img_sim width height y xs st :
  aligned (non_edge_bits self) (x_bit_index st) ->
  extract_row_img self width height pixels total y xs st =
    fold_left (extract_block self width height pixels total y) xs st /\
  aligned (non_edge_bits self) (x_bit_index (fold_left (extract_block self width height pixels total y) xs st)).
Proof.
  revert st. induction xs as [|x xs IH]; intros st Hal; simpl; [done|].
  destruct (Nat.leb_spec total (x_bit_index st)) as [Hdone|Hlt].
  - rewrite extract_block_done by done.
    rewrite fold_left_skip; [done|]. intros. by apply extract_block_done.
  - destruct (extract_block_img_sim width height y st x Hal) as [-> Hal1]. by apply IH.
Qed.

End UniformExtract.

(** [extract_image] is the abstract extraction over the walk, followed by
    the decoding and the reshape. *)
Lemma extract_image_refines self pixels hidden_width hidden_height width height :
  (16 <= threshold self)%Z -> 0 < non_edge_bits self ->
  (hidden_width * hidden_height * 8 * 3) mod (3 * non_edge_bits self) = 0 ->
  block_width self <> 0 -> block_height self <> 0 -> img_size pixels = (width, height) ->
  extract_image self pixels (hidden_width, hidden_height) =
  (let total := hidden_width * hidden_height * 8 * 3 in
   let* values := decode_bytes (x_bits (fold_left (extract_visit pixels total)
                    (visits self width height (num_bits_of self pixels)) (mkExtract [] 0))) total in
   Ok (reshape_rgb hidden_height hidden_width values)).
Proof.
  intros Ht Hn Htot Hw Hh Hsize. unfold extract_image. rewrite Hsize, range_step_ok by done.
  autorewrite with stego_rw.
  rewrite (foldM_ext _ (fun st y => Ok (extract_row_img self width height pixels
    (hidden_width * hidden_height * 8 * 3) y (range_by width (block_width self)) st)))
    by (intros; by rewrite range_step_ok).
  rewrite foldM_pure. autorewrite with stego_rw. rewrite <- extract_rows_visits.
  erewrite (proj1 (fold_left_sim (fun st => aligned (non_edge_bits self) (x_bit_index st)) _
    (fun st y => fold_left (extract_block self width height pixels
       (hidden_width * hidden_height * 8 * 3) y) (range_by width (block_width self)) st) _ _ _ _)).
  { done. }
  Unshelve.
  - intros st y _ Hal. by apply extract_row_img_sim.
  - apply Nat.Div0.mod_0_l.
Qed.

(** ** The image round trip *)

Lemma length_hidden_to_bits hidden_width hidden_height hidden_pixels :
  wf_grid hidden_width hidden_height hidden_pixels ->
  length (hidden_to_bits hidden_pixels) = hidden_width * hidden_height * 8 * 3.
Proof.
  intros Hwf. change (hidden_to_bits hidden_pixels) with (message_to_bits (flatten hidden_pixels)).
  rewrite length_message_to_bits by (by eapply flatten_bytes).
  rewrite (length_flatten hidden_width hidden_height) by apply Hwf. lia.
Qed.

Lemma mod_3n_mod_n a n : a mod (3 * n) = 0 -> a mod n = 0.
Proof.
  intros H. destruct (decide (n = 0)) as [->|Hn]; [done|].
  pose proof (Nat.div_mod_eq a (3 * n)) as E. rewrite H, Nat.add_0_r in E. rewrite E.
  replace (3 * n * (a / (3 * n))) with ((3 * (a / (3 * n))) * n) by lia. apply Nat.Div0.mod_mul.
Qed.

(** The image round trip at a uniform depth: [extract_image] at the
    hidden image's size, on the array [embed_image] produced, returns the
    hidden image. *)
Lemma image_roundtrip_uniform_config self pixels hidden_pixels width height hidden_width hidden_height :
  block_width self <> 0 -> block_height self <> 0 ->
  (16 <= threshold self)%Z -> 0 < non_edge_bits self <= 8 ->
  shape width height pixels -> img_size pixels = (width, height) ->
  wf_grid hidden_width hidden_height hidden_pixels ->
  (hidden_width * hidden_height * 8 * 3) mod (3 * non_edge_bits self) = 0 ->
  hidden_width * hidden_height * 8 * 3 <= non_edge_bits self * (3 * width * height) ->
  (let* encrypted := embed_image self pixels hidden_pixels in
   extract_image self encrypted (hidden_width, hidden_height)) = Ok hidden_pixels.
Proof.
  intros Hw Hh Ht Hn Hs Hsize Hwf Hdiv Hfit.
  set (total := hidden_width * hidden_height * 8 * 3) in *.
  set (bits := hidden_to_bits hidden_pixels).
  assert (length bits = total) as Hlen by (by apply length_hidden_to_bits).
  rewrite (embed_image_refines _ _ _ width height) by (try fold bits; rewrite ?Hlen; (done || lia)).
  set (vs := visits self width height (num_bits_of self pixels)).
  destruct (flat_roundtrip width height bits vs pixels (total / non_edge_bits self)) as (st & Hrun & Hs' & Hx).
  - by apply visit_positions_NoDup.
  - apply visits_ok_walk. intros x y. rewrite uniform_num_bits; [lia|done].
  - done.
  - rewrite Hlen. apply uniform_prefix; try (done || lia). by apply mod_3n_mod_n.
  - fold bits. rewrite Hrun. simpl.
    rewrite (extract_image_refines _ _ _ _ width height); try (done || lia);
      [|rewrite <- Hsize; symmetry; by apply (shape_img_size width height)].
    assert (visits self width height (num_bits_of self (e_pixels st)) = vs) as ->.
    { apply visits_ext. intros x y. by rewrite !uniform_num_bits. }
    cbv zeta. unfold total in Hlen. rewrite <- Hlen, Hx.
    assert (length bits = length (flatten hidden_pixels) * 8) as ->
      by (apply length_message_to_bits; by eapply flatten_bytes).
    unfold bits, hidden_to_bits. rewrite <- (app_nil_r (flatten hidden_pixels ≫= format_bin 8)).
    rewrite decode_bytes_roundtrip by (by eapply flatten_bytes). simpl.
    f_equal. apply reshape_flatten, Hwf.
Qed.

(** ** The per-pixel test *)

(** A slice of [n] bits from [i] is empty exactly when it starts at or
    after the end, or [n = 0]. *)
Lemma slice_nil_iff {A} i n (l : list A) : slice i (i + n) l = [] <-> n = 0 \/ length l <= i.
Proof. rewrite <- length_zero_iff_nil, length_slice. lia. Qed.

(** ** Properties *)

(** C8. Refinement of the image embedding: at a uniform depth (threshold
    16 or more) and for a hidden image whose bits are a multiple of
    [3 * non_edge_bits], [embed_image], with its per-pixel test and its
    [break], is the abstract engine run over the walk of the carrier. *)
Theorem embed_image_visits self pixels hidden_pixels width height :
  (16 <= threshold self)%Z -> 0 < non_edge_bits self ->
  length (hidden_to_bits hidden_pixels) mod (3 * non_edge_bits self) = 0 ->
  block_width self <> 0 -> block_height self <> 0 ->
  shape width height pixels -> img_size pixels = (width, height) ->
  embed_image self pixels hidden_pixels =
  (let* st := foldM (embed_visit (hidden_to_bits hidden_pixels))
                (visits self width height (num_bits_of self pixels)) (mkEmbed pixels 0) in
   Ok (e_pixels st)).
Proof. apply embed_image_refines. Qed.

(** C9. Refinement of the image extraction: under the same conditions,
    [extract_image] is the abstract extraction over the walk followed by
    the decoding of the bytes and the reshape. *)
Theorem extract_image_visits self pixels hidden_width hidden_height width height :
  (16 <= threshold self)%Z -> 0 < non_edge_bits self ->
  (hidden_width * hidden_height * 8 * 3) mod (3 * non_edge_bits self) = 0 ->
  block_width self <> 0 -> block_height self <> 0 -> img_size pixels = (width, height) ->
  extract_image self pixels (hidden_width, hidden_height) =
  (let total := hidden_width * hidden_height * 8 * 3 in
   let* values := decode_bytes (x_bits (fold_left (extract_visit pixels total)
                    (visits self width height (num_bits_of self pixels)) (mkExtract [] 0))) total in
   Ok (reshape_rgb hidden_height hidden_width values)).
Proof. apply extract_image_refines. Qed.

(** C4. The image round trip for every configuration with a threshold of
    16 or more and a non-edge depth of 1 to 8 bits: when the [24 * w * h] bits of a [w x h] hidden [uint8]
    image are a multiple of [3 * non_edge_bits] and fit in
    [3 * non_edge_bits * width * height], [extract_image] at [(w, h)] on
    the array [embed_image] produced returns the hidden image. *)
Theorem image_roundtrip_uniform self pixels hidden_pixels width height hidden_width hidden_height :
  block_width self <> 0 -> block_height self <> 0 ->
  (16 <= threshold self)%Z -> 0 < non_edge_bits self <= 8 ->
  shape width height pixels -> img_size pixels = (width, height) ->
  wf_grid hidden_width hidden_height hidden_pixels ->
  (hidden_width * hidden_height * 8 * 3) mod (3 * non_edge_bits self) = 0 ->
  hidden_width * hidden_height * 8 * 3 <= non_edge_bits self * (3 * width * height) ->
  (let* encrypted := embed_image self pixels hidden_pixels in
   extract_image self encrypted (hidden_width, hidden_height)) = Ok hidden_pixels.
Proof. apply image_roundtrip_uniform_config. Qed.


(** The image engine, like the text engine, changes every channel by
    less than [2^k], [k] the larger depth. *)
Lemma embed_image_keeps_high self pixels hidden_pixels pixels' :
  (forall y x c, (0 <= px pixels y x c < 256)%Z) ->
  embed_image self pixels hidden_pixels = Ok pixels' ->
  high_bits_kept (Nat.max (edge_bits self) (non_edge_bits self)) pixels pixels'.
Proof.
  intros H0. apply (embed_image_preserves (Nat.max (edge_bits self) (non_edge_bits self)));
    [|lia|lia|by apply high_bits_kept_refl].
  intros. by eapply embed_bits_keeps_high.
Qed.

(** C13. The image engine raises [ValueError] ([int('', 2)]) when the
    payload ends within the first two channels of a pixel: it tests the
    cursor once per pixel and then cuts a chunk for each of the three
    channels, so a pixel that starts before the end of the hidden bits
    with at most [2 * num_bits] of them left cuts an empty chunk. *)
Theorem embed_pixel_img_raises width height hidden_bits x y num_bits dy st dx :
  x + dx < width -> y + dy < height ->
  e_bit_index st < length hidden_bits <= e_bit_index st + 2 * num_bits ->
  embed_pixel_img width height hidden_bits x y num_bits dy st dx = Raise ValueError.
Proof.
  intros Hx Hy Hlen. unfold embed_pixel_img.
  replace ((x + dx <? width) && (y + dy <? height) && (e_bit_index st <? length hidden_bits)) with true
    by (symmetry; rewrite !andb_true_iff, !Nat.ltb_lt; lia).
  cbn [range seq foldM]. set (i := e_bit_index st).
  destruct (decide (num_bits = 0)) as [->|Hn].
  { rewrite (proj2 (slice_nil_iff i 0 hidden_bits)) by lia. done. }
  destruct (slice i (i + num_bits) hidden_bits) as [|b0 r0]; [done|].
  cbn [rbind embed_bits int_base2 e_bit_index e_pixels].
  destruct (decide (length hidden_bits <= i + num_bits)) as [Hle|Hgt].
  { rewrite (proj2 (slice_nil_iff (i + num_bits) num_bits hidden_bits)) by lia. done. }
  destruct (slice (i + num_bits) (i + num_bits + num_bits) hidden_bits) as [|b1 r1]; [done|].
  cbn [rbind embed_bits int_base2 e_bit_index e_pixels].
  rewrite (proj2 (slice_nil_iff (i + num_bits + num_bits) num_bits hidden_bits)) by lia. done.
Qed.
