(* ===== verification/Histogram.v ===== *)
(** * The histogram diagnostic: [plot_histograms]

    Both sources end [main] with [plot_histograms(original, encrypted)]:
    it opens the two images with [Image.open(...).convert("L")],
    flattens them with [np.array(...).flatten()] and draws
    [plt.hist(values, bins=256, range=(0, 255))] of each.  What is drawn
    is the pair of histograms; the figure, titles and labels are output
    only.  The grayscale conversion is Pillow's fixed-point ITU-R 601-2
    luma ([luma]); the binning is NumPy's for equal bins, where a value
    [v] of [range=(0, 255)] falls in bin [int(v * 256 / 255)] and the
    last bin is closed ([hist_bin]).

    Proved here: on [uint8] images the binning is the identity on
    values ([hist_bin_byte]), so each histogram has 256 bins that count
    every pixel once ([plot_histograms_total]); the grayscale conversion
    moves by less than [2^k] when every channel does ([luma_close]), so
    the encrypted image [main] plots is, pixel for pixel, within [2^k]
    grey levels of the carrier, [k] the larger embedding depth
    ([plot_histograms_distortion]). *)

From Stdlib Require Import ZArith Lia.
From stdpp Require Import base list.
From S2P Require Import Prelude Bits Grid Classifier Walker Codec Embed ImageEngine.

Open Scope stego_scope.

(** ** The model *)

(** [Image.convert("L")] on one RGB pixel: Pillow's
    [(r * 19595 + g * 38470 + b * 7471 + 0x8000) >> 16]. *)
Definition luma (p : list Z) : Z :=
  match p with
  | [r; g; b] => Z.shiftr (r * 19595 + g * 38470 + b * 7471 + 32768) 16
  | _ => 0
  end%Z.

(** [np.array(Image.open(path).convert("L")).flatten()]. *)
Definition gray_values (pixels : grid) : list Z := concat (map (map luma) pixels).

(** The bin of [v] among [bins=256] equal bins of [range=(0, 255)]:
    [int((v - 0) * 256 / 255)], the value [255] going to the closed
    last bin; a value outside the range is not counted. *)
Definition hist_bin (v : Z) : option nat :=
  if ((0 <=? v) && (v <=? 255))%Z then
    let i := (v * 256 / 255)%Z in Some (Z.to_nat (if (i =? 256)%Z then 255 else i))
  else None.

(** [plt.hist(values, bins=256, range=(0, 255))]: the count of every bin. *)
Definition histogram (values : list Z) : list nat :=
  map (fun b => length (filter (fun v => hist_bin v = Some b) values)) (seq 0 256).

(** [plot_histograms(original_image_path, encrypted_image_path)]: the
    two histograms it draws. *)
Definition plot_histograms (original encrypted : grid) : list nat * list nat :=
  (histogram (gray_values original), histogram (gray_values encrypted)).

(** ** Binning *)

(** NumPy's binning puts every byte [v] in bin [v]. *)
Lemma hist_bin_byte v : (0 <= v <= 255)%Z -> hist_bin v = Some (Z.to_nat v).
Proof.
  intros Hv. unfold hist_bin. rewrite (proj2 (Z.leb_le 0 v)), (proj2 (Z.leb_le v 255)) by lia. simpl.
  replace (v * 256)%Z with (v * 255 + v)%Z by lia. rewrite Z.div_add_l by lia. f_equal.
  destruct (Z.eq_dec v 255%Z) as [->|Hne]; [done|].
  rewrite (Z.div_small v 255%Z), Z.add_0_r by lia. destruct (Z.eqb_spec v 256%Z); [lia|done].
Qed.

(** One value adds one to the count of its bin. *)
Lemma sum_counts_cons (f : Z -> option nat) v vs (bs : list nat) :
  sum_list (map (fun b => length (filter (fun v => f v = Some b) (v :: vs))) bs) =
  sum_list (map (fun b => length (filter (fun v => f v = Some b) vs)) bs) +
  length (filter (fun b => f v = Some b) bs).
Proof.
  induction bs as [|b bs IH]; simpl; [done|]. rewrite filter_cons, IH.
  destruct (decide (f v = Some b)); simpl; rewrite ?filter_cons_True, ?filter_cons_False by done; simpl; lia.
Qed.

Lemma count_seq k s n :
  length (filter (fun b => Some k = Some b) (seq s n)) = if bool_decide (s <= k < s + n) then 1 else 0.
Proof.
  revert s. induction n as [|n IH]; intros s; simpl; [by case_bool_decide; [lia|]|].
  rewrite filter_cons. destruct (decide (Some k = Some s)) as [[= ->]|Hne]; simpl; rewrite IH.
  - by repeat case_bool_decide; try lia.
  - assert (k <> s) by congruence. by repeat case_bool_decide; try lia.
Qed.

(** A histogram of bytes counts every value once. *)
Lemma histogram_total values :
  Forall (fun v => 0 <= v <= 255)%Z values -> sum_list (histogram values) = length values.
Proof.
  unfold histogram. induction 1 as [|v vs Hv _ IH]; [by induction (seq 0 256)|].
  rewrite sum_counts_cons, IH, (hist_bin_byte v) by done. rewrite count_seq.
  case_bool_decide; [simpl; lia|lia].
Qed.

Lemma length_histogram values : length (histogram values) = 256.
Proof. unfold histogram. by rewrite length_map, length_seq. Qed.

(** ** Grayscale *)

Lemma luma_range p : Forall (fun v => 0 <= v < 256)%Z p -> (0 <= luma p <= 255)%Z.
Proof.
  intros Hp. destruct p as [|r [|g [|b [|? ?]]]]; simpl; try lia.
  apply Forall_cons in Hp as [Hr Hp]. apply Forall_cons in Hp as [Hg Hp]. apply Forall_cons in Hp as [Hb _].
  rewrite Z.shiftr_div_pow2 by lia. change (2 ^ 16)%Z with 65536%Z. Z.div_mod_to_equations. lia.
Qed.

(** Pillow's weights add up to [2^16], so the luma moves by less than
    [M] when every channel does. *)
Lemma luma_close p q (M : Z) :
  (0 < M)%Z -> Forall2 (fun a b => Z.abs (a - b) < M)%Z p q -> (Z.abs (luma p - luma q) < M)%Z.
Proof.
  intros HM Hpq. destruct Hpq as [|r r' p q Hr Hpq]; [simpl; lia|].
  destruct Hpq as [|g g' p q Hg Hpq]; [simpl; lia|].
  destruct Hpq as [|b b' p q Hb Hpq]; [simpl; lia|]. destruct Hpq; [|simpl; lia].
  simpl. rewrite !Z.shiftr_div_pow2 by lia. change (2 ^ 16)%Z with 65536%Z.
  Z.div_mod_to_equations. lia.
Qed.

Lemma gray_values_range width height pixels :
  wf_grid width height pixels -> Forall (fun v => 0 <= v <= 255)%Z (gray_values pixels).
Proof.
  intros [_ Hv]. apply Forall_concat_2, Forall_fmap. eapply Forall_impl; [exact Hv|].
  intros row Hrow. apply Forall_fmap. eapply Forall_impl; [exact Hrow|]. intros p Hp.
  unfold compose. pose proof (luma_range p Hp). lia.
Qed.

Lemma length_gray_values width height pixels :
  shape width height pixels -> length (gray_values pixels) = width * height.
Proof.
  intros [Hh Hrows]. unfold gray_values. rewrite (length_concat_uniform _ width), length_map; [lia|].
  apply Forall_fmap. eapply Forall_impl; [exact Hrows|]. intros row [Hw _]. unfold compose. by rewrite length_map.
Qed.

(** Arrays of the same shape whose channels differ by less than [M]
    have grayscale values that differ by less than [M]. *)
Lemma gray_values_close width height g1 g2 (M : Z) :
  (0 < M)%Z -> shape width height g1 -> shape width height g2 ->
  (forall y x c, Z.abs (px g1 y x c - px g2 y x c) < M)%Z ->
  Forall2 (fun a b => Z.abs (a - b) < M)%Z (gray_values g1) (gray_values g2).
Proof.
  intros HM Hs1 Hs2 Hc. apply Forall2_concat_2, Forall2_fmap.
  eapply Forall2_impl; [apply (shape_Forall2 width height g1 g2 (fun a b => Z.abs (a - b) < M)%Z); auto|].
  intros r1 r2 Hr. apply Forall2_fmap. eapply Forall2_impl; [exact Hr|]. intros p q Hpq.
  by apply luma_close.
Qed.

(** ** Properties *)

(** C24. [plot_histograms] on two [uint8] RGB images of [width x height]
    pixels draws two histograms of 256 bins, each counting every pixel
    exactly once: NumPy's closed last bin keeps the value 255. *)
Theorem plot_histograms_total original encrypted width height :
  wf_grid width height original -> wf_grid width height encrypted ->
  length (plot_histograms original encrypted).1 = 256 /\
  sum_list (plot_histograms original encrypted).1 = width * height /\
  length (plot_histograms original encrypted).2 = 256 /\
  sum_list (plot_histograms original encrypted).2 = width * height.
Proof.
  intros Ho He. unfold plot_histograms. cbn [fst snd].
  rewrite !length_histogram, !histogram_total by (by eapply gray_values_range).
  by rewrite !(length_gray_values width height) by (apply Ho || apply He).
Qed.

(** C21. What [main] of the text source plots: the grayscale values of
    the encrypted image differ from the carrier's, pixel for pixel, by
    less than [2^k], [k] the larger embedding depth ([2^4] at the
    defaults). *)
Theorem plot_histograms_distortion self pixels message pixels' width height :
  block_width self <> 0 -> block_height self <> 0 ->
  wf_grid width height pixels -> img_size pixels = (width, height) ->
  embed_message self pixels message = Ok pixels' ->
  Forall2 (fun a b => Z.abs (a - b) < 2 ^ Z.of_nat (Nat.max (edge_bits self) (non_edge_bits self)))%Z
    (gray_values pixels) (gray_values pixels').
Proof.
  intros Hw Hh Hwf Hsize Hemb.
  apply (gray_values_close width height); [lia|apply Hwf| |].
  - eapply embed_message_keeps_shape; [exact Hw|exact Hh|apply Hwf|exact Hsize|exact Hemb].
  - intros y x c. rewrite <- Z.abs_opp, Z.opp_sub_distr, Z.add_opp_l. by eapply embed_message_distortion.
Qed.
