(* ===== verification/App.v ===== *)
(** * The command-line drivers: [main] of both sources

    [main] of the text source embeds a fixed message into
    ['/content/new-small.png'] with the default configuration, saves the
    result as ['encrypted_image.png'], reads it back, extracts as many
    characters as the message has, prints them and plots the histograms
    of the two images.  [main] of the image source embeds
    ['/content/new-small.png'] into ['/content/new-large.png'], saves and
    reads back the result, extracts at [Image.open(hidden_image_path).size],
    saves ['extracted_image.png'] and plots the histograms.

    A run of [main] is a [script]: a state of the [world] (the image
    files, the lines printed, the figures drawn) threaded through the
    statements, and an exception that stops the run but keeps what was
    already printed or saved, as Python does ([sbind], [let!]).  The
    primitives are [Image.open(path).convert("RGB")] ([image_open], a
    [FileNotFoundError] on a missing file), [image.save(path)]
    ([image_save]), [print] ([print_line]) and the figure
    [plot_histograms] draws ([draw]); the engines' [ValueError] is
    raised with [lift_result].  A PNG stores an RGB [uint8] array
    losslessly, so saving and reopening is the identity on the array.

    Proved here: [main] of the text source prints back its message on
    every carrier with a row that holds its bits, one bit per channel
    ([main_text_prints_message]); [main] of the image source saves the
    hidden image as ['extracted_image.png'] on every carrier that holds
    its bits ([main_image_saves_hidden]); a missing carrier stops the
    text driver with [FileNotFoundError] after its first line
    ([main_text_missing_carrier]). *)

From Stdlib Require Import ZArith Lia.
From stdpp Require Import base list strings gmap.
From S2P Require Import Prelude PyStr Bits Grid Classifier Walker Codec Embed Extract RoundTrip ImageEngine Histogram.

Open Scope stego_scope.

(** ** The world and the script monad *)

(** What a run of [main] reads and changes. *)
Record world : Type := mkWorld {
  w_files : gmap string grid;
  w_stdout : list (list Z);
  w_figures : list (list nat * list nat)
}.

(** The exceptions that stop [main]. *)
Inductive main_error : Type :=
  | PyError (e : py_error)
  | FileNotFoundError (path : string).

(** A statement of [main]: the world after it, and its value or the
    exception it raised. *)
Definition script (A : Type) : Type := world -> (main_error + A) * world.

Definition sret {A} (a : A) : script A := fun w => (inr a, w).

Definition sbind {A B} (m : script A) (k : A -> script B) : script B :=
  fun w => match m w with
           | (inr a, w') => k a w'
           | (inl e, w') => (inl e, w')
           end.

Notation "'let!' x ':=' m 'in' k" := (sbind m (fun x => k))
  (at level 100, x name, m at level 99, k at level 200) : stego_scope.

Definition sraise {A} (e : main_error) : script A := fun w => (inl e, w).

(** A computation of the engines that may raise [ValueError]. *)
Definition lift_result {A} (r : result A) : script A :=
  match r with
  | Ok a => sret a
  | Raise e => sraise (PyError e)
  end.

(** [np.array(Image.open(path).convert("RGB"))]. *)
Definition image_open (path : string) : script grid :=
  fun w => match w_files w !! path with
           | Some pixels => (inr pixels, w)
           | None => (inl (FileNotFoundError path), w)
           end.

(** [Image.fromarray(pixels).save(path)]. *)
Definition image_save (path : string) (pixels : grid) : script unit :=
  fun w => (inr tt, mkWorld (<[path := pixels]> (w_files w)) (w_stdout w) (w_figures w)).

(** [print(...)]: one line. *)
Definition print_line (line : list Z) : script unit :=
  fun w => (inr tt, mkWorld (w_files w) (w_stdout w ++ [line]) (w_figures w)).

(** [plt.show()] of the two histograms. *)
Definition draw (hists : list nat * list nat) : script unit :=
  fun w => (inr tt, mkWorld (w_files w) (w_stdout w) (w_figures w ++ [hists])).

(** ** The two drivers *)

(** The message literal of the text source's [main]. *)
Definition main_message : list Z :=
  pystr "ome differences may sdlffildsjfd kslsdnfldsnvdklv dsflksdfjkldsjfds sdlkfjsdkfj in the histograms, an effective steganographic technique ensures that these changes remain subtle, preserving the image's appearance while effectively hiding the message.".

(** [main()] of the text source; [print("Extracted message:", m)]
    separates its two arguments by a space, and [print("\n")] prints a
    newline character. *)
Definition main_text : script unit :=
  let image_path := "/content/new-small.png" in
  let message := main_message in
  let stego := default_stego in
  let! _ := print_line (pystr "Embedding message...") in
  let! pixels := image_open image_path in
  let! encrypted_image := lift_result (embed_message stego pixels message) in
  let encrypted_image_path := "encrypted_image.png" in
  let! _ := image_save encrypted_image_path encrypted_image in
  let! _ := print_line (pystr "Message embedded and saved as 'encrypted_image.png'") in
  let! _ := print_line (pystr "Extracting message...") in
  let! encrypted_pixels := image_open encrypted_image_path in
  let! extracted_message := lift_result (extract_message stego encrypted_pixels (length message)) in
  let! _ := print_line (pystr "Extracted message: " ++ extracted_message) in
  let! _ := print_line [10%Z] in
  let! original := image_open image_path in
  let! encrypted := image_open encrypted_image_path in
  draw (plot_histograms original encrypted).

(** [main()] of the image source: [embed_image] opens the cover, then
    the hidden image; the size argument of [extract_image] is evaluated
    before [extract_image] opens the encrypted file. *)
Definition main_image : script unit :=
  let image_path := "/content/new-large.png" in
  let hidden_image_path := "/content/new-small.png" in
  let stego := default_stego_img in
  let! _ := print_line (pystr "Embedding hidden image...") in
  let! pixels := image_open image_path in
  let! hidden_pixels := image_open hidden_image_path in
  let! encrypted_image := lift_result (embed_image stego pixels hidden_pixels) in
  let! _ := image_save "encrypted_image.png" encrypted_image in
  let! _ := print_line (pystr "Hidden image embedded and saved as 'encrypted_image.png'") in
  let! _ := print_line (pystr "Extracting hidden image...") in
  let! hidden_image := image_open hidden_image_path in
  let! encrypted_pixels := image_open "encrypted_image.png" in
  let! extracted_image := lift_result (extract_image stego encrypted_pixels (img_size hidden_image)) in
  let! _ := image_save "extracted_image.png" extracted_image in
  let! _ := print_line (pystr "Hidden image extracted and saved as 'extracted_image.png'") in
  let! original := image_open image_path in
  let! encrypted := image_open "encrypted_image.png" in
  draw (plot_histograms original encrypted).

(** ** The statements, one at a time *)

Lemma print_line_bind {B} line (k : unit -> script B) w :
  sbind (print_line line) k w = k tt (mkWorld (w_files w) (w_stdout w ++ [line]) (w_figures w)).
Proof. done. Qed.

Lemma image_save_bind {B} path pixels (k : unit -> script B) w :
  sbind (image_save path pixels) k w = k tt (mkWorld (<[path := pixels]> (w_files w)) (w_stdout w) (w_figures w)).
Proof. done. Qed.

Lemma image_open_bind {B} path pixels (k : grid -> script B) w :
  w_files w !! path = Some pixels -> sbind (image_open path) k w = k pixels w.
Proof. intros Hp. unfold sbind, image_open. by rewrite Hp. Qed.

Lemma image_open_missing {B} path (k : grid -> script B) w :
  w_files w !! path = None -> sbind (image_open path) k w = (inl (FileNotFoundError path), w).
Proof. intros Hp. unfold sbind, image_open. by rewrite Hp. Qed.

Lemma lift_result_bind {A B} (r : result A) a (k : A -> script B) w :
  r = Ok a -> sbind (lift_result r) k w = k a w.
Proof. by intros ->. Qed.

(** Runs the statements of a script whose files are known: prints,
    saves and opens of a path just saved or listed in the hypotheses. *)
Ltac run_script :=
  repeat first
    [ rewrite print_line_bind
    | rewrite image_save_bind
    | erewrite image_open_bind
        by (cbn [w_files];
            repeat first [rewrite lookup_insert_eq | rewrite lookup_insert_ne by discriminate];
            first [reflexivity | eassumption])
    | progress cbv beta ].

Lemma main_message_bytes : Forall (fun c => 0 <= c < 256)%Z main_message.
Proof. apply (bool_decide_eq_true_1 _). vm_compute. reflexivity. Qed.

Lemma length_main_message : length main_message = 250.
Proof. vm_compute. reflexivity. Qed.

(** ** Properties *)

(** C1. End to end: on every carrier ['/content/new-small.png'] with a
    row whose channels hold the [8 * 250] bits of the message, [main] of
    the text source prints its four progress lines with the message
    itself after "Extracted message:", saves ['encrypted_image.png'] and
    draws the histograms of the carrier and of that file. *)
Theorem main_text_prints_message w pixels width height :
  w_files w !! "/content/new-small.png" = Some pixels ->
  shape width height pixels -> 0 < height ->
  length main_message * 8 <= 3 * width * height ->
  exists encrypted,
    main_text w =
    (inr tt, mkWorld (<["encrypted_image.png" := encrypted]> (w_files w))
       (w_stdout w ++ [pystr "Embedding message...";
                       pystr "Message embedded and saved as 'encrypted_image.png'";
                       pystr "Extracting message...";
                       pystr "Extracted message: " ++ main_message; [10%Z]])
       (w_figures w ++ [plot_histograms pixels encrypted])).
Proof.
  intros Hp Hs Hh Hfit.
  assert (text_pipeline default_stego pixels main_message = Ok main_message) as Hrt.
  { apply (pipeline_uniform _ _ _ width height); try (simpl; lia); try done.
    - by apply img_size_shape; [|lia].
    - apply main_message_bytes.
    - change (non_edge_bits default_stego) with 1. lia. }
  unfold text_pipeline in Hrt.
  destruct (embed_message default_stego pixels main_message) as [encrypted|e] eqn:He; [|discriminate].
  exists encrypted. unfold main_text. cbv zeta. run_script.
  rewrite (lift_result_bind _ encrypted) by done. run_script.
  rewrite (lift_result_bind _ main_message) by done. run_script.
  unfold draw. cbn [w_files w_stdout w_figures]. by rewrite <- !app_assoc.
Qed.

(** C2. End to end: on every carrier ['/content/new-large.png'] with a
    row and every [uint8] RGB image ['/content/new-small.png'] with a row
    whose [24 * w * h] bits fit in the carrier's channels, [main] of the
    image source saves the hidden image as ['extracted_image.png'],
    prints its three lines and draws the histograms. *)
Theorem main_image_saves_hidden w pixels hidden_pixels width height hidden_width hidden_height :
  w_files w !! "/content/new-large.png" = Some pixels ->
  w_files w !! "/content/new-small.png" = Some hidden_pixels ->
  shape width height pixels -> 0 < height ->
  wf_grid hidden_width hidden_height hidden_pixels -> 0 < hidden_height ->
  hidden_width * hidden_height * 8 * 3 <= 3 * width * height ->
  exists encrypted,
    main_image w =
    (inr tt, mkWorld (<["extracted_image.png" := hidden_pixels]> (<["encrypted_image.png" := encrypted]> (w_files w)))
       (w_stdout w ++ [pystr "Embedding hidden image...";
                       pystr "Hidden image embedded and saved as 'encrypted_image.png'";
                       pystr "Extracting hidden image...";
                       pystr "Hidden image extracted and saved as 'extracted_image.png'"])
       (w_figures w ++ [plot_histograms pixels encrypted])).
Proof.
  intros Hp Hq Hs Hh Hwf Hhh Hfit.
  assert ((let* encrypted := embed_image default_stego pixels hidden_pixels in
           extract_image default_stego encrypted (hidden_width, hidden_height)) = Ok hidden_pixels) as Hrt.
  { apply (image_roundtrip_uniform_config _ _ _ width height); try (simpl; lia); try done.
    - apply img_size_shape; [done|lia].
    - change (3 * non_edge_bits default_stego) with 3. apply Nat.Div0.mod_mul. }
  destruct (embed_image default_stego pixels hidden_pixels) as [encrypted|e] eqn:He; [|discriminate].
  exists encrypted. unfold main_image. cbv zeta. change default_stego_img with default_stego. run_script.
  rewrite (lift_result_bind _ encrypted) by done. run_script.
  rewrite (img_size_shape hidden_width hidden_height) by (apply Hwf || lia).
  rewrite (lift_result_bind _ hidden_pixels) by done. run_script.
  unfold draw. cbn [w_files w_stdout w_figures]. by rewrite <- !app_assoc.
Qed.

(** C34. Error path: without the carrier ['/content/new-small.png'],
    [main] of the text source prints "Embedding message...", then
    [Image.open] raises [FileNotFoundError]; nothing is saved or drawn. *)
Theorem main_text_missing_carrier w :
  w_files w !! "/content/new-small.png" = None ->
  main_text w =
  (inl (FileNotFoundError "/content/new-small.png"),
   mkWorld (w_files w) (w_stdout w ++ [pystr "Embedding message..."]) (w_figures w)).
Proof. intros Hp. unfold main_text. cbv zeta. rewrite print_line_bind. by apply image_open_missing. Qed.
