(* ===== verification/Widgets.v ===== *)
(** * The [RoundedButton] widget of both windows

    Both GUI sources define the same [RoundedButton(Canvas)]: a canvas
    of [width + 2 * padx] by [height + 2 * pady] pixels, a smoothed
    polygon through the 12 corner points [rounded_rectangle] computes
    for the rectangle [(padx, pady)]-[(width + padx, height + pady)]
    with [radius=25], the label text at the canvas centre, and a click
    on the canvas or on the text that calls [command()] ([on_click]).
    [command] is the window's callback; here it is a parameter [C] (the
    events of [TextGui] and [ImageGui] in the windows).  The text
    position [(width + 2 * padx) / 2] is a Python true division, a
    rational ([Q]).

    Proved here: the polygon's points lie on the border of the
    rectangle, hence inside the canvas, whenever the radius is at most
    half of each side ([rounded_rectangle_inside]) -- every button of
    both windows has [height=50] and [radius=25], the limit --, and the
    text is centred on the rectangle ([rounded_button_text_centred]). *)

From Stdlib Require Import ZArith QArith Lia.
From stdpp Require Import base list.
From S2P Require Import Prelude.

Open Scope stego_scope.

(** [rounded_rectangle(x1, y1, x2, y2, radius)]: the flat list
    [points] it passes to [create_polygon]. *)
Definition rounded_rectangle (x1 y1 x2 y2 radius : Z) : list Z :=
  [x1 + radius; y1;
   x2 - radius; y1;
   x2; y1;
   x2; y1 + radius;
   x2; y2 - radius;
   x2; y2;
   x2 - radius; y2;
   x1 + radius; y2;
   x1; y2;
   x1; y2 - radius;
   x1; y1 + radius;
   x1; y1]%Z.

(** What [RoundedButton.__init__] builds. *)
Record rounded_button (C : Type) : Type := mkButton {
  canvas_width : Z;
  canvas_height : Z;
  polygon : list Z;
  text_position : Q * Q;
  command : C
}.
Arguments mkButton {C}.
Arguments canvas_width {C}.
Arguments canvas_height {C}.
Arguments polygon {C}.
Arguments text_position {C}.
Arguments command {C}.

(** [RoundedButton(parent, text, command, width, height, padx, pady)]. *)
Definition RoundedButton {C} (command : C) (width height padx pady : Z) : rounded_button C :=
  mkButton (width + 2 * padx)%Z (height + 2 * pady)%Z
    (rounded_rectangle padx pady (width + padx) (height + pady) 25)
    (inject_Z (width + 2 * padx) / 2, inject_Z (height + 2 * pady) / 2)%Q
    command.

(** The default arguments [width=200, height=50, padx=20, pady=10]. *)
Definition RoundedButton_default {C} (command : C) : rounded_button C :=
  RoundedButton command 200 50 20 10.

(** [on_click]: a click on the canvas or its text runs [self.command()]. *)
Definition on_click {C} (b : rounded_button C) : C := command b.

(** ** Geometry *)

(** Every [(x, y)] pair of a flat point list lies in [[x1, x2] x [y1, y2]]. *)
Fixpoint points_within (x1 y1 x2 y2 : Z) (pts : list Z) : Prop :=
  match pts with
  | x :: y :: pts' => (x1 <= x <= x2)%Z /\ (y1 <= y <= y2)%Z /\ points_within x1 y1 x2 y2 pts'
  | [] => True
  | [_] => False
  end.

Lemma rounded_rectangle_within x1 y1 x2 y2 radius :
  (0 <= radius)%Z -> (2 * radius <= x2 - x1)%Z -> (2 * radius <= y2 - y1)%Z ->
  points_within x1 y1 x2 y2 (rounded_rectangle x1 y1 x2 y2 radius).
Proof. intros. simpl. lia. Qed.

Lemma points_within_weaken x1 y1 x2 y2 x1' y1' x2' y2' :
  (x1' <= x1)%Z -> (y1' <= y1)%Z -> (x2 <= x2')%Z -> (y2 <= y2')%Z ->
  forall pts, points_within x1 y1 x2 y2 pts -> points_within x1' y1' x2' y2' pts.
Proof.
  intros ????. fix IH 1. intros [|x [|y pts]]; simpl; [done|done|].
  intros (? & ? & Hr). split; [lia|split; [lia|]]. by apply IH.
Qed.

(** The polygon of a button lies inside its canvas when the radius [25]
    is at most half of its width and height. *)
Lemma rounded_rectangle_inside {C} (cmd : C) width height padx pady :
  (0 <= padx)%Z -> (0 <= pady)%Z -> (50 <= width)%Z -> (50 <= height)%Z ->
  points_within 0 0 (canvas_width (RoundedButton cmd width height padx pady))
    (canvas_height (RoundedButton cmd width height padx pady))
    (polygon (RoundedButton cmd width height padx pady)).
Proof.
  intros. unfold RoundedButton. cbn [canvas_width canvas_height polygon].
  apply (points_within_weaken padx pady (width + padx) (height + pady)); try lia.
  apply rounded_rectangle_within; lia.
Qed.

(** The label is drawn at the centre of the rounded rectangle. *)
Lemma rounded_button_text_centred {C} (cmd : C) width height padx pady :
  (fst (text_position (RoundedButton cmd width height padx pady)) ==
     (inject_Z padx + inject_Z (width + padx)) / 2)%Q /\
  (snd (text_position (RoundedButton cmd width height padx pady)) ==
     (inject_Z pady + inject_Z (height + pady)) / 2)%Q.
Proof.
  simpl. rewrite <- !inject_Z_plus.
  replace (padx + (width + padx))%Z with (width + 2 * padx)%Z by lia.
  replace (pady + (height + pady))%Z with (height + 2 * pady)%Z by lia.
  split; reflexivity.
Qed.
