(* ===== verification/TextGui.v ===== *)
(** * The text front end: [TextSteganographyGUI]

    [src/Embedd Text/text_steganography_gui.py] is a Tkinter window with
    an Encode tab and a Decode tab.  Its state is what the handlers read
    and write: per tab the chosen file ([self.encode_file_path], set only
    once a file was chosen, hence an [option]), the file label, the
    [Entry] text and the status label ([tab]); the error dialogs shown
    ([messagebox.showerror]); the worker threads started but not yet run
    ([threading.Thread(...).start()]); the exceptions that escaped a
    callback (Tk prints them and goes on); and the image files on disk,
    as the arrays [Image.open(...).convert("RGB")] reads from them
    ([text_gui]).  Each callback of the source is a function on this state
    ([select_encode_file], [start_encoding], [encode_message], ...), the
    user's actions and the scheduling of a worker are the [event]s, and
    [step] dispatches an event the way the Tk main loop does.  A worker
    runs at any later point, between any two user events ([ThreadRuns]
    picks one of the started threads), and runs to the end; widget
    layout and styling are not modelled.

    Proved here: encoding a message through the window and decoding the
    saved file with its length gives the message back
    ([gui_text_roundtrip]); every reachable state keeps the files [uint8]
    RGB arrays and starts workers only with a validated message
    ([gui_invariant]); a cancelled file dialog shows "No file selected"
    while the previously chosen file is still the one encoded
    ([cancel_keeps_path]); a length [str.isdigit] accepts but [int]
    rejects leaves the decode tab "in progress" for good
    ([superscript_length_stuck]); a pending decode worker decodes the file
    chosen when DECODE was clicked, whatever is chosen afterwards
    ([decode_keeps_clicked_path]). *)

From Stdlib Require Import ZArith Lia.
From stdpp Require Import base list strings gmap.
From S2P Require Import Prelude PyStr Bits Grid Classifier Walker Codec Embed Extract RoundTrip.

Open Scope stego_scope.

Module TextSteganographyGUI.

(** ** The window's state *)

(** The text of a file label. *)
Inductive label_text : Type :=
  | NoFileSelected
  | SelectedFile (name : string).

(** The exceptions a worker catches and shows as [f"Error: {e}"]. *)
Inductive exc : Type :=
  | PyExc (e : py_error)
  | FileNotFound (path : string).

(** The texts of a status label. *)
Inductive status : Type :=
  | StatusBlank
  | EncodingInProgress
  | EncodingSuccessful (save_path : string)
  | DecodingInProgress
  | DecodedMessage (message : list Z)
  | StatusError (e : exc).

(** The [messagebox.showerror] dialogs. *)
Inductive dialog : Type :=
  | NoImageForEncoding
  | EmptyMessage
  | NoImageForDecoding
  | InvalidLength.

(** A started worker: [encode_message(file_path, message)] or
    [decode_message(file_path, length)]. *)
Inductive job : Type :=
  | EncodeJob (file_path : string) (message : list Z)
  | DecodeJob (file_path : string) (length : nat).

(** One tab's widgets. *)
Record tab : Type := mkTab {
  file_path : option string;
  file_label : label_text;
  entry : list Z;
  status_label : status
}.

Record text_gui : Type := mkTextGui {
  encode_tab : tab;
  decode_tab : tab;
  dialogs : list dialog;
  threads : list job;
  tracebacks : list py_error;
  files : gmap string grid
}.

Definition set_file_path (p : string) (t : tab) : tab :=
  mkTab (Some p) (file_label t) (entry t) (status_label t).
Definition set_file_label (l : label_text) (t : tab) : tab :=
  mkTab (file_path t) l (entry t) (status_label t).
Definition set_entry (text : list Z) (t : tab) : tab :=
  mkTab (file_path t) (file_label t) text (status_label t).
Definition set_status (s : status) (t : tab) : tab :=
  mkTab (file_path t) (file_label t) (entry t) s.

Definition map_encode_tab (f : tab -> tab) (g : text_gui) : text_gui :=
  mkTextGui (f (encode_tab g)) (decode_tab g) (dialogs g) (threads g) (tracebacks g) (files g).
Definition map_decode_tab (f : tab -> tab) (g : text_gui) : text_gui :=
  mkTextGui (encode_tab g) (f (decode_tab g)) (dialogs g) (threads g) (tracebacks g) (files g).
Definition show_error (d : dialog) (g : text_gui) : text_gui :=
  mkTextGui (encode_tab g) (decode_tab g) (dialogs g ++ [d]) (threads g) (tracebacks g) (files g).
Definition start_thread (j : job) (g : text_gui) : text_gui :=
  mkTextGui (encode_tab g) (decode_tab g) (dialogs g) (threads g ++ [j]) (tracebacks g) (files g).
Definition set_threads (js : list job) (g : text_gui) : text_gui :=
  mkTextGui (encode_tab g) (decode_tab g) (dialogs g) js (tracebacks g) (files g).
Definition report_callback_exception (e : py_error) (g : text_gui) : text_gui :=
  mkTextGui (encode_tab g) (decode_tab g) (dialogs g) (threads g) (tracebacks g ++ [e]) (files g).
Definition save_file (p : string) (pixels : grid) (g : text_gui) : text_gui :=
  mkTextGui (encode_tab g) (decode_tab g) (dialogs g) (threads g) (tracebacks g) (<[p := pixels]> (files g)).

(** The window as [__init__] leaves it, over a given disk. *)
Definition initial_gui (disk : gmap string grid) : text_gui :=
  mkTextGui (mkTab None NoFileSelected [] StatusBlank) (mkTab None NoFileSelected [] StatusBlank)
    [] [] [] disk.

(** ** The callbacks *)

(** [os.path.join("assets", "encrypted_image.png")]. *)
Definition encrypted_save_path : string := "assets/encrypted_image.png".

(** [select_encode_file], given what [askopenfilename] returned ([""]
    when the dialog was cancelled). *)
Definition select_encode_file (file_path : string) (g : text_gui) : text_gui :=
  if bool_decide (file_path <> "") then
    map_encode_tab (fun t => set_file_label (SelectedFile (basename file_path)) (set_file_path file_path t)) g
  else map_encode_tab (set_file_label NoFileSelected) g.

(** [select_decode_file]. *)
Definition select_decode_file (file_path : string) (g : text_gui) : text_gui :=
  if bool_decide (file_path <> "") then
    map_decode_tab (fun t => set_file_label (SelectedFile (basename file_path)) (set_file_path file_path t)) g
  else map_decode_tab (set_file_label NoFileSelected) g.

(** [start_encoding]. *)
Definition start_encoding (g : text_gui) : text_gui :=
  match file_path (encode_tab g) with
  | None => show_error NoImageForEncoding g
  | Some encode_file_path =>
      let message := py_strip (entry (encode_tab g)) in
      if bool_decide (message = []) then show_error EmptyMessage g
      else start_thread (EncodeJob encode_file_path message)
             (map_encode_tab (set_status EncodingInProgress) g)
  end.

(** The worker [encode_message(file_path, message)]: its [try] shows any
    exception in the status label. *)
Definition encode_message (file_path : string) (message : list Z) (g : text_gui) : text_gui :=
  let save_path := encrypted_save_path in
  match files g !! file_path with
  | None => map_encode_tab (set_status (StatusError (FileNotFound file_path))) g
  | Some pixels =>
      match embed_message default_stego pixels message with
      | Ok encrypted_image =>
          map_encode_tab (set_status (EncodingSuccessful save_path))
            (save_file save_path encrypted_image g)
      | Raise e => map_encode_tab (set_status (StatusError (PyExc e))) g
      end
  end.

(** [start_decoding]: the status label is set before [int(length)] is
    evaluated for the thread's arguments, and an exception there escapes
    the callback. *)
Definition start_decoding (g : text_gui) : text_gui :=
  match file_path (decode_tab g) with
  | None => show_error NoImageForDecoding g
  | Some decode_file_path =>
      let length := py_strip (entry (decode_tab g)) in
      if negb (py_isdigit length) then show_error InvalidLength g
      else
        let g1 := map_decode_tab (set_status DecodingInProgress) g in
        match py_int length with
        | Ok n => start_thread (DecodeJob decode_file_path (Z.to_nat n)) g1
        | Raise e => report_callback_exception e g1
        end
  end.

(** The worker [decode_message(file_path, length)]. *)
Definition decode_message_job (file_path : string) (length : nat) (g : text_gui) : text_gui :=
  match files g !! file_path with
  | None => map_decode_tab (set_status (StatusError (FileNotFound file_path))) g
  | Some pixels =>
      match extract_message default_stego pixels length with
      | Ok message => map_decode_tab (set_status (DecodedMessage message)) g
      | Raise e => map_decode_tab (set_status (StatusError (PyExc e))) g
      end
  end.

Definition run_job (j : job) : text_gui -> text_gui :=
  match j with
  | EncodeJob p m => encode_message p m
  | DecodeJob p n => decode_message_job p n
  end.

(** ** Events and the main loop *)

Inductive event : Type :=
  | SelectEncodeFile (file_path : string)
  | SelectDecodeFile (file_path : string)
  | TypeMessage (text : list Z)
  | TypeLength (text : list Z)
  | ClickEncode
  | ClickDecode
  | ThreadRuns (n : nat).

Definition step (e : event) (g : text_gui) : text_gui :=
  match e with
  | SelectEncodeFile p => select_encode_file p g
  | SelectDecodeFile p => select_decode_file p g
  | TypeMessage text => map_encode_tab (set_entry text) g
  | TypeLength text => map_decode_tab (set_entry text) g
  | ClickEncode => start_encoding g
  | ClickDecode => start_decoding g
  | ThreadRuns n =>
      match threads g !! n with
      | Some j => run_job j (set_threads (delete n (threads g)) g)
      | None => g
      end
  end.

Definition run (es : list event) (g : text_gui) : text_gui := fold_left (fun g e => step e g) es g.

(** The states the window can reach from a start state. *)
Inductive reachable (g0 : text_gui) : text_gui -> Prop :=
  | reach_init : reachable g0 g0
  | reach_step e g : reachable g0 g -> reachable g0 (step e g).

(** ** The callbacks, branch by branch *)

Lemma select_encode_file_chosen p g :
  p <> "" ->
  select_encode_file p g =
  map_encode_tab (fun t => set_file_label (SelectedFile (basename p)) (set_file_path p t)) g.
Proof. intros Hp. unfold select_encode_file. by rewrite bool_decide_eq_true_2. Qed.

Lemma select_decode_file_chosen p g :
  p <> "" ->
  select_decode_file p g =
  map_decode_tab (fun t => set_file_label (SelectedFile (basename p)) (set_file_path p t)) g.
Proof. intros Hp. unfold select_decode_file. by rewrite bool_decide_eq_true_2. Qed.

Lemma start_encoding_starts g p :
  file_path (encode_tab g) = Some p -> py_strip (entry (encode_tab g)) <> [] ->
  start_encoding g =
  start_thread (EncodeJob p (py_strip (entry (encode_tab g))))
    (map_encode_tab (set_status EncodingInProgress) g).
Proof. intros Hp Hm. unfold start_encoding. rewrite Hp. by rewrite bool_decide_eq_false_2. Qed.

Lemma encode_message_saves p m g pixels pixels' :
  files g !! p = Some pixels -> embed_message default_stego pixels m = Ok pixels' ->
  encode_message p m g =
  map_encode_tab (set_status (EncodingSuccessful encrypted_save_path))
    (save_file encrypted_save_path pixels' g).
Proof. intros Hf He. unfold encode_message. by rewrite Hf, He. Qed.

Lemma start_decoding_starts g p n :
  file_path (decode_tab g) = Some p -> py_isdigit (py_strip (entry (decode_tab g))) = true ->
  py_int (py_strip (entry (decode_tab g))) = Ok n ->
  start_decoding g =
  start_thread (DecodeJob p (Z.to_nat n)) (map_decode_tab (set_status DecodingInProgress) g).
Proof. intros Hp Hd Hn. unfold start_decoding. rewrite Hp, Hd. simpl. by rewrite Hn. Qed.

Lemma decode_message_job_shows p n g pixels m :
  files g !! p = Some pixels -> extract_message default_stego pixels n = Ok m ->
  decode_message_job p n g = map_decode_tab (set_status (DecodedMessage m)) g.
Proof. intros Hf He. unfold decode_message_job. by rewrite Hf, He. Qed.

(** Running the first started thread. *)
Lemma step_first_thread j js g :
  threads g = j :: js -> step (ThreadRuns 0) g = run_job j (set_threads js g).
Proof. intros Hj. simpl. by rewrite Hj. Qed.

Lemma run_cons e es g : run (e :: es) g = run es (step e g).
Proof. done. Qed.

Lemma reachable_run g0 g es : reachable g0 g -> reachable g0 (run es g).
Proof. revert g. induction es as [|e es IH]; intros g Hr; [done|]. apply IH. by constructor. Qed.

(** Computes the projections of the window's setters. *)
Ltac gui_simpl := cbn [encode_tab decode_tab map_encode_tab map_decode_tab set_entry set_status
  set_file_label set_file_path entry file_path file_label status_label threads files dialogs
  tracebacks start_thread show_error set_threads save_file report_callback_exception app] in *.

(** ** The invariant of the window *)

(** A file the window reads is a [uint8] RGB array. *)
Definition image_file (pixels : grid) : Prop :=
  let '(width, height) := img_size pixels in wf_grid width height pixels.

(** A started worker embeds a non-empty stripped message. *)
Definition job_ok (j : job) : Prop :=
  match j with
  | EncodeJob _ message => message <> [] /\ py_strip message = message
  | DecodeJob _ _ => True
  end.

Definition gui_inv (g : text_gui) : Prop :=
  map_Forall (fun _ => image_file) (files g) /\ Forall job_ok (threads g).

#[export] Instance image_file_dec pixels : Decision (image_file pixels).
Proof. unfold image_file. destruct (img_size pixels). apply _. Defined.
#[export] Instance job_ok_dec j : Decision (job_ok j).
Proof. destruct j; simpl; apply _. Defined.
#[export] Instance gui_inv_dec g : Decision (gui_inv g).
Proof. unfold gui_inv. apply _. Defined.

Lemma encode_message_inv p m g :
  map_Forall (fun _ => image_file) (files g) ->
  map_Forall (fun _ => image_file) (files (encode_message p m g)).
Proof.
  intros Hfs. unfold encode_message.
  destruct (files g !! p) as [pixels|] eqn:Hf; [|done].
  destruct (embed_message default_stego pixels m) as [pixels'|e] eqn:He; [|done].
  gui_simpl. apply map_Forall_insert_2; [|done].
  pose proof (Hfs _ _ Hf) as Hwf. unfold image_file in *.
  destruct (img_size pixels) as [width height] eqn:Hsize.
  assert (wf_grid width height pixels') as Hwf'
    by (eapply (embed_message_keeps_wf default_stego pixels m); try done; simpl; lia).
  rewrite <- (shape_img_size width height pixels pixels'), Hsize; [done|apply Hwf|apply Hwf'].
Qed.

Lemma step_inv e g : gui_inv g -> gui_inv (step e g).
Proof.
  intros [Hfs Hjs]. destruct e as [p|p|text|text| | |n]; simpl.
  - unfold select_encode_file. by case_bool_decide.
  - unfold select_decode_file. by case_bool_decide.
  - done.
  - done.
  - unfold start_encoding. destruct (file_path (encode_tab g)) as [p|]; [|done].
    case_bool_decide as Hm; [done|]. split; [done|]. gui_simpl.
    apply Forall_app. split; [done|]. apply Forall_singleton. split; [done|]. apply py_strip_idemp.
  - unfold start_decoding. destruct (file_path (decode_tab g)) as [p|]; [|done].
    destruct (negb _); [done|]. destruct (py_int _); split; try done.
    gui_simpl. apply Forall_app. split; [done|by repeat constructor].
  - destruct (threads g !! n) as [j|] eqn:Hj; [|done].
    assert (Forall job_ok (delete n (threads g))) by by apply Forall_delete.
    destruct j as [p m|p len]; simpl.
    + split; [by apply encode_message_inv|]. unfold encode_message.
      destruct (files _ !! p); [destruct (embed_message _ _ _)|]; done.
    + unfold decode_message_job. destruct (files _ !! p); [destruct (extract_message _ _ _)|]; done.
Qed.

(** ** Properties *)

(** C16. End to end through the window: choosing a carrier file, typing a
    message that needs no stripping, clicking ENCODE, letting the worker
    run, choosing the saved [assets/encrypted_image.png], typing the
    message's length and clicking DECODE shows the message in the decode
    status label, when the carrier has a row and the message's bytes fit
    in its [3 * width * height] channels. *)
Theorem gui_text_roundtrip g p pixels width height message length_text :
  threads g = [] -> p <> "" -> files g !! p = Some pixels ->
  shape width height pixels -> 0 < height ->
  Forall (fun c => 0 <= c < 256)%Z message ->
  length message * 8 <= 3 * width * height ->
  message <> [] -> py_strip message = message ->
  py_isdigit (py_strip length_text) = true ->
  py_int (py_strip length_text) = Ok (Z.of_nat (length message)) ->
  status_label (decode_tab (run [SelectEncodeFile p; TypeMessage message; ClickEncode; ThreadRuns 0;
     SelectDecodeFile encrypted_save_path; TypeLength length_text; ClickDecode; ThreadRuns 0] g))
  = DecodedMessage message.
Proof.
  intros Hth Hp Hf Hs Hh Hb Hfit Hne Hstrip Hdig Hint.
  assert (img_size pixels = (width, height)) as Hsize by (apply img_size_shape; [done|lia]).
  destruct (embed_message_ok_visits default_stego pixels message width height) as [pixels' Hemb]; try done.
  assert (extract_message default_stego pixels' (length message) = Ok message) as Hext.
  { eapply (roundtrip_uniform_config default_stego pixels message pixels' width height);
      try done; simpl; lia. }
  rewrite run_cons. cbn [step]. rewrite select_encode_file_chosen by done.
  rewrite 2!run_cons. cbn [step].
  rewrite (start_encoding_starts _ p) by (gui_simpl; rewrite ?Hstrip; done). gui_simpl. rewrite Hstrip.
  rewrite run_cons, (step_first_thread (EncodeJob p message) []) by (gui_simpl; rewrite ?Hth; done).
  cbn [run_job]. rewrite (encode_message_saves p message _ pixels pixels') by (gui_simpl; done).
  rewrite run_cons. cbn [step]. rewrite select_decode_file_chosen by done.
  rewrite 2!run_cons. cbn [step].
  rewrite (start_decoding_starts _ encrypted_save_path (Z.of_nat (length message))) by (gui_simpl; done).
  rewrite run_cons, (step_first_thread (DecodeJob encrypted_save_path
    (Z.to_nat (Z.of_nat (length message)))) []) by (gui_simpl; rewrite ?Hth; done).
  cbn [run_job]. rewrite Nat2Z.id.
  rewrite (decode_message_job_shows _ _ _ pixels' message); [done| |done].
  gui_simpl. by rewrite lookup_insert.
Qed.

(** C17. Invariant of the window, by induction on its runs: from a start
    state whose files are [uint8] RGB arrays and whose started workers
    carry validated messages, every reachable state keeps the files
    [uint8] RGB arrays (the only file written is an embedding of one of
    them) and starts [encode_message] only with a non-empty stripped
    message. *)
Theorem gui_invariant g0 g : gui_inv g0 -> reachable g0 g -> gui_inv g.
Proof. intros H0 Hr. induction Hr; [done|]. by apply step_inv. Qed.

(** C29. A cancelled file dialog relabels the tab "No file selected" but
    keeps the previously chosen file, and ENCODE then embeds into that
    file. *)
Theorem cancel_keeps_path g p text :
  p <> "" -> py_strip text <> [] ->
  file_label (encode_tab (run [SelectEncodeFile p; SelectEncodeFile ""; TypeMessage text; ClickEncode] g))
    = NoFileSelected /\
  threads (run [SelectEncodeFile p; SelectEncodeFile ""; TypeMessage text; ClickEncode] g)
    = threads g ++ [EncodeJob p (py_strip text)].
Proof.
  intros Hp Ht. rewrite !run_cons. cbn [step run fold_left].
  rewrite (select_encode_file_chosen p) by done.
  unfold select_encode_file. rewrite !bool_decide_eq_false_2 by (intros H; by apply H).
  rewrite (start_encoding_starts _ p) by (gui_simpl; done). gui_simpl. by split.
Qed.

(** An encode worker leaves the decode tab alone. *)
Lemma encode_message_decode_tab p m g : decode_tab (encode_message p m g) = decode_tab g.
Proof. unfold encode_message. repeat case_match; done. Qed.

(** While only encode workers are pending, running them never changes
    the decode tab. *)
Lemma encode_workers_keep_decode_tab ns g :
  Forall (fun j => exists p m, j = EncodeJob p m) (threads g) ->
  decode_tab (run (ThreadRuns <$> ns) g) = decode_tab g.
Proof.
  revert g. induction ns as [|n ns IH]; intros g Hjs; [done|]. rewrite fmap_cons, run_cons.
  cbn [step]. destruct (threads g !! n) as [j|] eqn:Ej; [|by apply IH].
  destruct (proj1 (Forall_lookup _ _) Hjs n j Ej) as (p & m & ->). cbn [run_job].
  rewrite IH; [by rewrite encode_message_decode_tab|].
  unfold encode_message. repeat case_match; gui_simpl; by apply Forall_delete.
Qed.

(** C40. The text window's decode worker gets the path when DECODE is
    clicked: choosing another file before the worker runs changes the
    label but not what is decoded, and the tab shows what decoding the
    file chosen at the click gives. *)
Theorem decode_keeps_clicked_path g p1 p2 n :
  file_path (decode_tab g) = Some p1 -> threads g = [] -> p2 <> "" ->
  py_isdigit (py_strip (entry (decode_tab g))) = true ->
  py_int (py_strip (entry (decode_tab g))) = Ok n ->
  status_label (decode_tab (run [ClickDecode; SelectDecodeFile p2; ThreadRuns 0] g)) =
  status_label (decode_tab (decode_message_job p1 (Z.to_nat n) g)).
Proof.
  intros Hp Hth Hp2 Hd Hn. rewrite !run_cons. cbn [step run fold_left].
  rewrite (start_decoding_starts _ p1 n) by done. rewrite select_decode_file_chosen by done.
  gui_simpl. rewrite Hth. simpl (_ !! 0). cbn [run_job]. unfold decode_message_job. gui_simpl.
  destruct (files g !! p1) as [pixels|]; [destruct (extract_message _ _ _)|]; done.
Qed.

(** C30. A length that [str.isdigit] accepts but [int] rejects -- one
    holding a superscript [¹ ² ³] -- leaves the decode tab stuck: DECODE
    on a chosen file sets "Decoding in progress...", starts no worker
    and lets the [ValueError] escape to Tk, and while no decode worker
    was pending, no run of the pending workers ever changes that label. *)
Theorem superscript_length_stuck g p ns :
  file_path (decode_tab g) = Some p ->
  py_isdigit (py_strip (entry (decode_tab g))) = true ->
  existsb (fun c => negb (is_ascii_digit c)) (py_strip (entry (decode_tab g))) = true ->
  Forall (fun j => exists p m, j = EncodeJob p m) (threads g) ->
  threads (step ClickDecode g) = threads g /\
  tracebacks (step ClickDecode g) = tracebacks g ++ [ValueError] /\
  status_label (decode_tab (run (ThreadRuns <$> ns) (step ClickDecode g))) = DecodingInProgress.
Proof.
  intros Hp Hd Hs Hjs. cbn [step]. unfold start_decoding. rewrite Hp, Hd. cbn [negb].
  rewrite py_int_isdigit_not_ascii by (by rewrite py_strip_idemp).
  unfold report_callback_exception. gui_simpl. split; [done|split; [done|]].
  rewrite encode_workers_keep_decode_tab; [done|]. by gui_simpl.
Qed.

End TextSteganographyGUI.
