(* ===== verification/ImageGui.v ===== *)
(** * The image front end: [ImageSteganographyGUI]

    [src/Embedd Image/image_steganography_gui.py], modelled like the text
    window of [TextGui]: the window's state ([image_gui]: the three
    chosen paths, their labels, the size [Entry], the two status labels,
    the dialogs shown, the started workers and the image files on disk),
    one function per callback and worker, and [step] for the Tk main
    loop, a worker running at any later point.  Unlike the text window,
    [start_encoding] and [start_decoding] start workers that read the
    chosen paths from [self] when they run ([encode_image],
    [decode_image]), and the hidden image's size is typed as ["WxH"] and
    parsed with [map(int, size.split('x'))] ([parse_size]).

    What NumPy's [reshape] and Pillow's [save] do with a size that has a
    dimension of 0 or less depends on their versions; that outcome is the
    parameter [degenerate_size] of the section ([None] for an exception,
    shown as [LibraryError]), and no theorem depends on it.

    Proved here: encoding a hidden image through the window and decoding
    the saved file at the typed size stores the hidden image in
    [assets/extracted_image.png] ([gui_image_roundtrip]); the decode
    worker decodes the file chosen when it runs, not the one chosen when
    DECODE was clicked ([decode_reads_current_path]); DECODE starts a
    worker only for a size text of the form ["W x H"] with two integers
    ([start_decoding_validates]); in every reachable state an "in
    progress" label is backed by a pending worker
    ([image_status_invariant]), and whatever order the pending workers
    run in, all finish and no label stays "in progress"
    ([image_workers_finish]; [eventually] follows the [eventually]
    combinator of small-step semantics, over worker runs). *)

From Stdlib Require Import ZArith Lia.
From stdpp Require Import base list sets strings gmap.
From S2P Require Import Prelude PyStr Bits Grid Classifier Walker Codec Embed Extract RoundTrip ImageEngine.

Open Scope stego_scope.

Module ImageSteganographyGUI.

(** ** The window's state *)

(** The text of a file label: its "No ... selected" text, or
    [f"Selected: {os.path.basename(file_path)}"]. *)
Inductive label_text : Type :=
  | NoneSelected
  | SelectedFile (name : string).

(** The exceptions a worker catches and shows as [f"Error: {e}"]. *)
Inductive exc : Type :=
  | PyExc (e : py_error)
  | FileNotFound (path : string)
  | AttributeError
  | LibraryError.

Inductive status : Type :=
  | StatusBlank
  | EncodingInProgress
  | EncodingSuccessful (save_path : string)
  | DecodingInProgress
  | DecodingSuccessful (save_path : string)
  | StatusError (e : exc).

Inductive dialog : Type :=
  | ImagesNotSelected
  | NoImageForDecoding
  | InvalidImageSize.

(** A started worker: [encode_image()] or [decode_image((width, height))]. *)
Inductive job : Type :=
  | EncodeImageJob
  | DecodeImageJob (hidden_size : Z * Z).

Record image_gui : Type := mkImageGui {
  cover_image_path : option string;
  hidden_image_path : option string;
  encrypted_image_path : option string;
  encode_cover_label : label_text;
  encode_hidden_label : label_text;
  decode_file_label : label_text;
  decode_size_entry : list Z;
  encode_status_label : status;
  decode_status_label : status;
  dialogs : list dialog;
  threads : list job;
  files : gmap string grid
}.

Definition set_cover (p : option string) (l : label_text) (g : image_gui) : image_gui :=
  mkImageGui p (hidden_image_path g) (encrypted_image_path g) l (encode_hidden_label g)
    (decode_file_label g) (decode_size_entry g) (encode_status_label g) (decode_status_label g)
    (dialogs g) (threads g) (files g).
Definition set_hidden (p : option string) (l : label_text) (g : image_gui) : image_gui :=
  mkImageGui (cover_image_path g) p (encrypted_image_path g) (encode_cover_label g) l
    (decode_file_label g) (decode_size_entry g) (encode_status_label g) (decode_status_label g)
    (dialogs g) (threads g) (files g).
Definition set_encrypted (p : option string) (l : label_text) (g : image_gui) : image_gui :=
  mkImageGui (cover_image_path g) (hidden_image_path g) p (encode_cover_label g)
    (encode_hidden_label g) l (decode_size_entry g) (encode_status_label g) (decode_status_label g)
    (dialogs g) (threads g) (files g).
Definition set_size_entry (text : list Z) (g : image_gui) : image_gui :=
  mkImageGui (cover_image_path g) (hidden_image_path g) (encrypted_image_path g)
    (encode_cover_label g) (encode_hidden_label g) (decode_file_label g) text
    (encode_status_label g) (decode_status_label g) (dialogs g) (threads g) (files g).
Definition set_encode_status (s : status) (g : image_gui) : image_gui :=
  mkImageGui (cover_image_path g) (hidden_image_path g) (encrypted_image_path g)
    (encode_cover_label g) (encode_hidden_label g) (decode_file_label g) (decode_size_entry g)
    s (decode_status_label g) (dialogs g) (threads g) (files g).
Definition set_decode_status (s : status) (g : image_gui) : image_gui :=
  mkImageGui (cover_image_path g) (hidden_image_path g) (encrypted_image_path g)
    (encode_cover_label g) (encode_hidden_label g) (decode_file_label g) (decode_size_entry g)
    (encode_status_label g) s (dialogs g) (threads g) (files g).
Definition show_error (d : dialog) (g : image_gui) : image_gui :=
  mkImageGui (cover_image_path g) (hidden_image_path g) (encrypted_image_path g)
    (encode_cover_label g) (encode_hidden_label g) (decode_file_label g) (decode_size_entry g)
    (encode_status_label g) (decode_status_label g) (dialogs g ++ [d]) (threads g) (files g).
Definition set_threads (js : list job) (g : image_gui) : image_gui :=
  mkImageGui (cover_image_path g) (hidden_image_path g) (encrypted_image_path g)
    (encode_cover_label g) (encode_hidden_label g) (decode_file_label g) (decode_size_entry g)
    (encode_status_label g) (decode_status_label g) (dialogs g) js (files g).
Definition start_thread (j : job) (g : image_gui) : image_gui := set_threads (threads g ++ [j]) g.
Definition save_file (p : string) (pixels : grid) (g : image_gui) : image_gui :=
  mkImageGui (cover_image_path g) (hidden_image_path g) (encrypted_image_path g)
    (encode_cover_label g) (encode_hidden_label g) (decode_file_label g) (decode_size_entry g)
    (encode_status_label g) (decode_status_label g) (dialogs g) (threads g) (<[p := pixels]> (files g)).

(** The window as [__init__] leaves it, over a given disk. *)
Definition initial_gui (disk : gmap string grid) : image_gui :=
  mkImageGui None None None NoneSelected NoneSelected NoneSelected [] StatusBlank StatusBlank [] [] disk.

(** [os.path.join("assets", "encrypted_image.png")] and
    [os.path.join("assets", "extracted_image.png")]. *)
Definition encrypted_save_path : string := "assets/encrypted_image.png".
Definition extracted_save_path : string := "assets/extracted_image.png".

(** [width, height = map(int, size.split('x'))]: any failure is a
    [ValueError] (an [int] that fails, or not exactly two parts). *)
Definition parse_size (size : list Z) : result (Z * Z) :=
  match py_split 120 size with
  | [w; h] => let* width := py_int w in let* height := py_int h in Ok (width, height)
  | _ => Raise ValueError
  end.

Section Window.
(** The outcome of [extract_image] and [Image.fromarray] for a typed size
    with a dimension of 0 or less. *)
Context (degenerate_size : Z * Z -> grid -> option grid).

(** ** The callbacks *)

Definition select_cover_image (file_path : string) (g : image_gui) : image_gui :=
  if bool_decide (file_path <> "") then set_cover (Some file_path) (SelectedFile (basename file_path)) g
  else set_cover (cover_image_path g) NoneSelected g.

Definition select_hidden_image (file_path : string) (g : image_gui) : image_gui :=
  if bool_decide (file_path <> "") then set_hidden (Some file_path) (SelectedFile (basename file_path)) g
  else set_hidden (hidden_image_path g) NoneSelected g.

Definition select_decode_file (file_path : string) (g : image_gui) : image_gui :=
  if bool_decide (file_path <> "") then
    set_encrypted (Some file_path) (SelectedFile (basename file_path)) g
  else set_encrypted (encrypted_image_path g) NoneSelected g.

(** [start_encoding]. *)
Definition start_encoding (g : image_gui) : image_gui :=
  match cover_image_path g, hidden_image_path g with
  | Some _, Some _ => start_thread EncodeImageJob (set_encode_status EncodingInProgress g)
  | _, _ => show_error ImagesNotSelected g
  end.

(** The worker [encode_image()]: it reads the two paths from [self] when
    it runs. *)
Definition encode_image (g : image_gui) : image_gui :=
  let save_path := encrypted_save_path in
  match cover_image_path g, hidden_image_path g with
  | Some cover, Some hidden =>
      match files g !! cover, files g !! hidden with
      | Some pixels, Some hidden_pixels =>
          match embed_image default_stego_img pixels hidden_pixels with
          | Ok encrypted_image =>
              set_encode_status (EncodingSuccessful save_path) (save_file save_path encrypted_image g)
          | Raise e => set_encode_status (StatusError (PyExc e)) g
          end
      | None, _ => set_encode_status (StatusError (FileNotFound cover)) g
      | _, None => set_encode_status (StatusError (FileNotFound hidden)) g
      end
  | _, _ => set_encode_status (StatusError AttributeError) g
  end.

(** [start_decoding]. *)
Definition start_decoding (g : image_gui) : image_gui :=
  match encrypted_image_path g with
  | None => show_error NoImageForDecoding g
  | Some _ =>
      let size := py_strip (decode_size_entry g) in
      match parse_size size with
      | Raise _ => show_error InvalidImageSize g
      | Ok hidden_size =>
          start_thread (DecodeImageJob hidden_size) (set_decode_status DecodingInProgress g)
      end
  end.

(** [extract_image(path, hidden_size)] and [Image.fromarray]. *)
Definition extract_at_size (pixels : grid) (hidden_size : Z * Z) : exc + grid :=
  let '(width, height) := hidden_size in
  if (0 <? width)%Z && (0 <? height)%Z then
    match extract_image default_stego_img pixels (Z.to_nat width, Z.to_nat height) with
    | Ok hidden_image => inr hidden_image
    | Raise e => inl (PyExc e)
    end
  else
    match degenerate_size hidden_size pixels with
    | Some hidden_image => inr hidden_image
    | None => inl LibraryError
    end.

(** The worker [decode_image(hidden_size)]: it reads the path from [self]
    when it runs. *)
Definition decode_image (hidden_size : Z * Z) (g : image_gui) : image_gui :=
  let save_path := extracted_save_path in
  match encrypted_image_path g with
  | Some p =>
      match files g !! p with
      | Some pixels =>
          match extract_at_size pixels hidden_size with
          | inr hidden_image =>
              set_decode_status (DecodingSuccessful save_path) (save_file save_path hidden_image g)
          | inl e => set_decode_status (StatusError e) g
          end
      | None => set_decode_status (StatusError (FileNotFound p)) g
      end
  | None => set_decode_status (StatusError AttributeError) g
  end.

Definition run_job (j : job) : image_gui -> image_gui :=
  match j with
  | EncodeImageJob => encode_image
  | DecodeImageJob hidden_size => decode_image hidden_size
  end.

(** ** Events and the main loop *)

Inductive event : Type :=
  | SelectCoverImage (file_path : string)
  | SelectHiddenImage (file_path : string)
  | SelectDecodeFile (file_path : string)
  | TypeSize (text : list Z)
  | ClickEncode
  | ClickDecode
  | ThreadRuns (n : nat).

Definition step (e : event) (g : image_gui) : image_gui :=
  match e with
  | SelectCoverImage p => select_cover_image p g
  | SelectHiddenImage p => select_hidden_image p g
  | SelectDecodeFile p => select_decode_file p g
  | TypeSize text => set_size_entry text g
  | ClickEncode => start_encoding g
  | ClickDecode => start_decoding g
  | ThreadRuns n =>
      match threads g !! n with
      | Some j => run_job j (set_threads (delete n (threads g)) g)
      | None => g
      end
  end.

Definition run (es : list event) (g : image_gui) : image_gui := fold_left (fun g e => step e g) es g.

End Window.

(** ** Reachable states and schedules *)

Section Schedules.
Context (degenerate_size : Z * Z -> grid -> option grid).

(** The states the window reaches from [g0] by any sequence of user
    events and worker runs. *)
Inductive reachable (g0 : image_gui) : image_gui -> Prop :=
  | reachable_init : reachable g0 g0
  | reachable_step e g : reachable g0 g -> reachable g0 (step degenerate_size e g).

(** [P] is reached whatever order the pending workers run in: it holds
    now, or a worker is pending and, whichever runs next, [P] is
    eventually reached from there. *)
Inductive eventually (P : image_gui -> Prop) (g : image_gui) : Prop :=
  | eventually_done : P g -> eventually P g
  | eventually_step : threads g <> [] ->
      (forall n, n < length (threads g) -> eventually P (step degenerate_size (ThreadRuns n) g)) ->
      eventually P g.

End Schedules.

(** Every "in progress" label is backed by a pending worker that will
    replace it. *)
Definition status_inv (g : image_gui) : Prop :=
  (encode_status_label g = EncodingInProgress -> EncodeImageJob ∈ threads g) /\
  (decode_status_label g = DecodingInProgress -> exists size, DecodeImageJob size ∈ threads g).

(** No worker is pending and neither label says "in progress". *)
Definition settled (g : image_gui) : Prop :=
  threads g = [] /\ encode_status_label g <> EncodingInProgress /\
  decode_status_label g <> DecodingInProgress.

(** ** The callbacks, branch by branch *)

Lemma image_run_cons d e es g : run d (e :: es) g = run d es (step d e g).
Proof. done. Qed.

(** Computes the projections of the window's setters. *)
Ltac gui_simpl := cbn [cover_image_path hidden_image_path encrypted_image_path encode_cover_label
  encode_hidden_label decode_file_label decode_size_entry encode_status_label decode_status_label
  dialogs threads files set_cover set_hidden set_encrypted set_size_entry set_encode_status
  set_decode_status show_error set_threads start_thread save_file app] in *.

Lemma select_cover_image_chosen p g :
  p <> "" -> select_cover_image p g = set_cover (Some p) (SelectedFile (basename p)) g.
Proof. intros Hp. unfold select_cover_image. by rewrite bool_decide_eq_true_2. Qed.

Lemma select_hidden_image_chosen p g :
  p <> "" -> select_hidden_image p g = set_hidden (Some p) (SelectedFile (basename p)) g.
Proof. intros Hp. unfold select_hidden_image. by rewrite bool_decide_eq_true_2. Qed.

Lemma image_select_decode_file_chosen p g :
  p <> "" -> select_decode_file p g = set_encrypted (Some p) (SelectedFile (basename p)) g.
Proof. intros Hp. unfold select_decode_file. by rewrite bool_decide_eq_true_2. Qed.

Lemma image_start_encoding_starts g c h :
  cover_image_path g = Some c -> hidden_image_path g = Some h ->
  start_encoding g = start_thread EncodeImageJob (set_encode_status EncodingInProgress g).
Proof. intros Hc Hh. unfold start_encoding. by rewrite Hc, Hh. Qed.

Lemma encode_image_saves g c h pixels hidden_pixels encrypted :
  cover_image_path g = Some c -> hidden_image_path g = Some h ->
  files g !! c = Some pixels -> files g !! h = Some hidden_pixels ->
  embed_image default_stego_img pixels hidden_pixels = Ok encrypted ->
  encode_image g =
  set_encode_status (EncodingSuccessful encrypted_save_path) (save_file encrypted_save_path encrypted g).
Proof. intros Hc Hh Hfc Hfh He. unfold encode_image. by rewrite Hc, Hh, Hfc, Hfh, He. Qed.

Lemma image_start_decoding_starts g p size :
  encrypted_image_path g = Some p -> parse_size (py_strip (decode_size_entry g)) = Ok size ->
  start_decoding g = start_thread (DecodeImageJob size) (set_decode_status DecodingInProgress g).
Proof. intros Hp Hs. unfold start_decoding. by rewrite Hp, Hs. Qed.

Lemma decode_image_saves d g p pixels (width height : nat) hidden_image :
  encrypted_image_path g = Some p -> files g !! p = Some pixels -> 0 < width -> 0 < height ->
  extract_image default_stego_img pixels (width, height) = Ok hidden_image ->
  decode_image d (Z.of_nat width, Z.of_nat height) g =
  set_decode_status (DecodingSuccessful extracted_save_path) (save_file extracted_save_path hidden_image g).
Proof.
  intros Hp Hf Hw Hh He. unfold decode_image, extract_at_size. rewrite Hp, Hf.
  rewrite (proj2 (Z.ltb_lt 0 _)), (proj2 (Z.ltb_lt 0 (Z.of_nat height))) by lia. simpl.
  by rewrite !Nat2Z.id, He.
Qed.

Lemma image_step_first_thread d j js g :
  threads g = j :: js -> step d (ThreadRuns 0) g = run_job d j (set_threads js g).
Proof. intros Hj. simpl. by rewrite Hj. Qed.

(** ** Every started worker finishes *)

(** The encode worker leaves the workers and the decode tab alone and
    replaces the encode tab's "in progress". *)
Lemma encode_image_frame g :
  threads (encode_image g) = threads g /\
  decode_status_label (encode_image g) = decode_status_label g /\
  encode_status_label (encode_image g) <> EncodingInProgress.
Proof. unfold encode_image. repeat case_match; gui_simpl; done. Qed.

Lemma decode_image_frame d size g :
  threads (decode_image d size g) = threads g /\
  encode_status_label (decode_image d size g) = encode_status_label g /\
  decode_status_label (decode_image d size g) <> DecodingInProgress.
Proof. unfold decode_image. repeat case_match; gui_simpl; done. Qed.

(** Removing another worker keeps a pending one. *)
Lemma elem_of_delete_ne {A} (l : list A) n x y :
  x ∈ l -> l !! n = Some y -> x <> y -> x ∈ delete n l.
Proof.
  intros Hx Hn Hne. apply list_elem_of_lookup_1 in Hx as [i Hi].
  destruct (decide (i < n)).
  - apply (list_elem_of_lookup_2 _ i). by rewrite list_lookup_delete_lt.
  - assert (i <> n) by congruence. apply (list_elem_of_lookup_2 _ (i - 1)).
    rewrite list_lookup_delete_ge by lia. by replace (S (i - 1)) with i by lia.
Qed.

Lemma status_inv_step d e g : status_inv g -> status_inv (step d e g).
Proof.
  intros [He Hd]. unfold status_inv. destruct e as [p|p|p|text| | |n]; cbn [step].
  - unfold select_cover_image. case_bool_decide; gui_simpl; by split.
  - unfold select_hidden_image. case_bool_decide; gui_simpl; by split.
  - unfold select_decode_file. case_bool_decide; gui_simpl; by split.
  - gui_simpl. by split.
  - unfold start_encoding. repeat case_match; gui_simpl; split; try done.
    + intros _. set_solver.
    + intros [size ?]%Hd. exists size. set_solver.
  - unfold start_decoding. repeat case_match; gui_simpl; split; try done.
    + intros ?%He. set_solver.
    + intros _. eexists. rewrite elem_of_app, list_elem_of_singleton. by right.
  - destruct (threads g !! n) as [j|] eqn:Hj; [|by split].
    destruct j as [|size]; cbn [run_job].
    + destruct (encode_image_frame (set_threads (delete n (threads g)) g)) as (-> & -> & Hne).
      gui_simpl. split; [done|]. intros [size Hs]%Hd. exists size. by eapply elem_of_delete_ne.
    + destruct (decode_image_frame d size (set_threads (delete n (threads g)) g)) as (-> & -> & Hne).
      gui_simpl. split; [|done]. intros Hs%He. by eapply elem_of_delete_ne.
Qed.

Lemma image_reachable_run d g0 es g : reachable d g0 g -> reachable d g0 (run d es g).
Proof. revert g. induction es as [|e es IH]; intros g Hr; [done|]. rewrite image_run_cons. by apply IH, reachable_step. Qed.

Lemma status_inv_reachable d g0 g : status_inv g0 -> reachable d g0 g -> status_inv g.
Proof. intros H0 Hr. induction Hr; [done|]. by apply status_inv_step. Qed.

(** From a state where the invariant holds, every order of the pending
    workers ends settled: by induction on the number of pending workers,
    each run removing one and starting none. *)
Lemma status_inv_settles d g : status_inv g -> eventually d settled g.
Proof.
  remember (length (threads g)) as k eqn:Hk. revert g Hk.
  induction k as [k IH] using lt_wf_ind. intros g Hk Hinv.
  destruct (threads g) as [|j js] eqn:Hth.
  - apply eventually_done. destruct Hinv as [He Hd]. rewrite Hth in He, Hd.
    split; [done|]. split; [intros ?%He; set_solver|intros [? ?]%Hd; set_solver].
  - apply eventually_step; [by rewrite Hth|]. intros n Hn.
    apply (IH (length (threads (step d (ThreadRuns n) g)))); [|done|by apply status_inv_step].
    cbn [step]. rewrite Hth in Hn |- *. destruct (lookup_lt_is_Some_2 (j :: js) n Hn) as [j' Hj'].
    rewrite Hj'. rewrite <- Hth in Hj' |- *.
    destruct j'; cbn [run_job];
      [rewrite (proj1 (encode_image_frame _))|rewrite (proj1 (decode_image_frame _ _ _))];
      gui_simpl; rewrite length_delete by eauto; rewrite Hth in *; simpl in *; lia.
Qed.

(** ** Properties *)

(** C18. End to end through the image window: choosing a carrier and a
    hidden image, clicking ENCODE, letting the worker run, choosing the
    saved [assets/encrypted_image.png], typing the hidden image's size
    ["WxH"], clicking DECODE and letting the worker run stores the hidden
    image in [assets/extracted_image.png], when the carrier has a row and
    the hidden image's [24 * w * h] bits fit in its channels. *)
Theorem gui_image_roundtrip d g c h pixels hidden_pixels width height hidden_width hidden_height
    size_text :
  threads g = [] -> c <> "" -> h <> "" ->
  files g !! c = Some pixels -> files g !! h = Some hidden_pixels ->
  shape width height pixels -> 0 < height ->
  wf_grid hidden_width hidden_height hidden_pixels -> 0 < hidden_width -> 0 < hidden_height ->
  hidden_width * hidden_height * 8 * 3 <= 3 * width * height ->
  parse_size (py_strip size_text) = Ok (Z.of_nat hidden_width, Z.of_nat hidden_height) ->
  files (run d [SelectCoverImage c; SelectHiddenImage h; ClickEncode; ThreadRuns 0;
     SelectDecodeFile encrypted_save_path; TypeSize size_text; ClickDecode; ThreadRuns 0] g)
    !! extracted_save_path = Some hidden_pixels.
Proof.
  intros Hth Hc Hh Hfc Hfh Hs Hht Hwf Hw Hhh Hfit Hsize.
  assert ((let* encrypted := embed_image default_stego pixels hidden_pixels in
           extract_image default_stego encrypted (hidden_width, hidden_height)) = Ok hidden_pixels) as Hrt.
  { apply (image_roundtrip_uniform_config _ _ _ width height); try done; try (simpl; lia).
    - apply img_size_shape; [done|lia].
    - change (3 * non_edge_bits default_stego) with 3. apply Nat.Div0.mod_mul. }
  change default_stego with default_stego_img in Hrt.
  destruct (embed_image default_stego_img pixels hidden_pixels) as [encrypted|e] eqn:Hemb;
    simpl in Hrt; [|discriminate].
  rewrite image_run_cons. cbn [step]. rewrite select_cover_image_chosen by done.
  rewrite image_run_cons. cbn [step]. rewrite select_hidden_image_chosen by done.
  rewrite image_run_cons. cbn [step]. rewrite (image_start_encoding_starts _ c h) by (gui_simpl; done).
  rewrite image_run_cons, (image_step_first_thread d EncodeImageJob []) by (gui_simpl; rewrite ?Hth; done).
  cbn [run_job]. rewrite (encode_image_saves _ c h pixels hidden_pixels encrypted) by (gui_simpl; done).
  rewrite image_run_cons. cbn [step]. rewrite image_select_decode_file_chosen by done.
  rewrite 2!image_run_cons. cbn [step].
  rewrite (image_start_decoding_starts _ encrypted_save_path _) by (gui_simpl; done).
  rewrite image_run_cons, (image_step_first_thread d (DecodeImageJob _) []) by (gui_simpl; rewrite ?Hth; done).
  cbn [run_job]. rewrite (decode_image_saves d _ encrypted_save_path encrypted hidden_width hidden_height hidden_pixels) by (gui_simpl; rewrite ?lookup_insert; done).
  cbn [run fold_left]. gui_simpl. by rewrite lookup_insert.
Qed.

(** C37. The decode worker reads [self.encrypted_image_path] when it
    runs: choosing another file after clicking DECODE and before the
    worker runs leaves the window, the disk included, exactly as if that
    file had been chosen before the click, so the worker decodes the file
    chosen last, not the one shown when DECODE was clicked. *)
Theorem decode_reads_current_path d g p1 p2 size :
  encrypted_image_path g = Some p1 -> threads g = [] -> p2 <> "" ->
  parse_size (py_strip (decode_size_entry g)) = Ok size ->
  run d [ClickDecode; SelectDecodeFile p2; ThreadRuns 0] g =
  run d [SelectDecodeFile p2; ClickDecode; ThreadRuns 0] g.
Proof.
  intros Hp Hth Hp2 Hs.
  rewrite !image_run_cons. cbn [step]. rewrite !image_select_decode_file_chosen by done.
  rewrite (image_start_decoding_starts _ p1 size), (image_start_decoding_starts _ p2 size) by (gui_simpl; done).
  gui_simpl. by rewrite Hth.
Qed.

(** C38. DECODE starts a worker for the size [(w, h)] exactly when a file
    to decode has been chosen and the stripped size text parses as
    ["w x h"] with [int] on both sides; otherwise it starts nothing. *)
Theorem start_decoding_validates g size :
  threads (start_decoding g) = threads g ++ [DecodeImageJob size] <->
  (exists p, encrypted_image_path g = Some p) /\ parse_size (py_strip (decode_size_entry g)) = Ok size.
Proof.
  assert (threads g <> threads g ++ [DecodeImageJob size]) as Hne.
  { intros Hj%(f_equal length). rewrite length_app in Hj. simpl in Hj. lia. }
  unfold start_decoding. destruct (encrypted_image_path g) as [p|]; gui_simpl.
  - destruct (parse_size _) as [s|e]; gui_simpl; split.
    + intros Hj%app_inv_head. injection Hj as ->. eauto.
    + by intros [_ [= ->]].
    + done.
    + by intros [_ ?].
  - split; [done|]. by intros [[? ?] _].
Qed.

(** C23. Every state the image window reaches keeps its "in progress"
    labels honest: the encode tab says "Encoding in progress..." only
    while an [encode_image] worker is pending, and the decode tab says
    "Decoding in progress..." only while a [decode_image] worker is. *)
Theorem image_status_invariant d disk g :
  reachable d (initial_gui disk) g -> status_inv g.
Proof. apply status_inv_reachable. by split. Qed.

(** C22. Liveness: from every state the image window reaches, whatever
    order the pending workers run in, they all finish and neither tab is
    left saying "in progress" (unlike the text window, whose DECODE can
    set the label and start no worker). *)
Theorem image_workers_finish d disk g :
  reachable d (initial_gui disk) g -> eventually d settled g.
Proof. intros Hr. apply status_inv_settles. apply (status_inv_reachable d (initial_gui disk)); [by split|done]. Qed.

End ImageSteganographyGUI.
