(* ===== verification/Scenarios.v ===== *)
(** * Concrete runs of the engines

    Fixtures: a uniform mid-gray 9x9 carrier ([gray9], the shape of a
    small photograph's flat region), the same carrier with one white
    pixel (the spec's edge scenario), a 1x1 carrier, a configuration
    with a zero block height, and the disks and worlds the two windows
    and the two [main] functions open.  Each lemma here applies one
    general theorem of the development that has hypotheses at one of
    these inputs, the hypotheses discharged by the kernel's evaluation
    ([vm_compute]), showing that they are met by a real run. *)

From Stdlib Require Import ZArith Lia Reals.
From stdpp Require Import base list strings gmap.
From S2P Require Import Prelude PyStr Bits Grid Classifier Walker Codec Embed Extract RoundTrip ImageEngine Histogram App TextGui ImageGui.

Open Scope stego_scope.
Import TextSteganographyGUI.

(** ** Fixtures *)

(** A [w]x[h] RGB array with every channel [v]. *)
Definition uniform_grid (w h : nat) (v : Z) : grid := replicate h (replicate w [v; v; v]).

Definition gray9 : grid := uniform_grid 9 9 128.

(** [gray9] with a white pixel at [(4, 4)]. *)
Definition spotted9 : grid :=
  px_set (px_set (px_set gray9 4 4 0 255) 4 4 1 255) 4 4 2 255.

Definition tiny : grid := uniform_grid 1 1 128.

(** [block_height = 0]. *)
Definition cfg_flat : stego := mkStego 128 4 1 3 0.

(** The array [embed_message] produces on [gray9] for ["A"]. *)
Definition gray9_A : grid :=
  match embed_message default_stego gray9 [65%Z] with Ok g => g | Raise _ => [] end.

(** [gray9] after [embed_bits] writes the chunk ["10"] into the red
    channel of the pixel [(0, 0)]. *)
Definition gray9_bit : grid := px_set gray9 0 0 0 (lsb_write 128 2 2).

(** [gray9] carrying the 1x1 image [(1, 2, 3)]. *)
Definition gray9_img : grid :=
  match embed_image default_stego gray9 [[[1; 2; 3]]]%Z with Ok g => g | Raise _ => [] end.

(** A disk holding [gray9] as ["carrier.png"]. *)
Definition disk : gmap string grid := {[ "carrier.png" := gray9 ]}.

(** A disk with a carrier and a 1x1 image to hide. *)
Definition image_disk : gmap string grid :=
  {[ "carrier.png" := gray9; "secret.png" := [[[1; 2; 3]]]%Z ]}.

(** NumPy and Pillow failing on a degenerate size. *)
Definition no_degenerate : Z * Z -> grid -> option grid := fun _ _ => None.

(** Discharges a hypothesis on the fixtures by evaluation. *)
Ltac eval_hyp := first [ vm_compute; reflexivity | simpl; lia
                  | match goal with |- ?P => apply (bool_decide_eq_true_1 P) end;
                    vm_compute; reflexivity ].

(** ** The general theorems on real runs *)

(** A 26x26 mid-gray carrier: 2028 channels for the 2000 bits of the
    text source's message. *)
Definition gray26 : grid := uniform_grid 26 26 128.

Definition text_world : world := mkWorld {[ "/content/new-small.png" := gray26 ]} [] [].

Lemma main_text_prints_message_witness :
  exists encrypted,
    main_text text_world =
    (inr tt, mkWorld (<["encrypted_image.png" := encrypted]> (w_files text_world))
       (w_stdout text_world ++ [pystr "Embedding message...";
                       pystr "Message embedded and saved as 'encrypted_image.png'";
                       pystr "Extracting message...";
                       pystr "Extracted message: " ++ main_message; [10%Z]])
       (w_figures text_world ++ [plot_histograms gray26 encrypted])).
Proof. apply (main_text_prints_message text_world gray26 26 26); eval_hyp. Defined.

Lemma main_text_missing_carrier_witness :
  main_text (mkWorld ∅ [] []) =
  (inl (FileNotFoundError "/content/new-small.png"),
   mkWorld ∅ ([] ++ [pystr "Embedding message..."]) []).
Proof. apply (main_text_missing_carrier (mkWorld ∅ [] [])). eval_hyp. Defined.

Lemma text_roundtrip_uniform_witness : text_pipeline default_stego gray9 [65%Z] = Ok [65%Z].
Proof. apply (text_roundtrip_uniform default_stego gray9 [65%Z] 9 9); eval_hyp. Defined.

Lemma text_roundtrip_witness : text_pipeline default_stego gray9 [65%Z] = Ok [65%Z].
Proof.
  apply (text_roundtrip default_stego gray9 [65%Z] gray9_A 9 9 8); try eval_hyp.
  intros x y. unfold num_bits_of. rewrite !no_edge_above_15; eval_hyp.
Defined.

Lemma embed_message_visits_witness :
  embed_message default_stego gray9 [65%Z] =
  (let* st := foldM (embed_visit (message_to_bits [65%Z]))
                (visits default_stego 9 9 (num_bits_of default_stego gray9)) (mkEmbed gray9 0) in
   Ok (e_pixels st)).
Proof. apply embed_message_visits; eval_hyp. Defined.

Lemma extract_message_visits_witness :
  extract_message default_stego gray9_A 1 =
  decode_message
    (x_bits (fold_left (extract_visit gray9_A (1 * 8))
               (visits default_stego 9 9 (num_bits_of default_stego gray9_A)) (mkExtract [] 0)))
    (1 * 8).
Proof. apply extract_message_visits; eval_hyp. Defined.

(** The white pixel of the spec's scenario does not make its block an
    edge with the default threshold. *)
Lemma is_edge_block_never_edge_witness : is_edge_block default_stego spotted9 3 3 = false.
Proof. apply is_edge_block_never_edge. eval_hyp. Defined.


Lemma embed_message_ok_witness : exists g, embed_message default_stego gray9 [65%Z] = Ok g.
Proof. apply (embed_message_ok default_stego gray9 [65%Z] 9 9); eval_hyp. Defined.

Lemma visits_NoDup_witness :
  NoDup (visit_pos <$> visits default_stego 9 9 (num_bits_of default_stego gray9)).
Proof. apply visits_NoDup; eval_hyp. Defined.

Lemma visits_in_bounds_witness : 0 < 1 /\ 0 < 1 /\ 0 < 3.
Proof.
  apply (visits_in_bounds default_stego 1 1 (fun _ _ => 1) (mkVisit 0 0 0 1)).
  apply list_elem_of_In. vm_compute. left. reflexivity.
Defined.

Lemma is_edge_block_footprint_witness :
  is_edge_block default_stego gray9 0 0 = is_edge_block default_stego (px_set gray9 8 8 0 0) 0 0.
Proof.
  apply is_edge_block_footprint; [eval_hyp|].
  intros y' x' Hy Hx _ _. rewrite px_set_ne; [reflexivity|]. simpl in *. intros Heq. injection Heq. lia.
Defined.

Lemma length_visits_witness :
  length (visits default_stego 9 9 (num_bits_of default_stego gray9)) = 3 * 9 * 9.
Proof. apply length_visits; eval_hyp. Defined.

Lemma decode_message_roundtrip_witness :
  decode_message (message_to_bits [72; 105]%Z ++ [true]) (length [72; 105]%Z * 8) = Ok [72; 105]%Z.
Proof. apply decode_message_roundtrip. eval_hyp. Defined.

Lemma extract_bits_embed_bits_witness :
  extract_bits gray9_bit 0 0 (length [true; false]) 0 = [true; false].
Proof. apply (extract_bits_embed_bits gray9 gray9_bit 9 9); eval_hyp. Defined.

Lemma embed_bits_spec_witness :
  wf_grid 9 9 gray9_bit /\
  lsb_read (px gray9_bit 0 0 0) (length [true; false]) = bits_val [true; false] /\
  Z.shiftr (px gray9_bit 0 0 0) (Z.of_nat (length [true; false])) =
    Z.shiftr (px gray9 0 0 0) (Z.of_nat (length [true; false])) /\
  (forall y' x' c', (y', x', c') <> (0, 0, 0) -> px gray9_bit y' x' c' = px gray9 y' x' c').
Proof. apply (embed_bits_spec gray9 0 0 [true; false] 0 gray9_bit 9 9); eval_hyp. Defined.

(** ["π"] (960) is encoded on 10 bits. *)
Lemma message_to_bits_wide_witness : 8 < length (message_to_bits [960%Z]).
Proof. apply message_to_bits_wide. lia. Defined.

Lemma embed_message_zero_block_height_witness :
  embed_message cfg_flat gray9 [65%Z] = Raise ValueError.
Proof. apply embed_message_zero_block_height. eval_hyp. Defined.

Lemma sqrt_gt_spec_witness : sqrt_gt 226 15 = true <-> (IZR 15 < sqrt (IZR 226))%R.
Proof. apply sqrt_gt_spec. lia. Defined.

(** ["Hi"] through the window, with the length typed as ["2"]. *)
Lemma gui_text_roundtrip_witness :
  TextSteganographyGUI.status_label (TextSteganographyGUI.decode_tab
    (TextSteganographyGUI.run
       [TextSteganographyGUI.SelectEncodeFile "carrier.png";
        TextSteganographyGUI.TypeMessage [72; 105]%Z; TextSteganographyGUI.ClickEncode;
        TextSteganographyGUI.ThreadRuns 0;
        TextSteganographyGUI.SelectDecodeFile TextSteganographyGUI.encrypted_save_path;
        TextSteganographyGUI.TypeLength [50%Z]; TextSteganographyGUI.ClickDecode;
        TextSteganographyGUI.ThreadRuns 0]
       (TextSteganographyGUI.initial_gui disk)))
  = TextSteganographyGUI.DecodedMessage [72; 105]%Z.
Proof.
  apply (TextSteganographyGUI.gui_text_roundtrip _ "carrier.png" gray9 9 9); eval_hyp.
Defined.

Lemma gui_invariant_witness :
  TextSteganographyGUI.gui_inv
    (TextSteganographyGUI.run
       [TextSteganographyGUI.SelectEncodeFile "carrier.png";
        TextSteganographyGUI.TypeMessage [72; 105]%Z; TextSteganographyGUI.ClickEncode;
        TextSteganographyGUI.ThreadRuns 0]
       (TextSteganographyGUI.initial_gui disk)).
Proof.
  apply (TextSteganographyGUI.gui_invariant (TextSteganographyGUI.initial_gui disk)); [eval_hyp|].
  apply TextSteganographyGUI.reachable_run, TextSteganographyGUI.reach_init.
Defined.

Lemma cancel_keeps_path_witness :
  TextSteganographyGUI.file_label (TextSteganographyGUI.encode_tab
    (TextSteganographyGUI.run
       [TextSteganographyGUI.SelectEncodeFile "carrier.png"; TextSteganographyGUI.SelectEncodeFile "";
        TextSteganographyGUI.TypeMessage [65%Z]; TextSteganographyGUI.ClickEncode]
       (TextSteganographyGUI.initial_gui disk))) = TextSteganographyGUI.NoFileSelected /\
  TextSteganographyGUI.threads
    (TextSteganographyGUI.run
       [TextSteganographyGUI.SelectEncodeFile "carrier.png"; TextSteganographyGUI.SelectEncodeFile "";
        TextSteganographyGUI.TypeMessage [65%Z]; TextSteganographyGUI.ClickEncode]
       (TextSteganographyGUI.initial_gui disk))
  = TextSteganographyGUI.threads (TextSteganographyGUI.initial_gui disk) ++
    [TextSteganographyGUI.EncodeJob "carrier.png" (py_strip [65%Z])].
Proof. apply TextSteganographyGUI.cancel_keeps_path; eval_hyp. Defined.

(** [main] of the image source hides a 1x1 image in [gray9] and gets it
    back. *)
Definition image_world : world :=
  mkWorld {[ "/content/new-large.png" := gray9; "/content/new-small.png" := [[[1; 2; 3]]]%Z ]} [] [].

Lemma main_image_saves_hidden_witness :
  exists encrypted,
    main_image image_world =
    (inr tt, mkWorld (<["extracted_image.png" := [[[1; 2; 3]]]%Z]>
                        (<["encrypted_image.png" := encrypted]> (w_files image_world)))
       (w_stdout image_world ++ [pystr "Embedding hidden image...";
                       pystr "Hidden image embedded and saved as 'encrypted_image.png'";
                       pystr "Extracting hidden image...";
                       pystr "Hidden image extracted and saved as 'extracted_image.png'"])
       (w_figures image_world ++ [plot_histograms gray9 encrypted])).
Proof. apply (main_image_saves_hidden image_world gray9 [[[1; 2; 3]]]%Z 9 9 1 1); eval_hyp. Defined.

Lemma embed_image_visits_witness :
  embed_image default_stego gray9 [[[1; 2; 3]]]%Z =
  (let* st := foldM (embed_visit (hidden_to_bits [[[1; 2; 3]]]%Z))
                (visits default_stego 9 9 (num_bits_of default_stego gray9)) (mkEmbed gray9 0) in
   Ok (e_pixels st)).
Proof. apply embed_image_visits; eval_hyp. Defined.

Lemma extract_image_visits_witness :
  extract_image default_stego gray9 (1, 1) =
  (let total := 1 * 1 * 8 * 3 in
   let* values := decode_bytes (x_bits (fold_left (extract_visit gray9 total)
                    (visits default_stego 9 9 (num_bits_of default_stego gray9)) (mkExtract [] 0))) total in
   Ok (reshape_rgb 1 1 values)).
Proof. apply extract_image_visits; eval_hyp. Defined.

(** A 2x1 hidden image at depth 1 in a [gray9] carrier. *)
Lemma image_roundtrip_uniform_witness :
  (let* encrypted := embed_image default_stego gray9 [[[1; 2; 3]; [250; 0; 7]]]%Z in
   extract_image default_stego encrypted (2, 1)) = Ok [[[1; 2; 3]; [250; 0; 7]]]%Z.
Proof. apply (image_roundtrip_uniform default_stego gray9 _ 9 9 2 1); eval_hyp. Defined.

Lemma reshape_rgb_flatten_witness :
  reshape_rgb 1 2 (flatten [[[1; 2; 3]; [250; 0; 7]]]%Z) = [[[1; 2; 3]; [250; 0; 7]]]%Z.
Proof. apply (reshape_rgb_flatten 2 1). eval_hyp. Defined.

Lemma gui_image_roundtrip_witness :
  ImageSteganographyGUI.files
    (ImageSteganographyGUI.run no_degenerate
       [ImageSteganographyGUI.SelectCoverImage "carrier.png";
        ImageSteganographyGUI.SelectHiddenImage "secret.png"; ImageSteganographyGUI.ClickEncode;
        ImageSteganographyGUI.ThreadRuns 0;
        ImageSteganographyGUI.SelectDecodeFile ImageSteganographyGUI.encrypted_save_path;
        ImageSteganographyGUI.TypeSize [32; 49; 32; 120; 32; 49]%Z; ImageSteganographyGUI.ClickDecode;
        ImageSteganographyGUI.ThreadRuns 0]
       (ImageSteganographyGUI.initial_gui image_disk))
    !! ImageSteganographyGUI.extracted_save_path = Some [[[1; 2; 3]]]%Z.
Proof.
  apply (ImageSteganographyGUI.gui_image_roundtrip _ _ "carrier.png" "secret.png" gray9 _ 9 9 1 1);
    eval_hyp.
Defined.

(** Clicking DECODE on the carrier, then choosing the encrypted file
    before the worker runs. *)
Lemma decode_reads_current_path_witness :
  let g := ImageSteganographyGUI.run no_degenerate
             [ImageSteganographyGUI.SelectDecodeFile "carrier.png";
              ImageSteganographyGUI.TypeSize [49; 120; 49]%Z]
             (ImageSteganographyGUI.initial_gui image_disk) in
  ImageSteganographyGUI.run no_degenerate
    [ImageSteganographyGUI.ClickDecode; ImageSteganographyGUI.SelectDecodeFile "secret.png";
     ImageSteganographyGUI.ThreadRuns 0] g =
  ImageSteganographyGUI.run no_degenerate
    [ImageSteganographyGUI.SelectDecodeFile "secret.png"; ImageSteganographyGUI.ClickDecode;
     ImageSteganographyGUI.ThreadRuns 0] g.
Proof. apply (ImageSteganographyGUI.decode_reads_current_path _ _ "carrier.png" _ (1, 1)%Z); eval_hyp. Defined.

(** Clicking DECODE on [carrier.png] with length 1, then choosing
    another file before the worker runs. *)
Lemma decode_keeps_clicked_path_witness :
  let g := TextSteganographyGUI.run
             [TextSteganographyGUI.SelectDecodeFile "carrier.png";
              TextSteganographyGUI.TypeLength [49%Z]]
             (TextSteganographyGUI.initial_gui disk) in
  TextSteganographyGUI.status_label (TextSteganographyGUI.decode_tab
    (TextSteganographyGUI.run
       [TextSteganographyGUI.ClickDecode; TextSteganographyGUI.SelectDecodeFile "other.png";
        TextSteganographyGUI.ThreadRuns 0] g)) =
  TextSteganographyGUI.status_label (TextSteganographyGUI.decode_tab
    (TextSteganographyGUI.decode_message_job "carrier.png" (Z.to_nat 1) g)).
Proof. apply (TextSteganographyGUI.decode_keeps_clicked_path _ "carrier.png" "other.png" 1%Z); eval_hyp. Defined.

Lemma embed_message_distortion_witness :
  (Z.abs (px gray9_A 0 0 0 - px gray9 0 0 0) < 2 ^ Z.of_nat (Nat.max 4 1))%Z.
Proof. apply (embed_message_distortion default_stego gray9 [65%Z] gray9_A 9 9); eval_hyp. Defined.


Lemma plot_histograms_total_witness :
  length (plot_histograms gray9 gray9_A).1 = 256 /\ sum_list (plot_histograms gray9 gray9_A).1 = 9 * 9 /\
  length (plot_histograms gray9 gray9_A).2 = 256 /\ sum_list (plot_histograms gray9 gray9_A).2 = 9 * 9.
Proof. apply (plot_histograms_total gray9 gray9_A 9 9); eval_hyp. Defined.

Lemma plot_histograms_distortion_witness :
  Forall2 (fun a b => Z.abs (a - b) < 2 ^ Z.of_nat (Nat.max 4 1))%Z (gray_values gray9) (gray_values gray9_A).
Proof. apply (plot_histograms_distortion default_stego gray9 [65%Z] gray9_A 9 9); eval_hyp. Defined.

(** The image window after ENCODE and a DECODE whose workers have not
    run yet: both tabs say "in progress". *)
Definition image_pending : ImageSteganographyGUI.image_gui :=
  ImageSteganographyGUI.run no_degenerate
    [ImageSteganographyGUI.SelectCoverImage "carrier.png";
     ImageSteganographyGUI.SelectHiddenImage "secret.png"; ImageSteganographyGUI.ClickEncode;
     ImageSteganographyGUI.SelectDecodeFile "carrier.png";
     ImageSteganographyGUI.TypeSize [49; 120; 49]%Z; ImageSteganographyGUI.ClickDecode]
    (ImageSteganographyGUI.initial_gui image_disk).

Lemma image_status_invariant_witness : ImageSteganographyGUI.status_inv image_pending.
Proof.
  apply (ImageSteganographyGUI.image_status_invariant no_degenerate image_disk).
  apply ImageSteganographyGUI.image_reachable_run, ImageSteganographyGUI.reachable_init.
Defined.

Lemma image_workers_finish_witness :
  ImageSteganographyGUI.eventually no_degenerate ImageSteganographyGUI.settled image_pending.
Proof.
  apply (ImageSteganographyGUI.image_workers_finish no_degenerate image_disk).
  apply ImageSteganographyGUI.image_reachable_run, ImageSteganographyGUI.reachable_init.
Defined.

(** The final chunk ["01"] of a 3-bit walk, written into the red channel
    of [(0, 0)] of [gray9] (128 = 10000000), is read back as ["001"]. *)
Lemma extract_bits_short_chunk_witness :
  extract_bits (px_set gray9 0 0 0 (lsb_write 128 1 2)) 0 0 3 0 =
  format_bin (3 - length [false; true])
    (lsb_read (Z.shiftr (px gray9 0 0 0) (Z.of_nat (length [false; true]))) (3 - length [false; true]))
  ++ [false; true].
Proof.
  apply (extract_bits_short_chunk gray9 _ 9 9 0 0 0 [false; true] 3); eval_hyp.
Defined.

(** Two characters asked of the 3 channels of [tiny]. *)
Lemma extract_message_overread_witness : extract_message default_stego tiny 2 = Raise ValueError.
Proof. apply (extract_message_overread default_stego tiny 2 1 1); eval_hyp. Defined.

(** The 24 bits of a 1x1 hidden image at 5 bits per channel: the second
    pixel starts at bit 15, and its third chunk would start at bit 25. *)
Lemma embed_pixel_img_raises_witness :
  embed_pixel_img 9 9 (hidden_to_bits [[[1; 2; 3]]]%Z) 0 0 5 0 (mkEmbed gray9 15) 1 = Raise ValueError.
Proof. apply embed_pixel_img_raises; eval_hyp. Defined.

(** The length typed as ["²"] on the chosen carrier, then the workers
    list run through. *)
Lemma superscript_length_stuck_witness :
  let g := TextSteganographyGUI.run
             [TextSteganographyGUI.SelectDecodeFile "carrier.png"; TextSteganographyGUI.TypeLength [178%Z]]
             (TextSteganographyGUI.initial_gui disk) in
  TextSteganographyGUI.threads (TextSteganographyGUI.step TextSteganographyGUI.ClickDecode g)
    = TextSteganographyGUI.threads g /\
  TextSteganographyGUI.tracebacks (TextSteganographyGUI.step TextSteganographyGUI.ClickDecode g)
    = TextSteganographyGUI.tracebacks g ++ [ValueError] /\
  TextSteganographyGUI.status_label (TextSteganographyGUI.decode_tab
    (TextSteganographyGUI.run (TextSteganographyGUI.ThreadRuns <$> [0])
       (TextSteganographyGUI.step TextSteganographyGUI.ClickDecode g)))
    = TextSteganographyGUI.DecodingInProgress.
Proof.
  apply (TextSteganographyGUI.superscript_length_stuck _ "carrier.png"); try eval_hyp.
  vm_compute. constructor.
Defined.
